(** * The preprocessing pipeline of [backend/preprocess.py]

    A shallow embedding of [handle_missing_values], [remove_duplicates],
    [handle_outliers], [scale_numerical_features],
    [encode_categorical_variables] and [preprocess_data], together with the
    pandas, numpy and scikit-learn operations they call (pandas 2 with
    object-typed string columns, scikit-learn 1.2 or later, which
    [sparse_output] requires).

    Conventions of the embedding.
    - A float64 value is a real number or NaN: [option R], [None] being NaN.
      Arithmetic is exact, so "up to floating-point tolerance" reads as
      equality; infinities and rounding error are outside the model.
    - A column is an object column (strings and NaN, as [read_csv] and
      [read_excel] produce them) or a numeric column tagged with its dtype,
      float64 or the nullable Int64 that the last loop of [preprocess_data]
      assigns.  An int64 column of the loaders is a float64 column here
      holding the same values; columns of other dtypes (bool, datetime) are
      not modelled.
    - A frame carries its row labels ([index]); the loaders give
      [RangeIndex], that is [seq 0 n].
    - The stages mutate the frame they are given: a stage is a function from
      the state of that frame to an outcome and the new state, and an
      exception leaves the state as it was when it was raised. *)

From Stdlib Require Import String Ascii.
From Stdlib Require Import List Bool Arith ZArith Lia Reals Lra Permutation Sorted.
Import ListNotations.

Set Implicit Arguments.

(** ** Exceptions and outcomes *)

Inductive exn : Set :=
| KeyError
| ValueError
| AttributeError
| InvalidIndexError.

Inductive result (A : Type) : Type :=
| Ok (a : A)
| Raise (e : exn).

Arguments Ok {A} a.
Arguments Raise {A} e.

(** ** float64 as reals with NaN *)

Definition float : Type := option R.

Definition NaN : float := None.

Definition lift2 (f : R -> R -> R) (a b : float) : float :=
  match a, b with
  | Some x, Some y => Some (f x y)
  | _, _ => None
  end.

Definition fadd : float -> float -> float := lift2 Rplus.
Definition fsub : float -> float -> float := lift2 Rminus.
Definition fmul : float -> float -> float := lift2 Rmult.
Definition fdiv : float -> float -> float := lift2 Rdiv.
Definition fsqrt (a : float) : float := option_map sqrt a.

Definition Rltb (x y : R) : bool := if Rlt_dec x y then true else false.
Definition Rleb (x y : R) : bool := if Rle_dec x y then true else false.
Definition Reqb (x y : R) : bool := if Req_dec_T x y then true else false.

(** [a < b] on floats: false as soon as one side is NaN. *)
Definition fltb (a b : float) : bool :=
  match a, b with
  | Some x, Some y => Rltb x y
  | _, _ => false
  end.

(** Round half to even: what [np.float64.round()] and Python's [round] on a
    float compute. *)
Definition round_half_even (x : R) : Z :=
  let f := Zfloor x in
  let d := (x - IZR f)%R in
  if Rlt_dec d (1 / 2) then f
  else if Rlt_dec (1 / 2) d then (f + 1)%Z
  else if Z.even f then f else (f + 1)%Z.

(** [x.round()] on a numpy float: NaN stays NaN. *)
Definition np_round (a : float) : float :=
  option_map (fun x => IZR (round_half_even x)) a.

(** Python's [round(x)]: an int, and [ValueError] on NaN. *)
Definition py_round (a : float) : result Z :=
  match a with
  | Some x => Ok (round_half_even x)
  | None => Raise ValueError
  end.

(** [float.is_integer]. *)
Definition is_integer (x : R) : bool := Reqb (IZR (Zfloor x)) x.

(** ** Series helpers *)

Section Series.

Variable A : Type.

(** [Series.dropna]: the values that are not NaN, in order. *)
Fixpoint dropna (vs : list (option A)) : list A :=
  match vs with
  | [] => []
  | Some x :: vs' => x :: dropna vs'
  | None :: vs' => dropna vs'
  end.

(** [Series.fillna(fill)]; filling with NaN changes nothing. *)
Definition fillna (fill : option A) (vs : list (option A)) : list (option A) :=
  map (fun v => match v with Some _ => v | None => fill end) vs.

(** Insertion into an ascending list, and the sort built on it: [np.sort]
    and Python's [sorted]. *)
Fixpoint insert (leb : A -> A -> bool) (x : A) (l : list A) : list A :=
  match l with
  | [] => [x]
  | y :: l' => if leb x y then x :: l else y :: insert leb x l'
  end.

Fixpoint sort (leb : A -> A -> bool) (l : list A) : list A :=
  match l with
  | [] => []
  | x :: l' => insert leb x (sort leb l')
  end.

(** Boolean selection [s[mask]]. *)
Fixpoint select (mask : list bool) (l : list A) : list A :=
  match mask, l with
  | true :: mask', x :: l' => x :: select mask' l'
  | false :: mask', _ :: l' => select mask' l'
  | _, _ => []
  end.

End Series.

Definition Rsum (xs : list R) : R := fold_right Rplus 0%R xs.

(** [Series.mean()] and [np.nanmean]: NaN is skipped; NaN when nothing is
    left. *)
Definition mean (vs : list float) : float :=
  match dropna vs with
  | [] => NaN
  | xs => Some (Rsum xs / INR (length xs))%R
  end.

(** [np.nanvar], the population variance (divisor: the number of values). *)
Definition pvar (vs : list float) : float :=
  match mean vs with
  | None => NaN
  | Some mu =>
      let xs := dropna vs in
      Some (Rsum (map (fun x => (x - mu) * (x - mu)) xs) / INR (length xs))%R
  end.

(** The population standard deviation. *)
Definition pstd (vs : list float) : float := fsqrt (pvar vs).

(** [Series.quantile(q)] with linear interpolation: over the sorted values
    that are not NaN, the value at the virtual position [q * (n - 1)]. *)
Definition quantile (q : R) (vs : list float) : float :=
  match sort Rleb (dropna vs) with
  | [] => NaN
  | (x0 :: _) as xs =>
      let pos := (q * INR (length xs - 1))%R in
      let lo := Z.to_nat (Zfloor pos) in
      let hi := Nat.min (S lo) (length xs - 1) in
      let a := nth lo xs x0 in
      let b := nth hi xs x0 in
      Some (a + (b - a) * (pos - IZR (Zfloor pos)))%R
  end.

(** [Series.median()]: the middle of the sorted values that are not NaN, the
    mean of the two middle ones when their number is even. *)
Definition median (vs : list float) : float :=
  match sort Rleb (dropna vs) with
  | [] => NaN
  | (x0 :: _) as xs =>
      let n := length xs in
      if Nat.even n
      then Some ((nth (n / 2 - 1) xs x0 + nth (n / 2) xs x0) / 2)%R
      else Some (nth (n / 2) xs x0)
  end.

(** [Series.mode()] of an object column: the values of highest count among
    those that are not NaN, in ascending order. *)
Definition count (s : string) (xs : list string) : nat := count_occ string_dec xs s.

Definition uniques (xs : list string) : list string :=
  sort String.leb (nodup string_dec xs).

Definition mode (vs : list (option string)) : list string :=
  let xs := dropna vs in
  let top := list_max (map (fun s => count s xs) xs) in
  filter (fun s => count s xs =? top) (uniques xs).

(** ** Frames *)

Inductive numeric_dtype : Set :=
| float64
| Int64.

Inductive column : Type :=
| ObjCol (vs : list (option string))
| NumCol (t : numeric_dtype) (vs : list float).

Record DataFrame : Type := mkDataFrame {
  index : list nat;
  columns : list (string * column)
}.

(** [df[col].dtype == 'object'], [include=np.number], [include=['float']]. *)
Definition is_object (c : column) : bool :=
  match c with ObjCol _ => true | NumCol _ _ => false end.

Definition is_number (c : column) : bool :=
  match c with ObjCol _ => false | NumCol _ _ => true end.

Definition is_float (c : column) : bool :=
  match c with NumCol float64 _ => true | _ => false end.

Definition labels (df : DataFrame) : list string := map fst (columns df).

(** [df.select_dtypes(include=...).columns]. *)
Definition select_dtypes (p : column -> bool) (df : DataFrame) : list string :=
  map fst (filter (fun nc => p (snd nc)) (columns df)).

(** [df[col]]: every column that carries the label; one Series when the
    label is unique, a frame otherwise. *)
Definition getitem (col : string) (df : DataFrame) : list column :=
  map snd (filter (fun nc => String.eqb (fst nc) col) (columns df)).

(** [df.loc[:, col] = values] and [df[col] = values]. *)
Definition setitem (col : string) (c : column) (df : DataFrame) : DataFrame :=
  mkDataFrame (index df)
    (map (fun nc => if String.eqb (fst nc) col then (fst nc, c) else nc) (columns df)).

(** ** Code that mutates the frame it is given

    [Py A] is a computation over the state of that frame: it ends with a
    value or an exception, and the state it reached either way. *)

Definition Py (A : Type) : Type := DataFrame -> result A * DataFrame.

Definition ret {A : Type} (a : A) : Py A := fun df => (Ok a, df).

Definition bind {A B : Type} (m : Py A) (k : A -> Py B) : Py B :=
  fun df =>
    match m df with
    | (Ok a, df') => k a df'
    | (Raise e, df') => (Raise e, df')
    end.

Notation "x <- m ;; k" := (bind m (fun x => k))
  (at level 61, m at next level, right associativity).
Notation "m ;;; k" := (bind m (fun _ => k))
  (at level 61, right associativity).

(** [for col in cols: body]. *)
Fixpoint for_each (cols : list string) (body : string -> Py unit) : Py unit :=
  match cols with
  | [] => ret tt
  | col :: cols' => body col ;;; for_each cols' body
  end.

(** The loop body shared by the three loops of the module: read [df[col]],
    compute the new column, assign it.  A repeated label makes [df[col]] a
    frame, on which [.dtype] and [.apply(lambda x: x.is_integer())] raise
    [AttributeError].  [handle_missing_values] comes first and loops over
    every label, so the loop of [handle_outliers] only ever runs on unique
    labels. *)
Definition update_col (f : column -> result column) (col : string) : Py unit :=
  fun df =>
    match getitem col df with
    | [] => (Raise KeyError, df)
    | [c] =>
        match f c with
        | Ok c' => (Ok tt, setitem col c' df)
        | Raise e => (Raise e, df)
        end
    | _ :: _ :: _ => (Raise AttributeError, df)
    end.

(** ** [handle_missing_values] *)

(** [s.mode()[0]]: label 0 of the modes, [KeyError] when there is none. *)
Definition first_mode (vs : list (option string)) : result string :=
  match mode vs with
  | [] => Raise KeyError
  | m :: _ => Ok m
  end.

Definition impute_column (c : column) : result column :=
  match c with
  | ObjCol vs =>
      match first_mode vs with
      | Ok m => Ok (ObjCol (fillna (Some m) vs))
      | Raise e => Raise e
      end
  | NumCol t vs => Ok (NumCol t (fillna (np_round (mean vs)) vs))
  end.

Definition handle_missing_values : Py unit :=
  fun df => for_each (labels df) (update_col impute_column) df.

(** ** [remove_duplicates] *)

Inductive cell : Type :=
| StrCell (v : option string)
| NumCell (v : float).

(** Equality of cells as [duplicated] has it: NaN equals NaN. *)
Definition cell_eqb (a b : cell) : bool :=
  match a, b with
  | StrCell (Some s), StrCell (Some s') => String.eqb s s'
  | StrCell None, StrCell None => true
  | NumCell (Some x), NumCell (Some y) => Reqb x y
  | NumCell None, NumCell None => true
  | _, _ => false
  end.

Fixpoint row_eqb (r r' : list cell) : bool :=
  match r, r' with
  | [], [] => true
  | a :: r1, b :: r1' => cell_eqb a b && row_eqb r1 r1'
  | _, _ => false
  end.

Definition cell_at (i : nat) (c : column) : cell :=
  match c with
  | ObjCol vs => StrCell (nth i vs None)
  | NumCol _ vs => NumCell (nth i vs None)
  end.

Definition nrows (df : DataFrame) : nat := length (index df).

Definition row (df : DataFrame) (i : nat) : list cell :=
  map (fun nc => cell_at i (snd nc)) (columns df).

Definition rows (df : DataFrame) : list (list cell) :=
  map (row df) (seq 0 (nrows df)).

(** [df.duplicated()]: true on a row equal to one seen before it. *)
Fixpoint duplicated (seen rs : list (list cell)) : list bool :=
  match rs with
  | [] => []
  | r :: rs' => existsb (row_eqb r) seen :: duplicated (r :: seen) rs'
  end.

Definition select_col (mask : list bool) (c : column) : column :=
  match c with
  | ObjCol vs => ObjCol (select mask vs)
  | NumCol t vs => NumCol t (select mask vs)
  end.

(** [df.empty]: no row or no column. *)
Definition empty (df : DataFrame) : bool :=
  match index df, columns df with
  | _ :: _, _ :: _ => false
  | _, _ => true
  end.

(** [df.drop_duplicates(inplace=True)]: nothing on an empty frame; otherwise
    the rows that are not duplicated, with the labels they had. *)
Definition remove_duplicates : Py unit :=
  fun df =>
    if empty df then (Ok tt, df)
    else
      let keep := map negb (duplicated [] (rows df)) in
      (Ok tt,
       mkDataFrame (select keep (index df))
         (map (fun nc => (fst nc, select_col keep (snd nc))) (columns df))).

(** ** [handle_outliers] *)

(** [np.where(mask, r, s)]. *)
Fixpoint np_where (mask : list bool) (r : R) (s : list float) : list float :=
  match mask, s with
  | m :: mask', x :: s' => (if m then Some r else x) :: np_where mask' r s'
  | _, _ => []
  end.

Definition outliers_values (s : list float) : result (list float) :=
  let Q1 := quantile (1 / 4) s in
  let Q3 := quantile (3 / 4) s in
  let IQR := fsub Q3 Q1 in
  let lower := fsub Q1 (fmul (Some (3 / 2)%R) IQR) in
  let upper := fadd Q3 (fmul (Some (3 / 2)%R) IQR) in
  let mask := map (fun x => fltb x lower || fltb upper x) s in
  match py_round (median s) with
  | Ok r => Ok (np_where mask (IZR r) s)
  | Raise e => Raise e
  end.

Definition outliers_column (c : column) : result column :=
  match c with
  | ObjCol _ => Ok c
  | NumCol t s =>
      match outliers_values s with
      | Ok s' => Ok (NumCol t s')
      | Raise e => Raise e
      end
  end.

Definition handle_outliers : Py unit :=
  fun df => for_each (select_dtypes is_number df) (update_col outliers_column) df.

(** ** [scale_numerical_features] *)

(** scikit-learn's [_handle_zeros_in_scale]: a scale of zero is taken as 1. *)
Definition handle_zeros_in_scale (s : float) : float :=
  match s with
  | Some x => if Reqb x 0 then Some 1%R else Some x
  | None => None
  end.

(** One column of [StandardScaler().fit_transform]: [mean_] and [scale_] are
    fitted on the values that are not NaN, and NaN stays NaN. *)
Definition standard_scale (s : list float) : list float :=
  let mean_ := mean s in
  let scale_ := handle_zeros_in_scale (pstd s) in
  map (fun x => fdiv (fsub x mean_) scale_) s.

Definition scale_column (c : column) : column :=
  match c with
  | ObjCol _ => c
  | NumCol t s => NumCol t (standard_scale s)
  end.

(** [fit_transform] refuses an array with no feature or no sample
    ([ValueError]). *)
Definition scale_numerical_features : Py unit :=
  fun df =>
    match select_dtypes is_number df, index df with
    | _ :: _, _ :: _ =>
        (Ok tt,
         mkDataFrame (index df)
           (map (fun nc => (fst nc, scale_column (snd nc))) (columns df)))
    | _, _ => (Raise ValueError, df)
    end.

(** ** [encode_categorical_variables] *)

Definition isNaN {A : Type} (v : option A) : bool :=
  match v with Some _ => false | None => true end.

(** [OneHotEncoder.categories_] of one column: its distinct values in
    ascending order, NaN last when the column has one. *)
Definition categories (vs : list (option string)) : list (option string) :=
  map Some (uniques (dropna vs)) ++ (if existsb isNaN vs then [None] else []).

Definition category_eqb (v c : option string) : bool :=
  match v, c with
  | Some s, Some s' => String.eqb s s'
  | None, None => true
  | _, _ => false
  end.

(** [get_feature_names_out]: the column label, an underscore, [str] of the
    category. *)
Definition feature_name (col : string) (c : option string) : string :=
  (col ++ "_" ++ match c with Some s => s | None => "nan" end)%string.

Definition indicator (c : option string) (vs : list (option string)) : list float :=
  map (fun v => Some (if category_eqb v c then 1%R else 0%R)) vs.

(** [drop='first']: one indicator per category but the first. *)
Definition one_hot (nc : string * column) : list (string * column) :=
  match snd nc with
  | ObjCol vs =>
      map (fun c => (feature_name (fst nc) c, NumCol float64 (indicator c vs)))
        (tl (categories vs))
  | NumCol _ _ => []
  end.

(** [pd.DataFrame(encoder.fit_transform(df[cat_cols]), columns=...)]: a
    frame with a fresh [RangeIndex]; [fit_transform] refuses an array with no
    sample. *)
Definition encoded_frame (df : DataFrame) : result DataFrame :=
  match index df with
  | [] => Raise ValueError
  | _ :: _ =>
      Ok (mkDataFrame (seq 0 (nrows df))
            (flat_map one_hot (filter (fun nc => is_object (snd nc)) (columns df))))
  end.

(** [df.drop(columns=cat_cols, inplace=True)]. *)
Definition drop_object_columns (df : DataFrame) : DataFrame :=
  mkDataFrame (index df) (filter (fun nc => negb (is_object (snd nc))) (columns df)).

(** [Index.union(other, sort=False)]: the labels of the first index, then
    those of the second that the first lacks. *)
Definition union_index (a b : list nat) : list nat :=
  a ++ filter (fun i => negb (existsb (Nat.eqb i) a)) b.

Fixpoint get_loc (lbl : nat) (idx : list nat) : option nat :=
  match idx with
  | [] => None
  | l :: idx' => if Nat.eqb lbl l then Some 0 else option_map S (get_loc lbl idx')
  end.

(** [reindex]: the value at each new label, NaN where the old index lacks
    it. *)
Definition reindex {A : Type} (old new : list nat) (vs : list (option A)) : list (option A) :=
  map (fun lbl => match get_loc lbl old with Some k => nth k vs None | None => None end) new.

Definition reindex_col (old new : list nat) (c : column) : column :=
  match c with
  | ObjCol vs => ObjCol (reindex old new vs)
  | NumCol t vs => NumCol t (reindex old new vs)
  end.

Fixpoint is_unique (idx : list nat) : bool :=
  match idx with
  | [] => true
  | l :: idx' => negb (existsb (Nat.eqb l) idx') && is_unique idx'
  end.

Definition index_eqb (a b : list nat) : bool :=
  if list_eq_dec Nat.eq_dec a b then true else false.

(** [pd.concat([a, b], axis=1)]: the columns side by side when the two
    indexes are equal; otherwise both frames reindexed to the union of the
    indexes, which needs uniquely valued indexes. *)
Definition concat_axis1 (a b : DataFrame) : result DataFrame :=
  if index_eqb (index a) (index b) then
    Ok (mkDataFrame (index a) (columns a ++ columns b))
  else if is_unique (index a) && is_unique (index b) then
    let idx := union_index (index a) (index b) in
    Ok (mkDataFrame idx
          (map (fun nc => (fst nc, reindex_col (index a) idx (snd nc))) (columns a) ++
           map (fun nc => (fst nc, reindex_col (index b) idx (snd nc))) (columns b)))
  else Raise InvalidIndexError.

(** What a function hands back: the frame it was given, or a new one. *)
Inductive returned : Type :=
| Self
| New (df : DataFrame).

Definition encode_categorical_variables : Py returned :=
  fun df =>
    match select_dtypes is_object df with
    | [] => (Ok Self, df)
    | _ :: _ =>
        match encoded_frame df with
        | Raise e => (Raise e, df)
        | Ok encoded_df =>
            let df' := drop_object_columns df in
            match concat_axis1 df' encoded_df with
            | Ok new => (Ok (New new), df')
            | Raise e => (Raise e, df')
            end
        end
    end.

(** ** [preprocess_data] *)

(** The loop that closes [preprocess_data]: a float64 column whose values,
    NaN apart, are all integers becomes Int64. *)
Definition restore_column (c : column) : result column :=
  match c with
  | NumCol float64 s =>
      if forallb is_integer (dropna s) then Ok (NumCol Int64 s) else Ok c
  | _ => Ok c
  end.

Definition restore_integer_columns : Py unit :=
  fun df => for_each (select_dtypes is_float df) (update_col restore_column) df.

(** The state is the caller's frame.  The first four stages and the drop of
    the encoder work on it; when the encoder builds a new frame the closing
    loop works on that one and the caller's frame stays as the encoder left
    it. *)
Definition preprocess_data : Py DataFrame :=
  handle_missing_values ;;;
  remove_duplicates ;;;
  handle_outliers ;;;
  scale_numerical_features ;;;
  r <- encode_categorical_variables ;;
  match r with
  | Self => restore_integer_columns ;;; (fun df => (Ok df, df))
  | New d =>
      fun df =>
        match restore_integer_columns d with
        | (Ok _, d') => (Ok d', df)
        | (Raise e, _) => (Raise e, df)
        end
  end.

(** The encoder as a stage of tables. *)
Definition encode (df : DataFrame) : result DataFrame :=
  match encode_categorical_variables df with
  | (Ok Self, df') => Ok df'
  | (Ok (New d), _) => Ok d
  | (Raise e, _) => Raise e
  end.

(** * The service of [backend/main.py]

    The handlers of the FastAPI application over the module-level variable
    [dataset], one request at a time.  A handler is a function from the
    value of [dataset] to a reply and the new value.

    Conventions of the embedding.
    - A file name is a string of code points below 256.
    - Requests are well typed: the validation of the framework (status 422)
      is outside the model.
    - [pd.read_csv] and [pd.read_excel] are parameters: a loader returns a
      frame or raises.  So is [DataFrame.to_csv].
    - What [jsonable_encoder] does with [pd.NA], the missing cell of an Int64
      column, is a parameter too ([na_encodable]): it raises [ValueError] or
      it returns a value that [json.dumps] accepts.  A float NaN passes
      [jsonable_encoder] unchanged and is refused by [JSONResponse], whose
      [render] calls [json.dumps] with [allow_nan=False]. *)

Unset Implicit Arguments.

(** ** Strings *)

(** [str.isspace] on one code point below 256. *)
Definition isspace (a : ascii) : bool :=
  let n := nat_of_ascii a in
  ((9 <=? n) && (n <=? 13)) || ((28 <=? n) && (n <=? 32)) || (n =? 133) || (n =? 160).

Fixpoint lstrip (s : string) : string :=
  match s with
  | EmptyString => EmptyString
  | String a s' => if isspace a then lstrip s' else s
  end.

Fixpoint rstrip (s : string) : string :=
  match s with
  | EmptyString => EmptyString
  | String a s' =>
      match rstrip s' with
      | EmptyString => if isspace a then EmptyString else String a EmptyString
      | r => String a r
      end
  end.

(** [s.strip()]. *)
Definition strip (s : string) : string := rstrip (lstrip s).

(** [s.endswith(suffix)]: some tail of [s] is [suffix]. *)
Fixpoint endswith (s suffix : string) : bool :=
  if String.eqb s suffix then true
  else match s with
       | EmptyString => false
       | String _ s' => endswith s' suffix
       end.

(** ** Replies *)

(** The exceptions that reach an [except Exception as e] clause (an
    [HTTPException], an exception of the pipeline or of the encoders, an
    exception of a pandas reader or writer), and the [detail] of an
    [HTTPException]; [str(e)] inside a detail is kept as [e]. *)
Inductive error : Type :=
| HTTPException (status_code : nat) (detail : message)
| PythonError (e : exn)
| LibraryError
with message : Type :=
| OnlyCsvXlsx
| NoDataset
| ErrorProcessingFile (e : error)
| ErrorRetrievingColumns (e : error)
| ErrorGeneratingCsv (e : error).

(** The values of a record of [to_dict(orient="records")]: a string, a
    number, the float NaN, or [pd.NA]. *)
Inductive value : Type :=
| Str (s : string)
| Num (x : R)
| NaNValue
| NA.

Definition record : Type := list (string * value).

Inductive body : Type :=
| Pong
| Uploaded (rows columns : nat) (preview : list record)
| Records (rs : list record)
| Shape (rows columns : nat)
| Csv (text : string).

(** A reply: a body with status 200, an [HTTPException] raised by the
    handler or by [get_dataset], or the 500 of the framework when the value
    that the handler returned cannot be rendered. *)
Inductive reply : Type :=
| Success (b : body)
| Failure (status_code : nat) (detail : message)
| InternalServerError.

Definition status (r : reply) : nat :=
  match r with
  | Success _ => 200
  | Failure code _ => code
  | InternalServerError => 500
  end.

(** ** Frames as JSON *)

(** [x[:stop]] on a sequence of length [n]: the number of items taken. *)
Definition slice_stop (stop : Z) (n : nat) : nat :=
  if (stop <? 0)%Z then Z.to_nat (Z.of_nat n + stop) else Nat.min (Z.to_nat stop) n.

Definition take_col (r : nat) (c : column) : column :=
  match c with
  | ObjCol vs => ObjCol (firstn r vs)
  | NumCol t vs => NumCol t (firstn r vs)
  end.

(** [df.iloc[:rows, :cols]]. *)
Definition iloc (rows cols : Z) (df : DataFrame) : DataFrame :=
  let r := slice_stop rows (nrows df) in
  let c := slice_stop cols (length (columns df)) in
  mkDataFrame (firstn r (index df))
    (map (fun nc => (fst nc, take_col r (snd nc))) (firstn c (columns df))).

(** [df.head(n)], which is [df.iloc[:n]]. *)
Definition head (n : Z) (df : DataFrame) : DataFrame :=
  let r := slice_stop n (nrows df) in
  mkDataFrame (firstn r (index df))
    (map (fun nc => (fst nc, take_col r (snd nc))) (columns df)).

Definition value_at (i : nat) (c : column) : value :=
  match c with
  | ObjCol vs => match nth i vs None with Some s => Str s | None => NaNValue end
  | NumCol float64 vs => match nth i vs None with Some x => Num x | None => NaNValue end
  | NumCol Int64 vs => match nth i vs None with Some x => Num x | None => NA end
  end.

(** [d[k] = v] on a Python dict: the key keeps its place when it is there. *)
Fixpoint dict_set {V : Type} (k : string) (v : V) (d : list (string * V)) : list (string * V) :=
  match d with
  | [] => [(k, v)]
  | (k', v') :: d' => if String.eqb k k' then (k, v) :: d' else (k', v') :: dict_set k v d'
  end.

(** [dict(zip(columns, row))]. *)
Definition record_at (df : DataFrame) (i : nat) : record :=
  fold_left (fun d nc => dict_set (fst nc) (value_at i (snd nc)) d) (columns df) [].

(** [df.to_dict(orient="records")]. *)
Definition to_dict_records (df : DataFrame) : list record :=
  map (record_at df) (seq 0 (nrows df)).

Definition is_NA (v : value) : bool := match v with NA => true | _ => false end.
Definition is_NaNValue (v : value) : bool := match v with NaNValue => true | _ => false end.

Definition holds (p : value -> bool) (rs : list record) : bool :=
  existsb (existsb (fun kv => p (snd kv))) rs.

Section Service.

Variable contents : Type.
Variable read_csv read_excel : contents -> option DataFrame.
Variable to_csv : DataFrame -> option string.
Variable na_encodable : bool.

(** [jsonable_encoder] on records. *)
Definition jsonable_encoder (rs : list record) : result (list record) :=
  if holds is_NA rs && negb na_encodable then Raise ValueError else Ok rs.

(** [JSONResponse.render]: [json.dumps(content, allow_nan=False)]. *)
Definition render (rs : list record) : result (list record) :=
  if holds is_NaNValue rs then Raise ValueError else Ok rs.

(** ** Handlers *)

Definition handler : Type := option DataFrame -> reply * option DataFrame.

(** The body of a [try] block: it ends with a value or an exception, and the
    value of [dataset] it reached. *)
Definition attempt (A : Type) : Type := option DataFrame -> (A + error) * option DataFrame.

(** [try: body except Exception as e: raise HTTPException(500, detail(e))]. *)
Definition try_except (body : attempt body) (detail : error -> message) : handler :=
  fun dataset =>
    match body dataset with
    | (inl b, dataset') => (Success b, dataset')
    | (inr e, dataset') => (Failure 500 (detail e), dataset')
    end.

Definition ping : handler := fun dataset => (Success Pong, dataset).

Definition supported (filename : string) : bool :=
  endswith filename ".csv" || endswith filename ".xlsx".

Definition upload_file_body (filename : string) (file : contents) : attempt body :=
  fun dataset =>
    let filename := strip filename in
    if negb (supported filename) then
      (inr (HTTPException 400 OnlyCsvXlsx), dataset)
    else
      match (if endswith filename ".csv" then read_csv file else read_excel file) with
      | None => (inr LibraryError, dataset)
      | Some df =>
          (* dataset = the frame read; preprocess_data works on it in place *)
          match preprocess_data df with
          | (Raise e, df') => (inr (PythonError e), Some df')
          | (Ok out, _) =>
              match jsonable_encoder (to_dict_records (head 5 out)) with
              | Raise e => (inr (PythonError e), Some out)
              | Ok preview =>
                  match render preview with
                  | Raise e => (inr (PythonError e), Some out)
                  | Ok preview =>
                      (inl (Uploaded (nrows out) (length (columns out)) preview), Some out)
                  end
              end
          end
      end.

Definition upload_file (filename : string) (file : contents) : handler :=
  try_except (upload_file_body filename file) ErrorProcessingFile.

(** [Depends(get_dataset)]: the handler runs on the dataset when there is
    one; the exception of [get_dataset] is raised outside the handler. *)
Definition with_dataset (h : DataFrame -> handler) : handler :=
  fun dataset =>
    match dataset with
    | None => (Failure 400 NoDataset, dataset)
    | Some df => h df dataset
    end.

(** The value that a handler returned, on its way out of the framework. *)
Definition rendered (r : reply * option DataFrame) : reply * option DataFrame :=
  match r with
  | (Success (Records rs), dataset) =>
      match render rs with
      | Ok _ => r
      | Raise _ => (InternalServerError, dataset)
      end
  | _ => r
  end.

Definition show_columns (rows cols : Z) : handler :=
  with_dataset (fun df dataset =>
    rendered
      (try_except
         (fun dataset =>
            match jsonable_encoder (to_dict_records (iloc rows cols df)) with
            | Ok rs => (inl (Records rs), dataset)
            | Raise e => (inr (PythonError e), dataset)
            end)
         ErrorRetrievingColumns dataset)).

Definition get_shape : handler :=
  with_dataset (fun df dataset => (Success (Shape (nrows df) (length (columns df))), dataset)).

Definition download_cleaned : handler :=
  with_dataset (fun df =>
    try_except
      (fun dataset =>
         match to_csv df with
         | Some text => (inl (Csv text), dataset)
         | None => (inr LibraryError, dataset)
         end)
      ErrorGeneratingCsv).

(** ** Requests in sequence *)

Inductive request : Type :=
| GetPing
| PostUpload (filename : string) (file : contents)
| GetShowColumns (rows cols : Z)
| GetShape
| GetDownload.

Definition serve (r : request) : handler :=
  match r with
  | GetPing => ping
  | PostUpload filename file => upload_file filename file
  | GetShowColumns rows cols => show_columns rows cols
  | GetShape => get_shape
  | GetDownload => download_cleaned
  end.

(** The replies to a sequence of requests, and the dataset after them. *)
Fixpoint serve_all (rs : list request) (dataset : option DataFrame)
    : list reply * option DataFrame :=
  match rs with
  | [] => ([], dataset)
  | r :: rs' =>
      let (a, dataset') := serve r dataset in
      let (answers, dataset'') := serve_all rs' dataset' in
      (a :: answers, dataset'')
  end.

End Service.

Arguments GetPing {contents}.
Arguments PostUpload {contents} filename file.
Arguments GetShowColumns {contents} rows cols.
Arguments GetShape {contents}.
Arguments GetDownload {contents}.

(** * The data summary of [frontend/app.py]

    The figures that the page computes on the raw table [df_raw] under
    "Data Summary".  [str.lower] and [pd.to_datetime] are parameters. *)

(** [df_raw.isnull().sum()], column by column. *)
Definition isnull_sum (c : column) : nat :=
  match c with
  | ObjCol vs => length (filter isNaN vs)
  | NumCol _ vs => length (filter isNaN vs)
  end.

Definition missing_values (df : DataFrame) : list (string * nat) :=
  map (fun nc => (fst nc, isnull_sum (snd nc))) (columns df).

(** [df_raw.duplicated().sum()]; [duplicated] of an empty frame is an empty
    Series. *)
Definition duplicate_count (df : DataFrame) : nat :=
  if empty df then 0 else length (filter (fun b : bool => b) (duplicated [] (rows df))).

(** [((s < Q1 - 1.5 * IQR) | (s > Q3 + 1.5 * IQR)).sum()]. *)
Definition outlier_mask (s : list float) : list bool :=
  let Q1 := quantile (1 / 4) s in
  let Q3 := quantile (3 / 4) s in
  let IQR := fsub Q3 Q1 in
  map (fun x => fltb x (fsub Q1 (fmul (Some (3 / 2)%R) IQR)) ||
                fltb (fadd Q3 (fmul (Some (3 / 2)%R) IQR)) x) s.

Definition outlier_count (s : list float) : nat :=
  length (filter (fun b : bool => b) (outlier_mask s)).

(** [outlier_counts]: one entry per numerical column. *)
Definition outlier_counts (df : DataFrame) : list (string * nat) :=
  fold_left
    (fun d nc =>
       match snd nc with
       | NumCol _ s => dict_set (fst nc) (outlier_count s) d
       | ObjCol _ => d
       end)
    (filter (fun nc => is_number (snd nc)) (columns df)) [].



Section Formatting.

Variable lower : string -> string.
Variable to_datetime_raises : column -> bool.



End Formatting.

(** [d.get(k)]. *)
Fixpoint dict_get {V : Type} (k : string) (d : list (string * V)) : option V :=
  match d with
  | [] => None
  | (k', v) :: d' => if String.eqb k k' then Some v else dict_get k d'
  end.

(** * Vocabulary of the statements *)

Unset Implicit Arguments.

(** ** Tables of the data model *)

(** Column labels are unique, as the data model has it and as [read_csv] and
    [read_excel] make them. *)
Definition unique_labels (df : DataFrame) : Prop := NoDup (labels df).

(** Every column has as many cells as the frame has rows. *)
Definition column_length (c : column) : nat :=
  match c with
  | ObjCol vs => length vs
  | NumCol _ vs => length vs
  end.

Definition rectangular (df : DataFrame) : Prop :=
  forall nc, In nc (columns df) -> column_length (snd nc) = nrows df.

(** A table of the data model: rectangular, with unique column labels. *)
Definition well_formed (df : DataFrame) : Prop :=
  unique_labels df /\ rectangular df.

(** Label and kind of each column, in frame order. *)
Definition kinds (df : DataFrame) : list (string * bool) :=
  map (fun nc => (fst nc, is_object (snd nc))) (columns df).

(** The object columns, and the others, in frame order. *)
Definition object_columns (df : DataFrame) : list (string * column) :=
  filter (fun nc => is_object (snd nc)) (columns df).

Definition numeric_columns (df : DataFrame) : list (string * column) :=
  filter (fun nc => negb (is_object (snd nc))) (columns df).

(** ** Missing cells *)

(** The cells of a column that hold the missing sentinel. *)
Definition missing_cells (c : column) : nat :=
  match c with
  | ObjCol vs => length (filter isNaN vs)
  | NumCol _ vs => length (filter isNaN vs)
  end.

(** A column with at least one cell that is not missing. *)
Definition has_value (c : column) : bool :=
  match c with
  | ObjCol vs => negb (forallb isNaN vs)
  | NumCol _ vs => negb (forallb isNaN vs)
  end.

(** An object column with no value at all. *)
Definition empty_object (c : column) : bool := is_object c && negb (has_value c).

(** Every numeric column has a value. *)
Definition numeric_columns_have_values (df : DataFrame) : bool :=
  forallb (fun nc => is_object (snd nc) || has_value (snd nc)) (columns df).

(** The replacement of missing cells by [x]. *)
Definition filled {A : Type} (x : A) (vs : list (option A)) : list (option A) :=
  map (fun v => match v with Some y => Some y | None => Some x end) vs.

(** ** Loops, column by column *)

(** The loops over columns in frame order: [f] on the columns that [p]
    selects, up to the first one on which it raises. *)
Fixpoint map_cols (p : column -> bool) (f : column -> result column)
    (cs : list (string * column)) : result unit * list (string * column) :=
  match cs with
  | [] => (Ok tt, [])
  | (n, c) :: cs' =>
      if p c then
        match f c with
        | Ok c' => let (r, cs'') := map_cols p f cs' in (r, (n, c') :: cs'')
        | Raise e => (Raise e, (n, c) :: cs')
        end
      else let (r, cs'') := map_cols p f cs' in (r, (n, c) :: cs'')
  end.

(** One pass of [map_cols] over a column that does not raise. *)
Definition stepped (p : column -> bool) (f : column -> result column)
    (a b : string * column) : Prop :=
  fst a = fst b /\ if p (snd a) then f (snd a) = Ok (snd b) else snd b = snd a.


(** ** The stages *)

(** A cell after outlier suppression with bounds [lower] and [upper] and
    replacement [r]. *)
Definition suppressed (lower upper r : R) (v : float) : float :=
  match v with
  | Some x => if Rltb x lower || Rltb upper x then Some r else Some x
  | None => None
  end.

(** The table has a numeric column and a row. *)
Definition scalable (df : DataFrame) : bool :=
  existsb (fun nc => is_number (snd nc)) (columns df) && negb (nrows df =? 0).


(** The order of categories: strings in their order, NaN after them. *)
Definition category_le (a b : option string) : Prop :=
  match a, b with
  | Some s, Some s' => String.leb s s' = true
  | _, None => True
  | None, Some _ => False
  end.

(** The labels of the indicator columns of one object column. *)
Definition indicator_labels (nc : string * column) : list string :=
  match snd nc with
  | ObjCol vs => map (feature_name (fst nc)) (tl (categories vs))
  | NumCol _ _ => []
  end.

(** An indicator cell is 0 or 1, or missing once the column has been
    reindexed. *)
Definition indicator_cell (v : float) : Prop :=
  v = None \/ v = Some 0%R \/ v = Some 1%R.

Definition indicator_column (t : numeric_dtype) (c : column) : Prop :=
  exists vs, c = NumCol t vs /\ Forall indicator_cell vs.

(** What [concat] does to a column: nothing, or a reindexing. *)
Definition aligns (g : column -> column) : Prop :=
  (forall c, g c = c) \/ exists old new, forall c, g c = reindex_col old new c.

(** [b] is the indicator column [a] once the closing loop has tagged it. *)
Definition retagged (a b : string * column) : Prop :=
  fst a = fst b /\
  indicator_column float64 (snd a) /\ indicator_column Int64 (snd b).

(** The stages up to the encoder. *)
Definition stages_to_encoder : Py returned :=
  handle_missing_values ;;;
  remove_duplicates ;;;
  handle_outliers ;;;
  scale_numerical_features ;;;
  encode_categorical_variables.

(** ** The specification's wording, where the code differs *)

(** The mode as the specification words it: among the values of highest
    count, the one that occurs first in the column. *)
Definition mode_by_first_occurrence (vs : list (option string)) : option string :=
  let xs := dropna vs in
  let top := list_max (map (fun s => count s xs) xs) in
  hd_error (filter (fun s => count s xs =? top) xs).

(** The distinct values of a column as the specification enumerates them:
    in the order of their first occurrence. *)
Fixpoint distinct_in_order (seen vs : list (option string)) : list (option string) :=
  match vs with
  | [] => []
  | v :: vs' =>
      if existsb (category_eqb v) seen then distinct_in_order seen vs'
      else v :: distinct_in_order (v :: seen) vs'
  end.

(** ** Tables of the examples *)

Section Examples.

Local Open Scope string_scope.

(** The table of the specification's scenario:
    age = 25, NA, 25, 70 and city = NY, LA, NY, NY; then the same after
    imputation, after the removal of duplicates, after standardization, and
    as the encoder returns it. *)
Definition scenario : DataFrame :=
  mkDataFrame [0; 1; 2; 3]
    [("age", NumCol float64 [Some 25%R; None; Some 25%R; Some 70%R]);
     ("city", ObjCol [Some "NY"; Some "LA"; Some "NY"; Some "NY"])].

Definition scenario_imputed : DataFrame :=
  mkDataFrame [0; 1; 2; 3]
    [("age", NumCol float64 [Some 25%R; Some 40%R; Some 25%R; Some 70%R]);
     ("city", ObjCol [Some "NY"; Some "LA"; Some "NY"; Some "NY"])].

Definition scenario_deduplicated : DataFrame :=
  mkDataFrame [0; 1; 3]
    [("age", NumCol float64 [Some 25%R; Some 40%R; Some 70%R]);
     ("city", ObjCol [Some "NY"; Some "LA"; Some "NY"])].

Definition scenario_scaled : DataFrame :=
  mkDataFrame [0; 1; 3]
    [("age", NumCol float64 (standard_scale [Some 25%R; Some 40%R; Some 70%R]));
     ("city", ObjCol [Some "NY"; Some "LA"; Some "NY"])].

Definition scenario_encoded : DataFrame :=
  mkDataFrame [0; 1; 3; 2]
    [("age",
      NumCol float64
        (reindex [0; 1; 3] [0; 1; 3; 2]
           (standard_scale [Some 25%R; Some 40%R; Some 70%R])));
     ("city_NY", NumCol float64 [Some 1%R; Some 0%R; None; Some 1%R])].

(** The column 1, 2, 2, 3, 1000 of the specification's second scenario. *)
Definition extreme : list float :=
  [Some 1%R; Some 2%R; Some 2%R; Some 3%R; Some 1000%R].






(** A table with no numeric column, and what the encoder returns on it. *)
Definition city_frame : DataFrame :=
  mkDataFrame [0; 1; 2; 3]
    [("city", ObjCol [Some "NY"; Some "LA"; Some "NY"; Some "NY"])].

Definition city_frame_encoded : DataFrame :=
  mkDataFrame [0; 1; 2; 3]
    [("city_NY", NumCol float64 [Some 1%R; Some 0%R; Some 1%R; Some 1%R])].

(** A table whose categorical column has one value only. *)
Definition single_city : DataFrame :=
  mkDataFrame [0; 1; 2]
    [("x", NumCol float64 [Some 0%R; Some 1%R; Some 3%R]);
     ("city", ObjCol [Some "NY"; Some "NY"; Some "NY"])].

Definition single_city_scaled : DataFrame :=
  mkDataFrame [0; 1; 2]
    [("x", NumCol float64 (standard_scale [Some 0%R; Some 1%R; Some 3%R]));
     ("city", ObjCol [Some "NY"; Some "NY"; Some "NY"])].

Definition single_city_encoded : DataFrame :=
  mkDataFrame [0; 1; 2]
    [("x", NumCol float64 (standard_scale [Some 0%R; Some 1%R; Some 3%R]))].

(** A categorical column in which b and a occur once each, b first. *)
Definition tie : list (option string) := [Some "b"; None; Some "a"].

Definition tie_frame : DataFrame := mkDataFrame [0; 1; 2] [("c", ObjCol tie)].

Definition tie_frame_imputed : DataFrame :=
  mkDataFrame [0; 1; 2] [("c", ObjCol [Some "b"; Some "a"; Some "a"])].


End Examples.

(** The number of indicator columns that one column gives: one per category
    but the first. *)
Definition indicator_count (nc : string * column) : nat :=
  match snd nc with
  | ObjCol vs => length (categories vs) - 1
  | NumCol _ _ => 0
  end.

(** The rows that [remove_duplicates] keeps: all of them on an empty frame,
    otherwise those that are not duplicated. *)
Definition kept (df : DataFrame) : list bool :=
  if empty df then repeat true (nrows df)
  else map negb (duplicated [] (rows df)).

(** ** More tables of the examples *)

Section Collision.
Local Open Scope string_scope.

(** A table in which the indicator of category y of column a takes the label
    of a numeric column; the same after standardization, and as the encoder
    returns it. *)
Definition collision : DataFrame :=
  mkDataFrame [0; 1]
    [("a_y", NumCol float64 [Some 1%R; Some 3%R]);
     ("a", ObjCol [Some "x"; Some "y"])].

Definition collision_scaled : DataFrame :=
  mkDataFrame [0; 1]
    [("a_y", NumCol float64 (standard_scale [Some 1%R; Some 3%R]));
     ("a", ObjCol [Some "x"; Some "y"])].

Definition collision_numeric : DataFrame :=
  mkDataFrame [0; 1]
    [("a_y", NumCol float64 (standard_scale [Some 1%R; Some 3%R]))].

Definition collision_encoded : DataFrame :=
  mkDataFrame [0; 1]
    [("a_y", NumCol float64 (standard_scale [Some 1%R; Some 3%R]));
     ("a_y", NumCol float64 [Some 0%R; Some 1%R])].

End Collision.


Section ScenarioResult.
Local Open Scope string_scope.

(** The scenario as [preprocess_data] returns it, and as it leaves the
    caller's frame. *)
Definition scenario_restored : DataFrame :=
  mkDataFrame [0; 1; 3; 2]
    [("age",
      NumCol float64
        (reindex [0; 1; 3] [0; 1; 3; 2]
           (standard_scale [Some 25%R; Some 40%R; Some 70%R])));
     ("city_NY", NumCol Int64 [Some 1%R; Some 0%R; None; Some 1%R])].

Definition scenario_numeric : DataFrame :=
  mkDataFrame [0; 1; 3]
    [("age", NumCol float64 (standard_scale [Some 25%R; Some 40%R; Some 70%R]))].

End ScenarioResult.

Section MoreExamples.
Local Open Scope string_scope.

(** A table whose second numeric column holds no value. *)
Definition hollow : DataFrame :=
  mkDataFrame [0; 1; 2; 3; 4]
    [("x", NumCol float64 extreme);
     ("y", NumCol float64 [None; None; None; None; None])].

End MoreExamples.

(** ** Vocabulary of the service *)

(** What is left in [dataset] of a frame that went into the pipeline: the
    result, or the frame as the pipeline left it when it raised. *)
Definition stored (df : DataFrame) : DataFrame :=
  match preprocess_data df with
  | (Ok out, _) => out
  | (Raise _, df') => df'
  end.

Section ServiceVocabulary.

Variable contents : Type.
Variable read_csv read_excel : contents -> option DataFrame.

(** The frame that a request hands to the pipeline: the one that the loader
    returns on an upload under a supported name. *)
Definition loaded (r : request contents) : option DataFrame :=
  match r with
  | PostUpload filename file =>
      if supported (strip filename) then
        if endswith (strip filename) ".csv" then read_csv file else read_excel file
      else None
  | _ => None
  end.

End ServiceVocabulary.

(** ** The labels of the result, read off the input *)

(** The labels that the indicator columns of one column take: the label of
    the column, an underscore, and each of its values but the least. *)
Definition indicator_names (nc : string * column) : list string :=
  match snd nc with
  | ObjCol vs => map (fun s => feature_name (fst nc) (Some s)) (tl (uniques (dropna vs)))
  | NumCol _ _ => []
  end.

Definition result_labels (df : DataFrame) : list string :=
  map fst (numeric_columns df) ++ flat_map indicator_names (object_columns df).

(** [b] is column [a] after imputation and deduplication, as far as the
    encoder is concerned. *)
Definition cleaned (a b : string * column) : Prop :=
  fst b = fst a /\
  match snd a, snd b with
  | ObjCol vs, ObjCol vs' =>
      filter isNaN vs' = [] /\ forall x, In (Some x) vs' <-> In (Some x) vs
  | NumCol _ _, NumCol _ _ => True
  | _, _ => False
  end.




(** * Proofs *)

(** ** The loops over columns *)

Section Loops.

Variable p : column -> bool.
Variable f : column -> result column.

Lemma filter_label_absent (n : string) (cs : list (string * column)) :
  count_occ string_dec (map fst cs) n = 0 ->
  filter (fun nc => String.eqb (fst nc) n) cs = [] /\
  map (fun nc : string * column => if String.eqb (fst nc) n then (fst nc, snd nc) else nc) cs = cs.
Proof.
  induction cs as [|[m c] cs IH]; simpl; intros H; [now split|].
  destruct (string_dec m n) as [->|Hne]; [discriminate|].
  apply String.eqb_neq in Hne. rewrite Hne.
  destruct (IH H) as [-> IH2]. split; [reflexivity|].
  now rewrite IH2.
Qed.

Lemma setitem_absent (n : string) (c' : column) (cs : list (string * column)) :
  count_occ string_dec (map fst cs) n = 0 ->
  map (fun nc : string * column => if String.eqb (fst nc) n then (fst nc, c') else nc) cs = cs.
Proof.
  induction cs as [|[m c] cs IH]; simpl; intros H; [reflexivity|].
  destruct (string_dec m n) as [->|Hne]; [discriminate|].
  apply String.eqb_neq in Hne. rewrite Hne. now rewrite IH.
Qed.

Lemma count_occ_split (n : string) (c : column) (pre cs : list (string * column)) :
  count_occ string_dec (map fst (pre ++ (n, c) :: cs)) n = 1 ->
  count_occ string_dec (map fst pre) n = 0 /\ count_occ string_dec (map fst cs) n = 0.
Proof.
  rewrite map_app, count_occ_app. simpl.
  destruct (string_dec n n) as [_|Hne]; [lia | now elim Hne].
Qed.

Lemma getitem_unique (i : list nat) (n : string) (c : column) (pre cs : list (string * column)) :
  count_occ string_dec (map fst (pre ++ (n, c) :: cs)) n = 1 ->
  getitem n (mkDataFrame i (pre ++ (n, c) :: cs)) = [c].
Proof.
  intros H. apply count_occ_split in H. destruct H as [Hp Hc].
  unfold getitem. simpl. rewrite filter_app. simpl. rewrite String.eqb_refl.
  destruct (filter_label_absent _ _ Hp) as [-> _].
  destruct (filter_label_absent _ _ Hc) as [-> _]. reflexivity.
Qed.

Lemma setitem_unique (i : list nat) (n : string) (c c' : column) (pre cs : list (string * column)) :
  count_occ string_dec (map fst (pre ++ (n, c) :: cs)) n = 1 ->
  setitem n c' (mkDataFrame i (pre ++ (n, c) :: cs)) = mkDataFrame i (pre ++ (n, c') :: cs).
Proof.
  intros H. apply count_occ_split in H. destruct H as [Hp Hc].
  unfold setitem. simpl. rewrite map_app. simpl. rewrite String.eqb_refl.
  now rewrite (setitem_absent _ _ _ Hp), (setitem_absent _ _ _ Hc).
Qed.

(** A loop over the labels that [p] selects, each of them unique in the
    frame, is the column-by-column pass [map_cols]. *)
Lemma for_each_map_cols (i : list nat) (cs pre : list (string * column)) :
  (forall nc, In nc cs -> p (snd nc) = true ->
              count_occ string_dec (map fst (pre ++ cs)) (fst nc) = 1) ->
  for_each (map fst (filter (fun nc => p (snd nc)) cs)) (update_col f)
    (mkDataFrame i (pre ++ cs)) =
  (fst (map_cols p f cs), mkDataFrame i (pre ++ snd (map_cols p f cs))).
Proof.
  revert pre. induction cs as [|[n c] cs IH]; intros pre H; simpl.
  - reflexivity.
  - destruct (p c) eqn:Hp; simpl.
    + assert (H1 : count_occ string_dec (map fst (pre ++ (n, c) :: cs)) n = 1)
        by (apply (H (n, c)); [now left | exact Hp]).
      unfold bind, update_col. rewrite (getitem_unique _ _ _ _ _ H1).
      destruct (f c) as [c'|e] eqn:Hf.
      * rewrite (setitem_unique _ _ _ c' _ _ H1).
        replace (pre ++ (n, c') :: cs) with ((pre ++ [(n, c')]) ++ cs)
          by (now rewrite <- app_assoc).
        rewrite IH.
        -- destruct (map_cols p f cs) as [r cs'']. simpl.
           now rewrite <- app_assoc.
        -- intros nc Hin Hpn. rewrite <- app_assoc. simpl.
           replace (map fst (pre ++ (n, c') :: cs))
             with (map fst (pre ++ (n, c) :: cs))
             by (now rewrite !map_app).
           apply H; [now right | exact Hpn].
      * reflexivity.
    + replace (pre ++ (n, c) :: cs) with ((pre ++ [(n, c)]) ++ cs)
        by (now rewrite <- app_assoc).
      rewrite IH.
      * destruct (map_cols p f cs) as [r cs'']. simpl. now rewrite <- app_assoc.
      * intros nc Hin Hpn. rewrite <- app_assoc. simpl.
        apply H; [now right | exact Hpn].
Qed.

Lemma for_each_unique_labels (df : DataFrame) :
  unique_labels df ->
  for_each (select_dtypes p df) (update_col f) df =
  (fst (map_cols p f (columns df)), mkDataFrame (index df) (snd (map_cols p f (columns df)))).
Proof.
  intros Hu. destruct df as [i cs]. unfold select_dtypes. simpl.
  apply (for_each_map_cols i cs []).
  intros nc Hin _. simpl. apply NoDup_count_occ' with (decA := string_dec).
  - exact Hu.
  - simpl. now apply in_map.
Qed.

End Loops.

(** ** Sorting *)

Section Sorting.

Variable A : Type.
Variable leb : A -> A -> bool.
Hypothesis leb_total : forall x y, leb x y = true \/ leb y x = true.
Hypothesis leb_trans : forall x y z, leb x y = true -> leb y z = true -> leb x z = true.

Let le (x y : A) : Prop := leb x y = true.

Lemma insert_perm (x : A) (l : list A) : Permutation (insert leb x l) (x :: l).
Proof.
  induction l as [|y l IH]; simpl; [reflexivity|].
  destruct (leb x y); [reflexivity|].
  rewrite IH. apply perm_swap.
Qed.

Lemma sort_perm (l : list A) : Permutation (sort leb l) l.
Proof.
  induction l as [|x l IH]; simpl; [reflexivity|].
  rewrite insert_perm. now constructor.
Qed.

Lemma sort_In (x : A) (l : list A) : In x (sort leb l) <-> In x l.
Proof.
  split; apply Permutation_in; [apply sort_perm | symmetry; apply sort_perm].
Qed.

Lemma sort_length (l : list A) : length (sort leb l) = length l.
Proof. apply Permutation_length, sort_perm. Qed.

Lemma insert_sorted (x : A) (l : list A) :
  StronglySorted le l -> StronglySorted le (insert leb x l).
Proof.
  induction 1 as [|y l Hs IH Hy]; simpl.
  - constructor; [constructor | constructor].
  - destruct (leb x y) eqn:Hxy.
    + constructor; [now constructor|].
      constructor; [exact Hxy|].
      eapply Forall_impl; [|exact Hy]. intros z Hz. exact (leb_trans _ _ _ Hxy Hz).
    + constructor; [exact IH|].
      assert (Hyx : le y x) by (destruct (leb_total x y) as [H|H]; [congruence | exact H]).
      apply Forall_forall. intros z Hz.
      apply (Permutation_in _ (insert_perm x l)) in Hz. destruct Hz as [<-|Hz]; [exact Hyx|].
      rewrite Forall_forall in Hy. now apply Hy.
Qed.

Lemma sort_sorted (l : list A) : StronglySorted le (sort leb l).
Proof.
  induction l as [|x l IH]; simpl; [constructor | now apply insert_sorted].
Qed.

Lemma filter_sorted (q : A -> bool) (l : list A) :
  StronglySorted le l -> StronglySorted le (filter q l).
Proof.
  induction 1 as [|y l Hs IH Hy]; simpl; [constructor|].
  destruct (q y); [|exact IH].
  constructor; [exact IH|].
  apply Forall_forall. intros z Hz. apply filter_In in Hz.
  rewrite Forall_forall in Hy. now apply Hy.
Qed.

(** A sorted list stays as it is. *)
Lemma insert_below (x : A) (l : list A) :
  Forall (le x) l -> insert leb x l = x :: l.
Proof.
  destruct l as [|y l]; simpl; [reflexivity|].
  intros H. inversion H as [|? ? Hxy _]; subst. unfold le in Hxy. now rewrite Hxy.
Qed.

Lemma sort_of_sorted (l : list A) : StronglySorted le l -> sort leb l = l.
Proof.
  induction 1 as [|y l Hs IH Hy]; simpl; [reflexivity|].
  rewrite IH. now apply insert_below.
Qed.

End Sorting.

(** The order of strings: that of Python on [str]. *)

Lemma ascii_compare_refl (a : ascii) : Ascii.compare a a = Eq.
Proof. unfold Ascii.compare. apply N.compare_refl. Qed.

Lemma ascii_compare_lt_trans (a b c : ascii) :
  Ascii.compare a b = Lt -> Ascii.compare b c = Lt -> Ascii.compare a c = Lt.
Proof.
  unfold Ascii.compare. rewrite !N.compare_lt_iff. apply N.lt_trans.
Qed.

Lemma string_compare_refl (s : string) : String.compare s s = Eq.
Proof.
  induction s as [|a s IH]; simpl; [reflexivity|].
  now rewrite ascii_compare_refl.
Qed.

Lemma string_compare_lt_trans (s1 : string) :
  forall s2 s3, String.compare s1 s2 = Lt -> String.compare s2 s3 = Lt ->
                String.compare s1 s3 = Lt.
Proof.
  induction s1 as [|a s1 IH]; intros [|b s2] [|c s3]; simpl; try congruence.
  destruct (Ascii.compare a b) eqn:Hab; try discriminate;
    destruct (Ascii.compare b c) eqn:Hbc; try discriminate; intros H12 H23.
  - apply Ascii.compare_eq_iff in Hab, Hbc. subst.
    rewrite ascii_compare_refl. eapply IH; eassumption.
  - apply Ascii.compare_eq_iff in Hab. subst. now rewrite Hbc.
  - apply Ascii.compare_eq_iff in Hbc. subst. now rewrite Hab.
  - now rewrite (ascii_compare_lt_trans _ _ _ Hab Hbc).
Qed.

Lemma string_leb_iff (s1 s2 : string) :
  String.leb s1 s2 = true <-> s1 = s2 \/ String.compare s1 s2 = Lt.
Proof.
  unfold String.leb. destruct (String.compare s1 s2) eqn:H; split; intros H'.
  - left. now apply String.compare_eq_iff.
  - reflexivity.
  - now right.
  - reflexivity.
  - discriminate.
  - destruct H' as [->|H']; [|discriminate].
    now rewrite string_compare_refl in H.
Qed.

Lemma string_leb_refl (s : string) : String.leb s s = true.
Proof. apply string_leb_iff. now left. Qed.

Lemma string_leb_trans (s1 s2 s3 : string) :
  String.leb s1 s2 = true -> String.leb s2 s3 = true -> String.leb s1 s3 = true.
Proof.
  rewrite !string_leb_iff. intros [->|H12] [->|H23]; auto.
  right. eapply string_compare_lt_trans; eassumption.
Qed.

(** The order of the reals, as booleans. *)

Lemma Rleb_le (x y : R) : Rleb x y = true <-> (x <= y)%R.
Proof. unfold Rleb. destruct (Rle_dec x y); split; intros; auto; discriminate. Qed.

Lemma Rltb_lt (x y : R) : Rltb x y = true <-> (x < y)%R.
Proof. unfold Rltb. destruct (Rlt_dec x y); split; intros; auto; discriminate. Qed.

Lemma Rltb_ge (x y : R) : Rltb x y = false <-> (y <= x)%R.
Proof.
  unfold Rltb. destruct (Rlt_dec x y); split; intros; auto; try discriminate; lra.
Qed.

Lemma Reqb_eq (x y : R) : Reqb x y = true <-> x = y.
Proof. unfold Reqb. destruct (Req_dec_T x y); split; intros; auto; discriminate. Qed.

Lemma Reqb_neq (x y : R) : Reqb x y = false <-> x <> y.
Proof.
  unfold Reqb. destruct (Req_dec_T x y); split; intros; auto; try discriminate.
  contradiction.
Qed.



(** ** Rounding and integrality *)


Lemma round_half_even_IZR (z : Z) : round_half_even (IZR z) = z.
Proof.
  unfold round_half_even. rewrite ZfloorZ.
  destruct (Rlt_dec (IZR z - IZR z) (1 / 2)) as [_|H]; [reflexivity | lra].
Qed.

Lemma is_integer_IZR (z : Z) : is_integer (IZR z) = true.
Proof. unfold is_integer. rewrite ZfloorZ. now apply Reqb_eq. Qed.


(** ** Series *)

Lemma dropna_nil_iff {A : Type} (vs : list (option A)) :
  dropna vs = [] <-> forallb isNaN vs = true.
Proof.
  induction vs as [|[x|] vs IH]; simpl; split; intros H;
    try reflexivity; try discriminate; now apply IH.
Qed.


Lemma fillna_NaN {A : Type} (vs : list (option A)) : fillna None vs = vs.
Proof.
  unfold fillna. induction vs as [|[x|] vs IH]; simpl; [reflexivity| |]; now rewrite IH.
Qed.

Lemma fillna_no_missing {A : Type} (x : A) (vs : list (option A)) :
  filter isNaN (fillna (Some x) vs) = [].
Proof.
  unfold fillna. induction vs as [|[y|] vs IH]; simpl; auto.
Qed.

Lemma fillna_length {A : Type} (fill : option A) (vs : list (option A)) :
  length (fillna fill vs) = length vs.
Proof. unfold fillna. apply length_map. Qed.

Lemma mean_some (vs : list float) :
  dropna vs <> [] -> mean vs = Some (Rsum (dropna vs) / INR (length (dropna vs)))%R.
Proof. unfold mean. destruct (dropna vs); [congruence | reflexivity]. Qed.

Lemma mean_none (vs : list float) : dropna vs = [] -> mean vs = None.
Proof. unfold mean. now intros ->. Qed.


(** ** The modes of an object column *)

Lemma list_max_attained (l : list nat) : l <> [] -> In (list_max l) l.
Proof.
  induction l as [|a l IH]; [congruence|]. intros _.
  destruct l as [|b l].
  - left. simpl. lia.
  - change (list_max (a :: b :: l)) with (Nat.max a (list_max (b :: l))).
    destruct (Nat.max_spec a (list_max (b :: l))) as [[_ ->]|[_ ->]].
    + right. apply IH. discriminate.
    + now left.
Qed.

Lemma uniques_In (s : string) (xs : list string) : In s (uniques xs) <-> In s xs.
Proof. unfold uniques. rewrite sort_In. apply nodup_In. Qed.

Lemma uniques_sorted (xs : list string) :
  StronglySorted (fun a b => String.leb a b = true) (uniques xs).
Proof. apply sort_sorted; [apply String.leb_total | apply string_leb_trans]. Qed.

Lemma uniques_NoDup (xs : list string) : NoDup (uniques xs).
Proof.
  unfold uniques. eapply Permutation_NoDup; [symmetry; apply sort_perm|].
  apply NoDup_nodup.
Qed.

Lemma count_le_top (s : string) (xs : list string) :
  count s xs <= list_max (map (fun s' => count s' xs) xs).
Proof.
  destruct (in_dec string_dec s xs) as [Hin|Hnin].
  - pose proof (proj1 (list_max_le (map (fun s' => count s' xs) xs) _) (le_n _)) as H.
    rewrite Forall_forall in H. apply H.
    apply in_map_iff. now exists s.
  - unfold count. rewrite (proj1 (count_occ_not_In string_dec xs s) Hnin). lia.
Qed.

Lemma mode_In (m : string) (vs : list (option string)) :
  In m (mode vs) <->
  In m (dropna vs) /\ forall s, count s (dropna vs) <= count m (dropna vs).
Proof.
  unfold mode. rewrite filter_In, uniques_In, Nat.eqb_eq. split.
  - intros [Hin Htop]. split; [exact Hin|]. intros s. rewrite Htop. apply count_le_top.
  - intros [Hin Hmax]. split; [exact Hin|].
    apply Nat.le_antisymm; [apply count_le_top|].
    assert (Hne : map (fun s' => count s' (dropna vs)) (dropna vs) <> [])
      by (destruct (dropna vs); [contradiction | discriminate]).
    apply list_max_attained in Hne. apply in_map_iff in Hne.
    destruct Hne as [s [<- _]]. apply Hmax.
Qed.

Lemma mode_nonempty (vs : list (option string)) : dropna vs <> [] -> mode vs <> [].
Proof.
  intros Hne.
  assert (Hm : map (fun s' => count s' (dropna vs)) (dropna vs) <> [])
    by (destruct (dropna vs); [congruence | discriminate]).
  apply list_max_attained in Hm. apply in_map_iff in Hm. destruct Hm as [s [Hs Hin]].
  assert (In s (mode vs)).
  { apply mode_In. split; [exact Hin|]. intros s'. rewrite Hs. apply count_le_top. }
  destruct (mode vs); [contradiction | discriminate].
Qed.

Lemma mode_empty (vs : list (option string)) : dropna vs = [] -> mode vs = [].
Proof. unfold mode. intros ->. reflexivity. Qed.

(** [mode()[0]] is a value of highest count, and the least of them in the
    order of strings. *)
Lemma first_mode_spec (vs : list (option string)) (m : string) :
  first_mode vs = Ok m ->
  In m (dropna vs) /\
  (forall s, count s (dropna vs) <= count m (dropna vs)) /\
  (forall s, count s (dropna vs) = count m (dropna vs) -> String.leb m s = true).
Proof.
  unfold first_mode. destruct (mode vs) as [|m' ms] eqn:E; [discriminate|].
  intros H. injection H as ->.
  assert (Hm : In m (mode vs)) by (rewrite E; now left).
  apply mode_In in Hm. destruct Hm as [Hin Hmax].
  split; [exact Hin|]. split; [exact Hmax|].
  intros s Hs.
  assert (Hs' : In s (mode vs)).
  { apply mode_In. split.
    - apply (count_occ_In string_dec). unfold count in Hs. rewrite Hs.
      now apply (count_occ_In string_dec).
    - intros s'. rewrite Hs. apply Hmax. }
  assert (Hsorted : StronglySorted (fun a b => String.leb a b = true) (mode vs)).
  { unfold mode. apply filter_sorted, uniques_sorted. }
  rewrite E in Hs', Hsorted. destruct Hs' as [<-|Hs']; [apply string_leb_refl|].
  apply StronglySorted_inv in Hsorted. destruct Hsorted as [_ Hall].
  rewrite Forall_forall in Hall. now apply Hall.
Qed.

Lemma first_mode_raises (vs : list (option string)) :
  dropna vs = [] -> first_mode vs = Raise KeyError.
Proof. intros H. unfold first_mode. now rewrite (mode_empty _ H). Qed.

Lemma first_mode_ok (vs : list (option string)) :
  dropna vs <> [] -> exists m, first_mode vs = Ok m.
Proof.
  intros H. apply mode_nonempty in H. unfold first_mode.
  destruct (mode vs) as [|m ms]; [congruence | now exists m].
Qed.

Lemma fillna_filled {A : Type} (x : A) (vs : list (option A)) :
  fillna (Some x) vs = filled x vs.
Proof. apply map_ext. now intros [y|]. Qed.

(** ** Column-by-column passes *)

Section MapCols.

Variable p : column -> bool.
Variable f : column -> result column.

Lemma map_cols_labels (cs : list (string * column)) :
  map fst (snd (map_cols p f cs)) = map fst cs.
Proof.
  induction cs as [|[n c] cs IH]; simpl; [reflexivity|].
  destruct (p c); [destruct (f c)|]; try reflexivity;
    destruct (map_cols p f cs); simpl in *; now rewrite IH.
Qed.

Lemma map_cols_length (cs : list (string * column)) :
  length (snd (map_cols p f cs)) = length cs.
Proof. rewrite <- (length_map fst), map_cols_labels. apply length_map. Qed.

Lemma map_cols_ok (cs : list (string * column)) :
  fst (map_cols p f cs) = Ok tt -> Forall2 (stepped p f) cs (snd (map_cols p f cs)).
Proof.
  induction cs as [|[n c] cs IH]; simpl; [constructor|].
  destruct (p c) eqn:Hp.
  - destruct (f c) as [c'|e] eqn:Hf; [|discriminate].
    destruct (map_cols p f cs) as [r cs']. simpl in *. intros ->.
    constructor; [|now apply IH]. split; [reflexivity|]. simpl. now rewrite Hp.
  - destruct (map_cols p f cs) as [r cs']. simpl in *. intros ->.
    constructor; [|now apply IH]. split; [reflexivity|]. simpl. now rewrite Hp.
Qed.

Lemma map_cols_total (cs : list (string * column)) :
  (forall nc, In nc cs -> p (snd nc) = true -> exists c', f (snd nc) = Ok c') ->
  fst (map_cols p f cs) = Ok tt.
Proof.
  induction cs as [|[n c] cs IH]; simpl; intros H; [reflexivity|].
  assert (IH' : fst (map_cols p f cs) = Ok tt) by (apply IH; intros; apply H; auto).
  destruct (p c) eqn:Hp.
  - destruct (H (n, c) (or_introl eq_refl) Hp) as [c' Hc']. simpl in Hc'. rewrite Hc'.
    now destruct (map_cols p f cs).
  - now destruct (map_cols p f cs).
Qed.

(** When the pass raises, the columns before the one that raised have been
    processed and the others are as they were. *)
Lemma map_cols_raise (cs : list (string * column)) (e : exn) :
  fst (map_cols p f cs) = Raise e ->
  exists pre pre' n c post,
    cs = pre ++ (n, c) :: post /\ p c = true /\ f c = Raise e /\
    Forall2 (stepped p f) pre pre' /\
    snd (map_cols p f cs) = pre' ++ (n, c) :: post.
Proof.
  induction cs as [|[n c] cs IH]; simpl; [discriminate|].
  destruct (p c) eqn:Hp.
  - destruct (f c) as [c'|e'] eqn:Hf.
    + destruct (map_cols p f cs) as [r cs']. simpl in *. intros Hr.
      destruct (IH Hr) as (pre & pre' & n0 & c0 & post & -> & Hp0 & Hf0 & Hpre & ->).
      exists ((n, c) :: pre), ((n, c') :: pre'), n0, c0, post.
      repeat split; auto.
      constructor; [|exact Hpre]. split; [reflexivity|]. simpl. now rewrite Hp.
    + simpl. intros H. injection H as ->.
      exists [], [], n, c, cs. repeat split; auto.
  - destruct (map_cols p f cs) as [r cs']. simpl in *. intros Hr.
    destruct (IH Hr) as (pre & pre' & n0 & c0 & post & -> & Hp0 & Hf0 & Hpre & ->).
    exists ((n, c) :: pre), ((n, c) :: pre'), n0, c0, post.
    repeat split; auto.
    constructor; [|exact Hpre]. split; [reflexivity|]. simpl. now rewrite Hp.
Qed.

Lemma Forall2_stepped_nth (cs cs' : list (string * column)) (k : nat) (n : string) (c : column) :
  Forall2 (stepped p f) cs cs' -> nth_error cs k = Some (n, c) ->
  exists c', nth_error cs' k = Some (n, c') /\
             if p c then f c = Ok c' else c' = c.
Proof.
  intros H. revert k. induction H as [|a b cs cs' [Hn Hs] _ IH]; intros k Hk.
  - now destruct k.
  - destruct k as [|k]; simpl in *.
    + injection Hk as ->. destruct b as [n' c']. simpl in *. subst n'.
      exists c'. now split.
    + now apply IH.
Qed.

End MapCols.

Lemma labels_select_all (df : DataFrame) : labels df = select_dtypes (fun _ => true) df.
Proof.
  unfold labels, select_dtypes. f_equal.
  induction (columns df) as [|a l IH]; simpl; [reflexivity | now rewrite <- IH].
Qed.

(** ** [handle_missing_values] *)

Lemma handle_missing_values_pass (df : DataFrame) :
  unique_labels df ->
  handle_missing_values df =
  (fst (map_cols (fun _ => true) impute_column (columns df)),
   mkDataFrame (index df) (snd (map_cols (fun _ => true) impute_column (columns df)))).
Proof.
  intros Hu. unfold handle_missing_values. rewrite labels_select_all.
  now apply for_each_unique_labels.
Qed.

Lemma has_value_dropna_obj (vs : list (option string)) :
  has_value (ObjCol vs) = true <-> dropna vs <> [].
Proof.
  simpl. rewrite negb_true_iff, <- not_true_iff_false, <- dropna_nil_iff. reflexivity.
Qed.

Lemma has_value_dropna_num (t : numeric_dtype) (vs : list float) :
  has_value (NumCol t vs) = true <-> dropna vs <> [].
Proof.
  simpl. rewrite negb_true_iff, <- not_true_iff_false, <- dropna_nil_iff. reflexivity.
Qed.

Lemma impute_column_ok (c : column) :
  has_value c = true ->
  exists c', impute_column c = Ok c' /\ missing_cells c' = 0.
Proof.
  destruct c as [vs|t vs]; intros H.
  - apply has_value_dropna_obj, first_mode_ok in H. destruct H as [m Hm].
    exists (ObjCol (fillna (Some m) vs)). simpl. rewrite Hm. split; [reflexivity|].
    now rewrite fillna_no_missing.
  - apply has_value_dropna_num in H. simpl. rewrite (mean_some _ H). simpl.
    eexists. split; [reflexivity|]. simpl. now rewrite fillna_no_missing.
Qed.

Lemma impute_column_raises (c : column) (e : exn) :
  impute_column c = Raise e -> e = KeyError /\ empty_object c = true.
Proof.
  unfold empty_object. destruct c as [vs|t vs]; simpl; [|discriminate].
  destruct (forallb isNaN vs) eqn:E.
  - apply dropna_nil_iff in E. rewrite (first_mode_raises _ E).
    intros H. injection H as <-. now split.
  - assert (H : dropna vs <> []) by (rewrite dropna_nil_iff; congruence).
    apply first_mode_ok in H. destruct H as [m ->]. discriminate.
Qed.

Lemma impute_column_empty_object (c : column) :
  empty_object c = true -> impute_column c = Raise KeyError.
Proof.
  unfold empty_object. destruct c as [vs|t vs]; simpl; [|discriminate].
  rewrite negb_involutive. intros H. apply dropna_nil_iff in H.
  now rewrite (first_mode_raises _ H).
Qed.

(** The imputer returns when every object column has a value. *)
Lemma imputer_succeeds (df : DataFrame) :
  unique_labels df ->
  existsb (fun nc => empty_object (snd nc)) (columns df) = false ->
  exists df', handle_missing_values df = (Ok tt, df').
Proof.
  intros Hu He. rewrite (handle_missing_values_pass _ Hu).
  rewrite (map_cols_total (fun _ => true) impute_column).
  - eexists. reflexivity.
  - intros [n c] Hin _. simpl.
    destruct (impute_column c) as [c'|e] eqn:Hc; [now exists c'|].
    apply impute_column_raises in Hc. destruct Hc as [_ Hc].
    assert (existsb (fun nc => empty_object (snd nc)) (columns df) = true)
      by (apply existsb_exists; now exists (n, c)).
    congruence.
Qed.

Lemma map_cols_nth (p : column -> bool) (f : column -> result column)
    (cs : list (string * column)) (k : nat) (n : string) (c : column) :
  nth_error cs k = Some (n, c) ->
  nth_error (snd (map_cols p f cs)) k = Some (n, c) \/
  exists c', p c = true /\ f c = Ok c' /\
             nth_error (snd (map_cols p f cs)) k = Some (n, c').
Proof.
  revert k. induction cs as [|[n0 c0] cs IH]; intros k Hk; [now destruct k|].
  simpl. destruct k as [|k]; simpl in Hk.
  - injection Hk as -> ->. destruct (p c) eqn:Hp.
    + destruct (f c) as [c'|e] eqn:Hf.
      * right. exists c'. destruct (map_cols p f cs). now repeat split.
      * now left.
    + left. now destruct (map_cols p f cs).
  - destruct (p c0); [destruct (f c0)|];
      try (destruct (map_cols p f cs); simpl in *; now apply IH).
    now left.
Qed.

Lemma imputer_outcome (df : DataFrame) :
  unique_labels df ->
  fst (handle_missing_values df) =
  if existsb (fun nc => empty_object (snd nc)) (columns df)
  then Raise KeyError else Ok tt.
Proof.
  intros Hu. destruct (existsb _ (columns df)) eqn:E.
  - rewrite (handle_missing_values_pass _ Hu). simpl.
    destruct (fst (map_cols (fun _ => true) impute_column (columns df))) as [[]|e] eqn:Hr.
    + exfalso. apply existsb_exists in E. destruct E as [[n c] [Hin Hc]].
      apply In_nth_error in Hin. destruct Hin as [k Hk].
      destruct (Forall2_stepped_nth _ _ _ _ k n c (map_cols_ok _ _ _ Hr) Hk) as [c' [_ Hc']].
      simpl in Hc, Hc'. rewrite (impute_column_empty_object _ Hc) in Hc'. discriminate.
    + apply map_cols_raise in Hr.
      destruct Hr as (pre & pre' & n & c & post & _ & _ & Hf & _).
      apply impute_column_raises in Hf. now destruct Hf as [-> _].
  - destruct (imputer_succeeds _ Hu E) as [df' ->]. reflexivity.
Qed.

Lemma In_dropna {A : Type} (x : A) (vs : list (option A)) :
  In x (dropna vs) <-> In (Some x) vs.
Proof.
  induction vs as [|[y|] vs IH]; simpl; [tauto| |].
  - rewrite IH. split; intros [H|H]; auto; left; congruence.
  - rewrite IH. split; [auto | intros [H|H]; [discriminate | exact H]].
Qed.

(** ** The scenario, stage by stage *)

Lemma scenario_unique_labels : unique_labels scenario.
Proof.
  unfold unique_labels, labels. simpl.
  constructor; [simpl; intros [H|[]]; discriminate|].
  constructor; [simpl; tauto | constructor].
Qed.

Lemma scenario_age_mean :
  mean [Some 25%R; None; Some 25%R; Some 70%R] = Some 40%R.
Proof.
  unfold mean. cbn [dropna]. f_equal. cbn [Rsum fold_right length]. 
  replace (INR 3) with 3%R by (simpl; lra). lra.
Qed.

Lemma scenario_imputation : handle_missing_values scenario = (Ok tt, scenario_imputed).
Proof.
  rewrite (handle_missing_values_pass _ scenario_unique_labels).
  unfold scenario, scenario_imputed. cbn [columns index map_cols impute_column].
  rewrite scenario_age_mean. cbn [np_round option_map].
  rewrite round_half_even_IZR. reflexivity.
Qed.


Lemma tie_frame_unique_labels : unique_labels tie_frame.
Proof.
  unfold unique_labels, labels. simpl. constructor; [simpl; tauto | constructor].
Qed.

Lemma tie_frame_imputation : handle_missing_values tie_frame = (Ok tt, tie_frame_imputed).
Proof. reflexivity. Qed.

(** ** Evaluation over the reals *)

Ltac sorted_R :=
  repeat (apply SSorted_cons || apply SSorted_nil);
  repeat constructor; apply Rleb_le; lra.

Ltac decide_R :=
  repeat match goal with
  | |- context [Rltb ?a ?b] =>
      first [ rewrite (proj2 (Rltb_lt a b)) by (simpl INR; lra)
            | rewrite (proj2 (Rltb_ge a b)) by (simpl INR; lra) ]
  | |- context [Reqb ?a ?b] =>
      first [ rewrite (proj2 (Reqb_eq a b)) by (simpl INR; lra)
            | rewrite (proj2 (Reqb_neq a b)) by (simpl INR; lra) ]
  end.

Ltac eval_quantile z :=
  unfold quantile; cbn [dropna];
  rewrite (sort_of_sorted _ Rleb) by sorted_R;
  cbn [length Nat.sub];
  match goal with
  | |- context [Zfloor ?x] => rewrite (Zfloor_eq z x) by (simpl INR; lra)
  end;
  simpl (Z.to_nat _); simpl (Nat.min _ _); simpl (nth _ _ _);
  f_equal; simpl INR; lra.

Ltac eval_median :=
  unfold median; cbn [dropna];
  rewrite (sort_of_sorted _ Rleb) by sorted_R;
  first [ reflexivity | cbv [length Nat.even Nat.div Nat.divmod Nat.sub fst nth]; f_equal; lra ].

(** ** [handle_outliers] *)

Lemma sorted_values_nonempty (s : list float) :
  dropna s <> [] -> sort Rleb (dropna s) <> [].
Proof.
  intros H E. apply H. apply length_zero_iff_nil.
  rewrite <- (sort_length _ Rleb), E. reflexivity.
Qed.

Lemma quantile_some (q : R) (s : list float) :
  dropna s <> [] -> exists v, quantile q s = Some v.
Proof.
  intros H. apply sorted_values_nonempty in H. unfold quantile.
  destruct (sort Rleb (dropna s)); [congruence | eexists; reflexivity].
Qed.

Lemma median_some (s : list float) : dropna s <> [] -> exists v, median s = Some v.
Proof.
  intros H. apply sorted_values_nonempty in H. unfold median.
  destruct (sort Rleb (dropna s)) as [|x0 xs]; [congruence|].
  destruct (Nat.even (length (x0 :: xs))); eexists; reflexivity.
Qed.

Lemma median_none_iff (s : list float) : median s = None <-> dropna s = [].
Proof.
  split.
  - intros H. destruct (dropna s) as [|x xs] eqn:E; [reflexivity|].
    assert (Hne : dropna s <> []) by (rewrite E; discriminate).
    destruct (median_some _ Hne) as [v Hv]. congruence.
  - intros H. unfold median. now rewrite H.
Qed.

Lemma np_where_map (g : float -> bool) (r : R) (s : list float) :
  np_where (map g s) r s = map (fun x => if g x then Some r else x) s.
Proof. induction s as [|x s IH]; simpl; [reflexivity | now rewrite IH]. Qed.

(** What the stage does to the values of one numeric column. *)
Lemma outliers_values_ok (s s' : list float) :
  outliers_values s = Ok s' ->
  exists q1 q3 med,
    quantile (1 / 4) s = Some q1 /\ quantile (3 / 4) s = Some q3 /\
    median s = Some med /\
    s' = map (suppressed (q1 - 3 / 2 * (q3 - q1)) (q3 + 3 / 2 * (q3 - q1))
                (IZR (round_half_even med))) s.
Proof.
  unfold outliers_values. destruct (median s) as [med|] eqn:Hmed; [|discriminate].
  assert (Hne : dropna s <> []).
  { intros E. apply median_none_iff in E. congruence. }
  destruct (quantile_some (1 / 4) _ Hne) as [q1 Hq1].
  destruct (quantile_some (3 / 4) _ Hne) as [q3 Hq3].
  rewrite Hq1, Hq3. cbn [py_round fsub fadd fmul lift2]. intros H. injection H as <-.
  exists q1, q3, med. repeat split; auto.
  rewrite np_where_map. apply map_ext. intros [x|]; reflexivity.
Qed.

Lemma outliers_values_total (s : list float) :
  dropna s <> [] -> exists s', outliers_values s = Ok s'.
Proof.
  intros H. destruct (median_some _ H) as [med Hmed]. unfold outliers_values.
  rewrite Hmed. eexists. reflexivity.
Qed.

Lemma outliers_values_raises (s : list float) (e : exn) :
  outliers_values s = Raise e -> dropna s = [] /\ e = ValueError.
Proof.
  unfold outliers_values. destruct (median s) as [med|] eqn:Hmed; simpl; [discriminate|].
  intros H. injection H as <-. split; [now apply median_none_iff | reflexivity].
Qed.

Lemma handle_outliers_pass (df : DataFrame) :
  unique_labels df ->
  handle_outliers df =
  (fst (map_cols is_number outliers_column (columns df)),
   mkDataFrame (index df) (snd (map_cols is_number outliers_column (columns df)))).
Proof. intros Hu. unfold handle_outliers. now apply for_each_unique_labels. Qed.

Lemma handle_outliers_succeeds (df : DataFrame) :
  unique_labels df -> numeric_columns_have_values df = true ->
  exists df', handle_outliers df = (Ok tt, df').
Proof.
  intros Hu Hv. rewrite (handle_outliers_pass _ Hu).
  rewrite (map_cols_total is_number outliers_column).
  - eexists. reflexivity.
  - intros [n c] Hin Hp. unfold numeric_columns_have_values in Hv.
    rewrite forallb_forall in Hv. specialize (Hv _ Hin).
    destruct c as [vs|t vs]; [discriminate Hp|]. simpl in Hv.
    change (has_value (NumCol t vs) = true) in Hv.
    apply has_value_dropna_num in Hv. simpl.
    destruct (outliers_values_total _ Hv) as [s' ->]. eexists. reflexivity.
Qed.




(** ** Sums *)



Lemma Rsum_nonneg (l : list R) : Forall (fun x => 0 <= x)%R l -> (0 <= Rsum l)%R.
Proof.
  induction 1 as [|x l Hx _ IH]; simpl; lra.
Qed.


Lemma squares_nonneg (mu : R) (xs : list R) :
  Forall (fun x => 0 <= x)%R (map (fun x => (x - mu) * (x - mu))%R xs).
Proof.
  apply Forall_forall. intros y Hy. apply in_map_iff in Hy.
  destruct Hy as [x [<- _]]. apply (Rle_0_sqr (x - mu)).
Qed.

(** ** [scale_numerical_features] *)

Lemma pvar_spec (vs : list float) (v : R) :
  pvar vs = Some v ->
  exists mu, mean vs = Some mu /\
             v = (Rsum (map (fun x => (x - mu) * (x - mu)) (dropna vs))
                  / INR (length (dropna vs)))%R /\
             dropna vs <> [] /\ (0 <= v)%R.
Proof.
  unfold pvar. destruct (mean vs) as [mu|] eqn:Hm; [|discriminate].
  intros H. injection H as <-. exists mu.
  assert (Hne : dropna vs <> []).
  { intros E. unfold mean in Hm. rewrite E in Hm. discriminate. }
  repeat split; auto.
  apply Rmult_le_pos; [apply Rsum_nonneg, squares_nonneg|].
  apply Rlt_le, Rinv_0_lt_compat, lt_0_INR.
  destruct (dropna vs); [congruence | simpl; lia].
Qed.

Lemma pvar_some (vs : list float) : dropna vs <> [] -> exists v, pvar vs = Some v.
Proof.
  intros H. unfold pvar. rewrite (mean_some _ H). eexists. reflexivity.
Qed.

Lemma standard_scale_eq (vs : list float) (mu sd : R) :
  mean vs = Some mu -> handle_zeros_in_scale (pstd vs) = Some sd ->
  standard_scale vs = map (option_map (fun x => (x - mu) / sd)%R) vs.
Proof.
  intros Hm Hs. unfold standard_scale. rewrite Hm, Hs.
  apply map_ext. now intros [x|].
Qed.

Lemma standard_scale_all_missing (vs : list float) :
  dropna vs = [] -> standard_scale vs = vs.
Proof.
  intros H. unfold standard_scale. rewrite (mean_none _ H).
  induction vs as [|[x|] vs IH]; simpl in *; [reflexivity | discriminate|].
  f_equal. now apply IH.
Qed.





Lemma scale_outcome (df : DataFrame) :
  scale_numerical_features df =
  if scalable df
  then (Ok tt,
        mkDataFrame (index df)
          (map (fun nc => (fst nc, scale_column (snd nc))) (columns df)))
  else (Raise ValueError, df).
Proof.
  unfold scale_numerical_features, scalable, select_dtypes, nrows.
  destruct (index df) as [|i idx].
  - rewrite andb_false_r. now destruct (map fst _).
  - rewrite andb_true_r.
    induction (columns df) as [|[n c] cs IH] at 1 3; simpl; [reflexivity|].
    destruct c as [vs|t vs]; simpl; [exact IH | reflexivity].
Qed.








(** ** [encode_categorical_variables] *)

Lemma is_unique_NoDup (idx : list nat) : is_unique idx = true <-> NoDup idx.
Proof.
  induction idx as [|l idx IH]; simpl.
  - split; [constructor | reflexivity].
  - rewrite andb_true_iff, negb_true_iff, IH. split.
    + intros [Hn Hu]. constructor; [|exact Hu].
      intros Hin. assert (existsb (Nat.eqb l) idx = true); [|congruence].
      apply existsb_exists. exists l. split; [exact Hin | apply Nat.eqb_refl].
    + intros H. inversion H as [|? ? Hn Hu]; subst. split; [|exact Hu].
      apply not_true_iff_false. intros Hex. apply existsb_exists in Hex.
      destruct Hex as [x [Hin Hx]]. apply Nat.eqb_eq in Hx. now subst.
Qed.

Lemma is_unique_seq (n : nat) : is_unique (seq 0 n) = true.
Proof. apply is_unique_NoDup, seq_NoDup. Qed.

Lemma category_le_trans (a b c : option string) :
  category_le a b -> category_le b c -> category_le a c.
Proof.
  destruct a as [a|], b as [b|], c as [c|]; simpl; try tauto.
  apply string_leb_trans.
Qed.

(** The categories of a column: its distinct values, in ascending order. *)
Lemma categories_In (c : option string) (vs : list (option string)) :
  In c (categories vs) <-> In c vs.
Proof.
  unfold categories. rewrite in_app_iff, in_map_iff. split.
  - intros [[s [<- Hs]]|H].
    + apply (proj1 (uniques_In _ _)) in Hs. exact (proj1 (In_dropna _ _) Hs).
    + destruct (existsb isNaN vs) eqn:E; [|contradiction].
      destruct H as [<-|[]]. apply existsb_exists in E.
      destruct E as [[x|] [Hin Hx]]; [discriminate | exact Hin].
  - intros Hin. destruct c as [s|].
    + left. exists s. split; [reflexivity|].
      apply (proj2 (uniques_In _ _)). exact (proj2 (In_dropna _ _) Hin).
    + right. assert (E : existsb isNaN vs = true).
      { apply existsb_exists. now exists None. }
      rewrite E. now left.
Qed.

Lemma categories_NoDup (vs : list (option string)) : NoDup (categories vs).
Proof.
  unfold categories. apply NoDup_app.
  - apply Finite.Injective_map_NoDup; [intros x y H; congruence | apply uniques_NoDup].
  - destruct (existsb isNaN vs); [constructor; [simpl; tauto | constructor] | constructor].
  - intros c Hc Hn. apply in_map_iff in Hc. destruct Hc as [s [<- _]].
    destruct (existsb isNaN vs); [destruct Hn as [H|[]]; discriminate | contradiction].
Qed.

Lemma categories_sorted (vs : list (option string)) :
  StronglySorted category_le (categories vs).
Proof.
  unfold categories.
  pose proof (uniques_sorted (dropna vs)) as Hs.
  induction Hs as [|s l Hs IH Hall]; simpl.
  - destruct (existsb isNaN vs); repeat constructor.
  - constructor; [exact IH|].
    apply Forall_app. split.
    + rewrite Forall_map. eapply Forall_impl; [|exact Hall]. intros a Ha. exact Ha.
    + destruct (existsb isNaN vs); repeat constructor.
Qed.

Lemma one_hot_labels (nc : string * column) :
  map fst (one_hot nc) = indicator_labels nc.
Proof.
  unfold one_hot, indicator_labels. destruct (snd nc) as [vs|t vs]; [|reflexivity].
  now rewrite map_map.
Qed.

Lemma flat_map_one_hot_labels (cs : list (string * column)) :
  map fst (flat_map one_hot cs) = flat_map indicator_labels cs.
Proof.
  induction cs as [|nc cs IH]; simpl; [reflexivity|].
  now rewrite map_app, one_hot_labels, IH.
Qed.

Lemma indicator_cells (c : option string) (vs : list (option string)) :
  Forall indicator_cell (indicator c vs).
Proof.
  unfold indicator. rewrite Forall_map. apply Forall_forall. intros v _.
  destruct (category_eqb v c); [right; now right | right; now left].
Qed.

Lemma one_hot_indicator (nc : string * column) :
  Forall (fun ic => indicator_column float64 (snd ic)) (one_hot nc).
Proof.
  unfold one_hot. destruct (snd nc) as [vs|t vs]; [|constructor].
  rewrite Forall_map. apply Forall_forall. intros c _. simpl.
  eexists. split; [reflexivity | apply indicator_cells].
Qed.

Lemma flat_map_one_hot_indicator (cs : list (string * column)) :
  Forall (fun ic => indicator_column float64 (snd ic)) (flat_map one_hot cs).
Proof.
  induction cs as [|nc cs IH]; simpl; [constructor|].
  apply Forall_app. split; [apply one_hot_indicator | exact IH].
Qed.

Lemma reindex_indicator (old new : list nat) (vs : list float) :
  Forall indicator_cell vs -> Forall indicator_cell (reindex old new vs).
Proof.
  intros H. unfold reindex. rewrite Forall_map. apply Forall_forall. intros lbl _.
  destruct (get_loc lbl old) as [k|]; [|now left].
  destruct (nth_in_or_default k vs None) as [Hin | Heq]; [|left; exact Heq].
  rewrite Forall_forall in H. now apply H.
Qed.

Lemma reindex_col_indicator (old new : list nat) (c : column) :
  indicator_column float64 c -> indicator_column float64 (reindex_col old new c).
Proof.
  intros [vs [-> H]]. simpl. eexists. split; [reflexivity|].
  now apply reindex_indicator.
Qed.

Lemma reindex_col_kind (old new : list nat) (c : column) :
  is_object (reindex_col old new c) = is_object c.
Proof. now destruct c. Qed.

Lemma aligns_indicator (g : column -> column) (c : column) :
  aligns g -> indicator_column float64 c -> indicator_column float64 (g c).
Proof.
  intros [Hid|(old & new & Hg)] Hc; [now rewrite Hid|].
  rewrite Hg. now apply reindex_col_indicator.
Qed.

Lemma aligns_kind (g : column -> column) (c : column) :
  aligns g -> is_object (g c) = is_object c.
Proof.
  intros [Hid|(old & new & Hg)]; [now rewrite Hid|].
  rewrite Hg. apply reindex_col_kind.
Qed.

Lemma index_eqb_eq (a b : list nat) : index_eqb a b = true <-> a = b.
Proof.
  unfold index_eqb. destruct (list_eq_dec Nat.eq_dec a b); split; intros; auto; discriminate.
Qed.

(** [concat] puts the columns of the two frames side by side, each kept or
    reindexed. *)
Lemma concat_columns (a b d : DataFrame) :
  concat_axis1 a b = Ok d ->
  exists g1 g2,
    aligns g1 /\ aligns g2 /\
    columns d = map (fun nc => (fst nc, g1 (snd nc))) (columns a) ++
                map (fun nc => (fst nc, g2 (snd nc))) (columns b) /\
    index d = (if index_eqb (index a) (index b) then index a
               else union_index (index a) (index b)).
Proof.
  unfold concat_axis1. destruct (index_eqb (index a) (index b)).
  - intros H. injection H as <-. exists (fun c => c), (fun c => c).
    repeat split; try (now left). simpl. f_equal; symmetry.
    + erewrite map_ext; [apply map_id|]. now intros [n c].
    + erewrite map_ext; [apply map_id|]. now intros [n c].
  - destruct (is_unique (index a) && is_unique (index b)); [|discriminate].
    intros H. injection H as <-.
    exists (reindex_col (index a) (union_index (index a) (index b))),
           (reindex_col (index b) (union_index (index a) (index b))).
    repeat split; right; eexists; eexists; reflexivity.
Qed.

Lemma concat_total (a b : DataFrame) :
  is_unique (index a) = true -> is_unique (index b) = true ->
  exists d, concat_axis1 a b = Ok d.
Proof.
  intros Ha Hb. unfold concat_axis1. rewrite Ha, Hb.
  destruct (index_eqb (index a) (index b)); eexists; reflexivity.
Qed.

Lemma select_object_columns (df : DataFrame) :
  select_dtypes is_object df = map fst (object_columns df).
Proof. reflexivity. Qed.

Lemma encode_outcome (df : DataFrame) :
  encode df =
  match object_columns df with
  | [] => Ok df
  | _ :: _ =>
      if nrows df =? 0 then Raise ValueError
      else concat_axis1 (drop_object_columns df)
             (mkDataFrame (seq 0 (nrows df)) (flat_map one_hot (object_columns df)))
  end.
Proof.
  unfold encode, encode_categorical_variables, encoded_frame.
  rewrite select_object_columns. fold (object_columns df). unfold nrows.
  destruct (object_columns df) as [|oc ocs] eqn:E; cbn [map]; [reflexivity|].
  destruct (index df) as [|i idx] eqn:Ei; [reflexivity|].
  cbn [length Nat.eqb]. now destruct (concat_axis1 _ _).
Qed.

Lemma is_number_not_object (c : column) : is_number c = negb (is_object c).
Proof. now destruct c. Qed.

Lemma select_numeric_columns (df : DataFrame) :
  select_dtypes is_number df = map fst (numeric_columns df).
Proof.
  unfold select_dtypes, numeric_columns. f_equal. apply filter_ext.
  intros nc. apply is_number_not_object.
Qed.

Lemma one_hot_not_object (cs : list (string * column)) :
  Forall (fun nc => is_object (snd nc) = false) (flat_map one_hot cs).
Proof.
  eapply Forall_impl; [|apply flat_map_one_hot_indicator].
  intros nc [vs [-> _]]. reflexivity.
Qed.

Lemma no_object_columns (df : DataFrame) :
  object_columns df = [] ->
  numeric_columns df = columns df /\
  forall nc, In nc (columns df) -> is_object (snd nc) = false.
Proof.
  unfold object_columns, numeric_columns.
  induction (columns df) as [|[n c] cs IH]; simpl; [now split|].
  destruct (is_object c) eqn:Ec; simpl; [discriminate|].
  intros H. destruct (IH H) as [-> Hall]. split; [reflexivity|].
  intros nc [<-|Hin]; [exact Ec | now apply Hall].
Qed.

Lemma map_fst_relabel {A : Type} (g : A -> A) (cs : list (string * A)) :
  map fst (map (fun nc => (fst nc, g (snd nc))) cs) = map fst cs.
Proof. rewrite map_map. reflexivity. Qed.

(** The encoder on a table with a row and uniquely valued row labels. *)
Lemma encode_spec (df : DataFrame) :
  nrows df <> 0 -> is_unique (index df) = true ->
  exists out g1 g2,
    encode df = Ok out /\ aligns g1 /\ aligns g2 /\
    columns out =
      map (fun nc => (fst nc, g1 (snd nc))) (numeric_columns df) ++
      map (fun nc => (fst nc, g2 (snd nc))) (flat_map one_hot (object_columns df)) /\
    (index df = seq 0 (nrows df) ->
     columns out = numeric_columns df ++ flat_map one_hot (object_columns df)).
Proof.
  intros Hrows Hu. rewrite encode_outcome.
  destruct (object_columns df) as [|oc ocs] eqn:E.
  - destruct (no_object_columns _ E) as [Hnum _].
    exists df, (fun c => c), (fun c => c). rewrite Hnum. simpl. rewrite app_nil_r.
    repeat split; try (now left); auto.
    + symmetry. erewrite map_ext; [apply map_id|]. now intros [n c].
    + intros _. now rewrite app_nil_r.
  - rewrite (proj2 (Nat.eqb_neq _ _) Hrows).
    destruct (concat_total (drop_object_columns df)
                (mkDataFrame (seq 0 (nrows df)) (flat_map one_hot (oc :: ocs))))
      as [d Hd]; [exact Hu | apply is_unique_seq|].
    destruct (concat_columns _ _ _ Hd) as (g1 & g2 & Hg1 & Hg2 & Hcols & _).
    exists d, g1, g2. repeat split; auto.
    intros Hidx. unfold concat_axis1 in Hd. simpl in Hd.
    rewrite (proj2 (index_eqb_eq _ _) Hidx) in Hd. now injection Hd as <-.
Qed.

(** ** Loops that return *)

Lemma getitem_count (n : string) (df : DataFrame) :
  length (getitem n df) = count_occ string_dec (labels df) n.
Proof.
  unfold getitem, labels. rewrite length_map.
  induction (columns df) as [|[m c] cs IH]; simpl; [reflexivity|].
  destruct (string_dec m n) as [->|Hne].
  - rewrite String.eqb_refl. simpl. now rewrite IH.
  - apply String.eqb_neq in Hne. now rewrite Hne.
Qed.

Lemma setitem_labels (n : string) (c : column) (df : DataFrame) :
  labels (setitem n c df) = labels df.
Proof.
  unfold labels, setitem. simpl. rewrite map_map. apply map_ext.
  intros [m c0]. simpl. now destruct (String.eqb m n).
Qed.

Lemma update_col_ok (f : column -> result column) (n : string) (u : unit)
    (df df' : DataFrame) :
  update_col f n df = (Ok u, df') ->
  count_occ string_dec (labels df) n = 1 /\ labels df' = labels df.
Proof.
  unfold update_col. pose proof (getitem_count n df) as Hc.
  destruct (getitem n df) as [|c [|c2 cs]]; try discriminate.
  destruct (f c) as [c'|e]; [|discriminate].
  intros H. injection H as _ <-. split; [now rewrite <- Hc | apply setitem_labels].
Qed.

Lemma for_each_ok_unique (f : column -> result column) (L : list string) (u : unit)
    (df df' : DataFrame) :
  for_each L (update_col f) df = (Ok u, df') ->
  forall n, In n L -> count_occ string_dec (labels df) n = 1.
Proof.
  revert df. induction L as [|m L IH]; intros df H n Hin; [contradiction|].
  simpl in H. unfold bind in H.
  destruct (update_col f m df) as [[u1|e] df1] eqn:H1; [|discriminate].
  destruct (update_col_ok _ _ _ _ _ H1) as [Hm Hl].
  destruct Hin as [<-|Hin]; [exact Hm|].
  rewrite <- Hl. now apply (IH df1).
Qed.

(** A loop that returns has made the column-by-column pass. *)
Lemma for_each_ok_pass (p : column -> bool) (f : column -> result column) (u : unit)
    (df df' : DataFrame) :
  for_each (select_dtypes p df) (update_col f) df = (Ok u, df') ->
  fst (map_cols p f (columns df)) = Ok tt /\
  df' = mkDataFrame (index df) (snd (map_cols p f (columns df))).
Proof.
  intros H. pose proof (for_each_ok_unique _ _ _ _ _ H) as Hu.
  destruct df as [i cs]. unfold select_dtypes in H, Hu. simpl in *.
  assert (E : for_each (map fst (filter (fun nc => p (snd nc)) cs)) (update_col f)
                (mkDataFrame i cs) =
              (fst (map_cols p f cs), mkDataFrame i (snd (map_cols p f cs)))).
  { apply (for_each_map_cols p f i cs []).
    intros nc Hin Hp. simpl. apply Hu. apply in_map.
    apply filter_In. now split. }
  rewrite E in H. injection H as H1 H2. destruct u. now split.
Qed.

Lemma imputer_ok_unique_labels (df df' : DataFrame) (u : unit) :
  handle_missing_values df = (Ok u, df') -> unique_labels df.
Proof.
  intros H. unfold unique_labels.
  apply (NoDup_count_occ' string_dec). intros n Hin.
  exact (for_each_ok_unique _ _ _ _ _ H n Hin).
Qed.

(** ** Labels and kinds through the stages *)

Lemma map_cols_kinds (p : column -> bool) (f : column -> result column)
    (cs : list (string * column)) :
  (forall c c', f c = Ok c' -> is_object c' = is_object c) ->
  map (fun nc => (fst nc, is_object (snd nc))) (snd (map_cols p f cs)) =
  map (fun nc => (fst nc, is_object (snd nc))) cs.
Proof.
  intros Hf. induction cs as [|[n c] cs IH]; simpl; [reflexivity|].
  destruct (p c).
  - destruct (f c) as [c'|e] eqn:Hc; [|reflexivity].
    destruct (map_cols p f cs) as [r cs']. simpl in *.
    now rewrite IH, (Hf _ _ Hc).
  - destruct (map_cols p f cs) as [r cs']. simpl in *. now rewrite IH.
Qed.

(** A pass over numeric columns that keeps them numeric leaves the object
    columns as they are. *)
Lemma map_cols_object_columns (f : column -> result column)
    (cs : list (string * column)) :
  (forall c c', f c = Ok c' -> is_object c' = is_object c) ->
  filter (fun nc => is_object (snd nc)) (snd (map_cols is_number f cs)) =
  filter (fun nc => is_object (snd nc)) cs.
Proof.
  intros Hf. induction cs as [|[n c] cs IH]; simpl; [reflexivity|].
  destruct (is_number c) eqn:Hn.
  - destruct (f c) as [c'|e] eqn:Hc; [|reflexivity].
    destruct (map_cols is_number f cs) as [r cs']. simpl in *.
    rewrite (Hf _ _ Hc). rewrite is_number_not_object in Hn.
    apply negb_true_iff in Hn. now rewrite Hn.
  - destruct (map_cols is_number f cs) as [r cs']. simpl in *. now rewrite IH.
Qed.

Lemma impute_column_kind (c c' : column) :
  impute_column c = Ok c' -> is_object c' = is_object c.
Proof.
  destruct c as [vs|t vs]; simpl.
  - destruct (first_mode vs); [|discriminate]. now intros H; injection H as <-.
  - now intros H; injection H as <-.
Qed.

Lemma outliers_column_kind (c c' : column) :
  outliers_column c = Ok c' -> is_object c' = is_object c.
Proof.
  destruct c as [vs|t vs]; simpl.
  - now intros H; injection H as <-.
  - destruct (outliers_values vs); [|discriminate]. now intros H; injection H as <-.
Qed.

Lemma restore_column_kind (c c' : column) :
  restore_column c = Ok c' -> is_object c' = is_object c.
Proof.
  destruct c as [vs|[] vs]; simpl; try (now intros H; injection H as <-).
  destruct (forallb is_integer (dropna vs)); now intros H; injection H as <-.
Qed.

Lemma restore_column_total (c : column) : exists c', restore_column c = Ok c'.
Proof.
  destruct c as [vs|[] vs]; simpl; try (eexists; reflexivity).
  destruct (forallb is_integer (dropna vs)); eexists; reflexivity.
Qed.

Lemma kinds_labels (df df' : DataFrame) : kinds df' = kinds df -> labels df' = labels df.
Proof.
  unfold kinds, labels. intros H.
  apply (f_equal (map fst)) in H. now rewrite !map_map in H.
Qed.

Lemma numeric_labels_kinds (df : DataFrame) :
  select_dtypes is_number df = map fst (filter (fun k => negb (snd k)) (kinds df)).
Proof.
  unfold select_dtypes, kinds.
  induction (columns df) as [|[n c] cs IH]; simpl; [reflexivity|].
  rewrite is_number_not_object. destruct (is_object c); simpl; now rewrite IH.
Qed.

Lemma object_labels_kinds (df : DataFrame) :
  select_dtypes is_object df = map fst (filter (fun k => snd k) (kinds df)).
Proof.
  unfold select_dtypes, kinds.
  induction (columns df) as [|[n c] cs IH]; simpl; [reflexivity|].
  destruct (is_object c); simpl; now rewrite IH.
Qed.

Lemma imputer_kinds (df df' : DataFrame) (u : unit) :
  handle_missing_values df = (Ok u, df') -> kinds df' = kinds df /\ index df' = index df.
Proof.
  intros H. unfold handle_missing_values in H. rewrite labels_select_all in H.
  apply for_each_ok_pass in H. destruct H as [_ ->]. split; [|reflexivity].
  apply map_cols_kinds, impute_column_kind.
Qed.

Lemma select_col_kind (mask : list bool) (c : column) :
  is_object (select_col mask c) = is_object c.
Proof. now destruct c. Qed.

Lemma remove_duplicates_kinds (df : DataFrame) :
  fst (remove_duplicates df) = Ok tt /\
  kinds (snd (remove_duplicates df)) = kinds df.
Proof.
  unfold remove_duplicates. destruct (empty df); simpl; [now split|].
  split; [reflexivity|]. unfold kinds. cbn [snd columns]. rewrite map_map. apply map_ext.
  intros [n c]. simpl. now rewrite select_col_kind.
Qed.

Lemma outliers_kinds (df df' : DataFrame) (u : unit) :
  handle_outliers df = (Ok u, df') ->
  kinds df' = kinds df /\ index df' = index df /\ object_columns df' = object_columns df.
Proof.
  intros H. unfold handle_outliers in H.
  apply for_each_ok_pass in H. destruct H as [_ ->]. repeat split.
  - apply map_cols_kinds, outliers_column_kind.
  - apply map_cols_object_columns, outliers_column_kind.
Qed.

Lemma scale_column_kind (c : column) : is_object (scale_column c) = is_object c.
Proof. now destruct c. Qed.

Lemma scale_kinds (df df' : DataFrame) (u : unit) :
  scale_numerical_features df = (Ok u, df') ->
  kinds df' = kinds df /\ index df' = index df /\ object_columns df' = object_columns df.
Proof.
  rewrite scale_outcome. destruct (scalable df); [|discriminate].
  intros H. injection H as _ <-. repeat split.
  - unfold kinds. cbn [columns]. rewrite map_map. apply map_ext.
    intros [n c]. simpl. now rewrite scale_column_kind.
  - unfold object_columns. simpl.
    induction (columns df) as [|[n c] cs IH]; simpl; [reflexivity|].
    destruct c as [vs|t vs]; simpl; now rewrite IH.
Qed.

Lemma restore_pass (df df' : DataFrame) (u : unit) :
  restore_integer_columns df = (Ok u, df') ->
  index df' = index df /\
  Forall2 (stepped is_float restore_column) (columns df) (columns df').
Proof.
  intros H. unfold restore_integer_columns in H.
  apply for_each_ok_pass in H. destruct H as [Hok ->]. split; [reflexivity|].
  now apply map_cols_ok.
Qed.

Lemma restore_succeeds (df : DataFrame) :
  unique_labels df ->
  exists df', restore_integer_columns df = (Ok tt, df') /\ index df' = index df.
Proof.
  intros Hu. unfold restore_integer_columns.
  rewrite (for_each_unique_labels _ _ _ Hu).
  rewrite (map_cols_total is_float restore_column).
  - eexists. split; reflexivity.
  - intros nc _ _. apply restore_column_total.
Qed.

(** ** [preprocess_data], stage by stage *)

Lemma preprocess_data_ok (df out s : DataFrame) :
  preprocess_data df = (Ok out, s) ->
  exists s1 s2 s3 s4,
    handle_missing_values df = (Ok tt, s1) /\
    remove_duplicates s1 = (Ok tt, s2) /\
    handle_outliers s2 = (Ok tt, s3) /\
    scale_numerical_features s3 = (Ok tt, s4) /\
    ((encode_categorical_variables s4 = (Ok Self, s4) /\
      restore_integer_columns s4 = (Ok tt, out)) \/
     (exists d, encode_categorical_variables s4 = (Ok (New d), s) /\
                restore_integer_columns d = (Ok tt, out))).
Proof.
  unfold preprocess_data, bind.
  destruct (handle_missing_values df) as [[[]|e] s1] eqn:H1; [|discriminate].
  destruct (remove_duplicates s1) as [[[]|e] s2] eqn:H2; [|discriminate].
  destruct (handle_outliers s2) as [[[]|e] s3] eqn:H3; [|discriminate].
  destruct (scale_numerical_features s3) as [[[]|e] s4] eqn:H4; [|discriminate].
  destruct (encode_categorical_variables s4) as [[[|d]|e] s5] eqn:He; [| |discriminate].
  - destruct (restore_integer_columns s5) as [[[]|e] s6] eqn:Hr; [|discriminate].
    intros H. injection H as <- <-.
    assert (s5 = s4).
    { unfold encode_categorical_variables in He.
      destruct (select_dtypes is_object s4); [now injection He as <-|].
      destruct (encoded_frame s4); [|discriminate].
      destruct (concat_axis1 _ _); discriminate. }
    subst s5. exists s1, s2, s3, s4.
    split; [reflexivity|]. split; [exact H2|]. split; [exact H3|]. split; [exact H4|].
    left. now split.
  - destruct (restore_integer_columns d) as [[[]|e] d'] eqn:Hr; [|discriminate].
    intros H. injection H as <- <-.
    exists s1, s2, s3, s4.
    split; [reflexivity|]. split; [exact H2|]. split; [exact H3|]. split; [exact H4|].
    right. exists d. now split.
Qed.

Lemma indicator_integral (vs : list float) :
  Forall indicator_cell vs -> forallb is_integer (dropna vs) = true.
Proof.
  induction 1 as [|v vs Hv _ IH]; simpl; [reflexivity|].
  destruct Hv as [->|[->| ->]]; simpl; [exact IH| |]; rewrite IH.
  - now rewrite (is_integer_IZR 0).
  - now rewrite (is_integer_IZR 1).
Qed.

Lemma restore_indicator (c c' : column) :
  indicator_column float64 c -> restore_column c = Ok c' -> indicator_column Int64 c'.
Proof.
  intros [vs [-> Hvs]]. simpl. rewrite (indicator_integral _ Hvs).
  intros H. injection H as <-. now exists vs.
Qed.

Lemma Forall2_stepped_labels (p : column -> bool) (f : column -> result column)
    (cs cs' : list (string * column)) :
  Forall2 (stepped p f) cs cs' -> map fst cs' = map fst cs.
Proof.
  induction 1 as [|a b cs cs' [Hn _] _ IH]; simpl; [reflexivity|].
  now rewrite IH, Hn.
Qed.

Lemma kinds_through_scaling (df s1 s2 s3 s4 : DataFrame) :
  handle_missing_values df = (Ok tt, s1) ->
  remove_duplicates s1 = (Ok tt, s2) ->
  handle_outliers s2 = (Ok tt, s3) ->
  scale_numerical_features s3 = (Ok tt, s4) ->
  kinds s4 = kinds df.
Proof.
  intros H1 H2 H3 H4.
  destruct (imputer_kinds _ _ _ H1) as [K1 _].
  destruct (remove_duplicates_kinds s1) as [_ K2]. rewrite H2 in K2. simpl in K2.
  destruct (outliers_kinds _ _ _ H3) as [K3 _].
  destruct (scale_kinds _ _ _ H4) as [K4 _].
  congruence.
Qed.

Lemma encoder_new_frame (df d s : DataFrame) :
  encode_categorical_variables df = (Ok (New d), s) ->
  exists g1 g2,
    aligns g1 /\ aligns g2 /\
    columns d =
      map (fun nc => (fst nc, g1 (snd nc))) (numeric_columns df) ++
      map (fun nc => (fst nc, g2 (snd nc))) (flat_map one_hot (object_columns df)).
Proof.
  unfold encode_categorical_variables, encoded_frame.
  destruct (select_dtypes is_object df); [discriminate|].
  destruct (index df) as [|i idx]; [discriminate|].
  destruct (concat_axis1 _ _) as [new|e] eqn:Hc; [|discriminate].
  intros H. injection H as <- _.
  destruct (concat_columns _ _ _ Hc) as (g1 & g2 & Hg1 & Hg2 & Hcols & _).
  exists g1, g2. now repeat split.
Qed.

Lemma encoder_self (df s : DataFrame) :
  encode_categorical_variables df = (Ok Self, s) -> select_dtypes is_object df = [].
Proof.
  unfold encode_categorical_variables.
  destruct (select_dtypes is_object df); [reflexivity|].
  destruct (encoded_frame df); [|discriminate].
  destruct (concat_axis1 _ _); discriminate.
Qed.

Lemma all_numeric_labels (df : DataFrame) :
  select_dtypes is_object df = [] -> select_dtypes is_number df = labels df.
Proof.
  unfold select_dtypes, labels.
  induction (columns df) as [|[n c] cs IH]; simpl; [reflexivity|].
  destruct c as [vs|t vs]; simpl; [discriminate|].
  intros H. now rewrite IH.
Qed.

(** ** A numeric column with no value *)

Lemma imputer_keeps_empty_numeric (df : DataFrame) (k : nat) (n : string)
    (t : numeric_dtype) (vs : list float) :
  unique_labels df ->
  nth_error (columns df) k = Some (n, NumCol t vs) ->
  has_value (NumCol t vs) = false ->
  nth_error (columns (snd (handle_missing_values df))) k = Some (n, NumCol t vs).
Proof.
  intros Hu Hk Hv. rewrite (handle_missing_values_pass _ Hu). simpl.
  destruct (map_cols_nth (fun _ => true) impute_column _ k n _ Hk)
    as [H|[c' [_ [Hc' H]]]]; [exact H|].
  rewrite H. simpl in Hc'.
  assert (Hd : dropna vs = []).
  { apply dropna_nil_iff. simpl in Hv. now apply negb_false_iff in Hv. }
  rewrite (mean_none _ Hd) in Hc'. simpl in Hc'. rewrite fillna_NaN in Hc'.
  congruence.
Qed.

Lemma select_all_missing {A : Type} (mask : list bool) (vs : list (option A)) :
  forallb isNaN vs = true -> forallb isNaN (select mask vs) = true.
Proof.
  revert mask. induction vs as [|[x|] vs IH]; intros [|[] mask]; simpl;
    try reflexivity; try discriminate; intros H; now apply IH.
Qed.

Lemma remove_duplicates_keeps_empty_numeric (df : DataFrame) (k : nat) (n : string)
    (t : numeric_dtype) (vs : list float) :
  nth_error (columns df) k = Some (n, NumCol t vs) ->
  has_value (NumCol t vs) = false ->
  exists vs',
    nth_error (columns (snd (remove_duplicates df))) k = Some (n, NumCol t vs') /\
    has_value (NumCol t vs') = false.
Proof.
  intros Hk Hv. unfold remove_duplicates. destruct (empty df); simpl.
  - now exists vs.
  - rewrite nth_error_map, Hk. simpl. eexists. split; [reflexivity|].
    apply negb_false_iff. apply select_all_missing.
    simpl in Hv. now apply negb_false_iff in Hv.
Qed.

Lemma outliers_raise_on_empty_numeric (df : DataFrame) (k : nat) (n : string)
    (t : numeric_dtype) (vs : list float) :
  unique_labels df ->
  nth_error (columns df) k = Some (n, NumCol t vs) ->
  has_value (NumCol t vs) = false ->
  exists s, handle_outliers df = (Raise ValueError, s).
Proof.
  intros Hu Hk Hv. rewrite (handle_outliers_pass _ Hu).
  destruct (fst (map_cols is_number outliers_column (columns df))) as [[]|e] eqn:Hr.
  - exfalso.
    destruct (Forall2_stepped_nth _ _ _ _ k n _ (map_cols_ok _ _ _ Hr) Hk) as [c' [_ Hc']].
    simpl in Hc'. destruct (outliers_values vs) as [s'|e] eqn:Ho; [|discriminate].
    apply outliers_values_ok in Ho. destruct Ho as (q1 & q3 & med & _ & _ & Hmed & _).
    assert (Hd : dropna vs = []).
    { apply dropna_nil_iff. simpl in Hv. now apply negb_false_iff in Hv. }
    apply median_none_iff in Hd. congruence.
  - pose proof (map_cols_raise _ _ _ _ Hr) as (pre & pre' & n0 & c0 & post & _ & Hp & Hf & _).
    destruct c0 as [vs0|t0 vs0]; [discriminate|]. simpl in Hf.
    destruct (outliers_values vs0) as [s'|e'] eqn:Ho; [discriminate|].
    apply outliers_values_raises in Ho. destruct Ho as [_ ->].
    injection Hf as <-. eexists. reflexivity.
Qed.

(** The pipeline does stop on such a column, in the outlier suppressor when
    the imputer has let it through. *)
Lemma pipeline_aborts_on_empty_numeric (df : DataFrame) (k : nat) (n : string)
    (t : numeric_dtype) (vs : list float) :
  unique_labels df ->
  nth_error (columns df) k = Some (n, NumCol t vs) ->
  has_value (NumCol t vs) = false ->
  exists e s, preprocess_data df = (Raise e, s).
Proof.
  intros Hu Hk Hv. unfold preprocess_data, bind.
  pose proof (imputer_keeps_empty_numeric _ _ _ _ _ Hu Hk Hv) as Hk1.
  destruct (handle_missing_values df) as [[[]|e] s1] eqn:H1; [|eexists; eexists; reflexivity].
  simpl in Hk1.
  destruct (remove_duplicates_keeps_empty_numeric _ _ _ _ _ Hk1 Hv) as [vs' [Hk2 Hv2]].
  destruct (remove_duplicates_kinds s1) as [Hok K2].
  destruct (imputer_kinds _ _ _ H1) as [K1 _].
  destruct (remove_duplicates s1) as [r2 s2] eqn:H2. simpl in *. subst r2.
  assert (Hu2 : unique_labels s2).
  { unfold unique_labels. rewrite (kinds_labels _ _ K2), (kinds_labels _ _ K1). exact Hu. }
  destruct (outliers_raise_on_empty_numeric _ _ _ _ _ Hu2 Hk2 Hv2) as [s3 ->].
  eexists. eexists. reflexivity.
Qed.

(** ** Row counts *)

Lemma select_length {A : Type} (mask : list bool) (l : list A) :
  length (select mask l) <= length l.
Proof.
  revert mask. induction l as [|x l IH]; intros [|[] mask]; simpl; try lia.
  - specialize (IH mask). lia.
  - specialize (IH mask). lia.
Qed.

Lemma encode_aligned_index (df out : DataFrame) :
  index df = seq 0 (nrows df) -> encode df = Ok out -> index out = index df.
Proof.
  intros Hidx. rewrite encode_outcome.
  destruct (object_columns df) as [|oc ocs]; [now intros H; injection H as <-|].
  destruct (nrows df =? 0); [discriminate|].
  unfold concat_axis1. simpl.
  rewrite (proj2 (index_eqb_eq _ _) Hidx). now intros H; injection H as <-.
Qed.

(** ** Column counts, and the encoder twice *)

Lemma kinds_length (df df' : DataFrame) :
  kinds df' = kinds df -> length (columns df') = length (columns df).
Proof.
  unfold kinds. intros H. apply (f_equal (@length _)) in H.
  now rewrite !length_map in H.
Qed.

Lemma one_hot_count (nc : string * column) : length (one_hot nc) = indicator_count nc.
Proof.
  unfold one_hot, indicator_count. destruct (snd nc) as [vs|t vs]; [|reflexivity].
  rewrite length_map. destruct (categories vs); simpl; lia.
Qed.

Lemma flat_map_one_hot_count (cs : list (string * column)) :
  length (flat_map one_hot cs) = list_sum (map indicator_count cs).
Proof.
  induction cs as [|nc cs IH]; simpl; [reflexivity|].
  now rewrite length_app, one_hot_count, IH.
Qed.

(** The columns of what the encoder returns. *)
Lemma encode_columns (df out : DataFrame) :
  encode df = Ok out ->
  exists g1 g2,
    aligns g1 /\ aligns g2 /\
    columns out =
      map (fun nc => (fst nc, g1 (snd nc))) (numeric_columns df) ++
      map (fun nc => (fst nc, g2 (snd nc))) (flat_map one_hot (object_columns df)).
Proof.
  rewrite encode_outcome. destruct (object_columns df) as [|oc ocs] eqn:E.
  - intros H. injection H as <-. destruct (no_object_columns _ E) as [Hnum _].
    exists (fun c => c), (fun c => c). rewrite Hnum. simpl. rewrite app_nil_r.
    repeat split; try (now left).
    symmetry. erewrite map_ext; [apply map_id|]. now intros [n c].
  - destruct (nrows df =? 0); [discriminate|]. intros H.
    destruct (concat_columns _ _ _ H) as (g1 & g2 & Hg1 & Hg2 & Hcols & _).
    exists g1, g2. now repeat split.
Qed.

Lemma filter_aligned_non_objects (g : column -> column) (l : list (string * column)) :
  aligns g -> Forall (fun nc => is_object (snd nc) = false) l ->
  filter (fun nc => is_object (snd nc)) (map (fun nc => (fst nc, g (snd nc))) l) = [].
Proof.
  intros Hg. induction 1 as [|a l Ha _ IH]; simpl; [reflexivity|].
  now rewrite (aligns_kind _ _ Hg), Ha.
Qed.

Lemma encode_no_object_column (df out : DataFrame) :
  encode df = Ok out -> object_columns out = [].
Proof.
  intros H. destruct (encode_columns _ _ H) as (g1 & g2 & Hg1 & Hg2 & Hcols).
  unfold object_columns. rewrite Hcols, filter_app.
  rewrite (filter_aligned_non_objects _ _ Hg1), (filter_aligned_non_objects _ _ Hg2).
  - reflexivity.
  - apply one_hot_not_object.
  - unfold numeric_columns. apply Forall_forall. intros nc Hin.
    apply filter_In in Hin. destruct Hin as [_ Hin]. now apply negb_true_iff.
Qed.

(** ** [remove_duplicates], row by row *)

Lemma select_map {A B : Type} (f : A -> B) (mask : list bool) (l : list A) :
  select mask (map f l) = map f (select mask l).
Proof.
  revert l. induction mask as [|[] mask IH]; intros [|x l]; simpl;
    try reflexivity; now rewrite IH.
Qed.

Lemma select_nth {A : Type} (d : A) (mask : list bool) (l : list A) :
  length l = length mask ->
  select mask l = map (fun j => nth j l d) (select mask (seq 0 (length mask))).
Proof.
  revert l. induction mask as [|b mask IH]; intros [|x l] Hlen; simpl in Hlen;
    try discriminate; [reflexivity|].
  injection Hlen as Hlen.
  change (seq 0 (length (b :: mask))) with (0 :: seq 1 (length mask)).
  rewrite <- seq_shift.
  destruct b; cbn [select]; rewrite select_map; cbn [map]; rewrite map_map;
    cbn [nth]; now rewrite <- (IH l Hlen).
Qed.

Lemma select_length_mask {A B : Type} (mask : list bool) (l : list A) (l' : list B) :
  length l = length l' -> length (select mask l) = length (select mask l').
Proof.
  revert l l'. induction mask as [|[] mask IH]; intros [|x l] [|y l'] H; simpl in *;
    try discriminate; try reflexivity; injection H as H; now rewrite (IH l l' H).
Qed.

Lemma select_all_true {A : Type} (n : nat) (l : list A) :
  length l = n -> select (repeat true n) l = l.
Proof.
  revert l. induction n as [|n IH]; intros [|x l] H; simpl in *;
    try discriminate; [reflexivity|].
  injection H as H. now rewrite IH.
Qed.

Lemma map_nth_seq {A : Type} (d : A) (l : list A) :
  map (fun i => nth i l d) (seq 0 (length l)) = l.
Proof.
  induction l as [|x l IH]; simpl; [reflexivity|].
  rewrite <- seq_shift, map_map. simpl. now rewrite IH.
Qed.

Lemma duplicated_length (seen rs : list (list cell)) :
  length (duplicated seen rs) = length rs.
Proof.
  revert seen. induction rs as [|r rs IH]; intros seen; simpl; [reflexivity|].
  now rewrite IH.
Qed.

Lemma rows_length (df : DataFrame) : length (rows df) = nrows df.
Proof. unfold rows. now rewrite length_map, length_seq. Qed.

Lemma kept_length (df : DataFrame) : length (kept df) = nrows df.
Proof.
  unfold kept. destruct (empty df).
  - apply repeat_length.
  - now rewrite length_map, duplicated_length, rows_length.
Qed.

Lemma remove_duplicates_kept (df : DataFrame) :
  rectangular df ->
  remove_duplicates df =
  (Ok tt,
   mkDataFrame (select (kept df) (index df))
     (map (fun nc => (fst nc, select_col (kept df) (snd nc))) (columns df))).
Proof.
  intros Hrect. unfold remove_duplicates, kept. destruct (empty df) eqn:E; [|reflexivity].
  destruct df as [idx cs]. unfold rectangular, nrows in *. cbn [index columns] in *.
  f_equal. rewrite select_all_true by reflexivity. f_equal.
  symmetry. erewrite map_ext_in; [apply map_id|].
  intros [n c] Hin. cbn [fst snd]. f_equal.
  pose proof (Hrect _ Hin) as Hc. cbn [snd] in Hc.
  destruct c as [vs|t vs]; simpl in *; now rewrite select_all_true.
Qed.

(** The cell of a kept row is the cell it was. *)
Lemma cell_at_select (mask : list bool) (c : column) (i : nat) :
  column_length c = length mask ->
  i < length (select mask (seq 0 (length mask))) ->
  cell_at i (select_col mask c) =
  cell_at (nth i (select mask (seq 0 (length mask))) 0) c.
Proof.
  intros Hlen Hi. destruct c as [vs|t vs]; simpl in *.
  - rewrite (select_nth None mask vs Hlen).
    rewrite (nth_indep _ None (nth 0 vs None)) by (now rewrite length_map).
    now rewrite (map_nth (fun j => nth j vs None)).
  - rewrite (select_nth (A:=float) None mask vs Hlen).
    rewrite (nth_indep _ None (nth 0 vs None)) by (now rewrite length_map).
    now rewrite (map_nth (fun j => nth j vs None)).
Qed.

Lemma remove_duplicates_rows (df : DataFrame) :
  rectangular df ->
  rows (snd (remove_duplicates df)) = select (kept df) (rows df).
Proof.
  intros Hrect. rewrite (remove_duplicates_kept _ Hrect). cbn [snd].
  pose proof (kept_length df) as Hk.
  set (K := select (kept df) (seq 0 (length (kept df)))).
  assert (HK : nrows (mkDataFrame (select (kept df) (index df))
                        (map (fun nc => (fst nc, select_col (kept df) (snd nc))) (columns df)))
               = length K).
  { unfold nrows, K. cbn [index]. apply select_length_mask. now rewrite length_seq. }
  unfold rows at 1. rewrite HK.
  transitivity (map (fun i => row df (nth i K 0)) (seq 0 (length K))).
  - apply map_ext_in. intros i Hi. apply in_seq in Hi.
    unfold row. cbn [columns]. rewrite map_map. apply map_ext_in.
    intros nc Hin. cbn [snd]. apply cell_at_select; [|exact (proj2 Hi)].
    rewrite Hk. now apply Hrect.
  - rewrite <- (map_map (fun i => nth i K 0) (row df)), map_nth_seq.
    unfold K, rows. now rewrite Hk, select_map.
Qed.

(** Among the kept rows none is equal to one before it. *)
Lemma duplicated_of_kept (rs : list (list cell)) :
  forall seen seen',
    (forall r, existsb (row_eqb r) seen' = true -> existsb (row_eqb r) seen = true) ->
    duplicated seen' (select (map negb (duplicated seen rs)) rs) =
    repeat false (length (select (map negb (duplicated seen rs)) rs)).
Proof.
  induction rs as [|r rs IH]; intros seen seen' Hincl; simpl; [reflexivity|].
  destruct (existsb (row_eqb r) seen) eqn:E; simpl.
  - apply IH. intros r' H. simpl. rewrite (Hincl _ H). apply orb_true_r.
  - assert (E' : existsb (row_eqb r) seen' = false).
    { destruct (existsb (row_eqb r) seen') eqn:E'; [|reflexivity].
      rewrite (Hincl _ E') in E. discriminate. }
    rewrite E'. f_equal. apply IH.
    intros r' H. simpl in *. apply orb_true_iff in H. apply orb_true_iff.
    destruct H as [H|H]; [now left | right; now apply Hincl].
Qed.

Lemma map_negb_repeat_false (n : nat) : map negb (repeat false n) = repeat true n.
Proof. induction n as [|n IH]; simpl; [reflexivity | now rewrite IH]. Qed.

Lemma remove_duplicates_rectangular (df : DataFrame) :
  rectangular df -> rectangular (snd (remove_duplicates df)).
Proof.
  intros Hrect. rewrite (remove_duplicates_kept _ Hrect). cbn [snd].
  intros nc Hin. cbn [columns] in Hin. apply in_map_iff in Hin.
  destruct Hin as [[n c] [<- Hin]]. unfold nrows. cbn [snd index].
  pose proof (Hrect _ Hin) as Hc. simpl in Hc. unfold nrows in Hc.
  destruct c as [vs|t vs]; simpl in *; now apply select_length_mask.
Qed.

Lemma remove_duplicates_empty (df : DataFrame) :
  empty df = true -> remove_duplicates df = (Ok tt, df).
Proof. intros E. unfold remove_duplicates. now rewrite E. Qed.

Lemma kept_of_kept (df : DataFrame) :
  rectangular df ->
  kept (snd (remove_duplicates df)) = repeat true (nrows (snd (remove_duplicates df))).
Proof.
  intros Hrect. destruct (empty df) eqn:E.
  - rewrite (remove_duplicates_empty _ E). cbn [snd]. unfold kept. now rewrite E.
  - unfold kept at 1.
    destruct (empty (snd (remove_duplicates df))); [reflexivity|].
    rewrite <- (rows_length (snd (remove_duplicates df))).
    rewrite (remove_duplicates_rows _ Hrect).
    unfold kept. rewrite E.
    rewrite (duplicated_of_kept (rows df) [] []) by auto.
    apply map_negb_repeat_false.
Qed.

Lemma remove_duplicates_idempotent (df : DataFrame) :
  rectangular df ->
  remove_duplicates (snd (remove_duplicates df)) = (Ok tt, snd (remove_duplicates df)).
Proof.
  intros Hrect. pose proof (remove_duplicates_rectangular _ Hrect) as Hrect'.
  rewrite (remove_duplicates_kept _ Hrect').
  rewrite (kept_of_kept _ Hrect).
  destruct (snd (remove_duplicates df)) as [idx cs]. unfold nrows in *. cbn [index columns] in *.
  f_equal. rewrite select_all_true by reflexivity. f_equal.
  erewrite map_ext_in; [apply map_id|].
  intros [n c] Hin. cbn [fst snd]. f_equal.
  pose proof (Hrect' _ Hin) as Hc. unfold nrows in Hc. cbn [snd index] in Hc.
  destruct c as [vs|t vs]; simpl in *; now rewrite select_all_true.
Qed.

(** A row is dropped when a row before it is equal to it. *)
Lemma duplicated_spec (rs : list (list cell)) :
  forall seen i,
    i < length rs ->
    nth i (duplicated seen rs) false =
    existsb (row_eqb (nth i rs [])) (rev (firstn i rs) ++ seen).
Proof.
  induction rs as [|r rs IH]; intros seen i Hi; simpl in Hi; [lia|].
  destruct i as [|i]; simpl; [reflexivity|].
  rewrite IH by lia. now rewrite <- app_assoc.
Qed.

Lemma existsb_rev_seen {A : Type} (f : A -> bool) (l : list A) :
  existsb f (rev l) = existsb f l.
Proof.
  induction l as [|x l IH]; simpl; [reflexivity|].
  rewrite existsb_app, IH. simpl. rewrite orb_false_r. apply orb_comm.
Qed.

Lemma rows_nth (df : DataFrame) (i : nat) :
  i < nrows df -> nth i (rows df) [] = row df i.
Proof.
  intros Hi. unfold rows.
  rewrite (nth_indep _ [] (row df 0)) by (now rewrite length_map, length_seq).
  rewrite (map_nth (row df)). now rewrite seq_nth.
Qed.

(** A row is kept when no row before it is equal to it. *)
Lemma kept_spec (df : DataFrame) (i : nat) :
  empty df = false -> i < nrows df ->
  nth i (kept df) true = negb (existsb (row_eqb (row df i)) (firstn i (rows df))).
Proof.
  intros E Hi. unfold kept. rewrite E.
  change true with (negb false) at 1. rewrite (map_nth negb).
  rewrite duplicated_spec by (now rewrite rows_length).
  now rewrite app_nil_r, existsb_rev_seen, rows_nth.
Qed.

(** ** The scenario through the pipeline *)

#[local] Arguments Reqb : simpl never.
#[local] Arguments IZR : simpl never.
#[local] Arguments standard_scale : simpl never.

Lemma scenario_deduplication :
  remove_duplicates scenario_imputed = (Ok tt, scenario_deduplicated).
Proof.
  unfold remove_duplicates, scenario_imputed, scenario_deduplicated. simpl.
  decide_R. reflexivity.
Qed.

Lemma scenario_quartiles :
  quantile (1 / 4) [Some 25; Some 40; Some 70]%R = Some (65 / 2)%R /\
  quantile (3 / 4) [Some 25; Some 40; Some 70]%R = Some 55%R /\
  median [Some 25; Some 40; Some 70]%R = Some 40%R.
Proof.
  split; [eval_quantile 0%Z|]. split; [eval_quantile 1%Z | eval_median].
Qed.

Lemma scenario_outliers :
  handle_outliers scenario_deduplicated = (Ok tt, scenario_deduplicated).
Proof.
  rewrite handle_outliers_pass.
  - unfold scenario_deduplicated.
    cbn [columns index map_cols is_number outliers_column].
    destruct scenario_quartiles as (Hq1 & Hq3 & Hmed).
    unfold outliers_values. rewrite Hq1, Hq3, Hmed.
    cbn [py_round fsub fadd fmul lift2 map fltb].
    rewrite round_half_even_IZR. decide_R. reflexivity.
  - unfold unique_labels, labels. simpl.
    constructor; [simpl; intros [H|[]]; discriminate|].
    constructor; [simpl; tauto | constructor].
Qed.

Lemma scenario_scaling :
  scale_numerical_features scenario_deduplicated = (Ok tt, scenario_scaled).
Proof. rewrite scale_outcome. reflexivity. Qed.

Lemma scenario_encoding :
  encode_categorical_variables scenario_scaled =
  (Ok (New scenario_encoded),
   mkDataFrame [0; 1; 3]
     [("age"%string, NumCol float64 (standard_scale [Some 25%R; Some 40%R; Some 70%R]))]).
Proof. reflexivity. Qed.

Lemma scenario_encoded_unique_labels : unique_labels scenario_encoded.
Proof.
  unfold unique_labels, labels. simpl.
  constructor; [simpl; intros [H|[]]; discriminate|].
  constructor; [simpl; tauto | constructor].
Qed.

(** The whole run: the pipeline returns a table of four rows. *)
Lemma scenario_run :
  exists out s, preprocess_data scenario = (Ok out, s) /\ index out = [0; 1; 3; 2].
Proof.
  destruct (restore_succeeds _ scenario_encoded_unique_labels) as [out [Hr Hi]].
  exists out. eexists. split; [|exact Hi].
  unfold preprocess_data, bind.
  rewrite scenario_imputation, scenario_deduplication, scenario_outliers,
    scenario_scaling, scenario_encoding, Hr. reflexivity.
Qed.

(** ** A table whose categorical column has one value *)

Lemma single_city_unique_labels : unique_labels single_city.
Proof.
  unfold unique_labels, labels. simpl.
  constructor; [simpl; intros [H|[]]; discriminate|].
  constructor; [simpl; tauto | constructor].
Qed.

Lemma single_city_imputation : handle_missing_values single_city = (Ok tt, single_city).
Proof.
  rewrite (handle_missing_values_pass _ single_city_unique_labels). reflexivity.
Qed.

Lemma single_city_deduplication : remove_duplicates single_city = (Ok tt, single_city).
Proof.
  unfold remove_duplicates, single_city. simpl. decide_R. reflexivity.
Qed.

Lemma single_city_quartiles :
  quantile (1 / 4) [Some 0; Some 1; Some 3]%R = Some (1 / 2)%R /\
  quantile (3 / 4) [Some 0; Some 1; Some 3]%R = Some 2%R /\
  median [Some 0; Some 1; Some 3]%R = Some 1%R.
Proof.
  split; [eval_quantile 0%Z|]. split; [eval_quantile 1%Z | eval_median].
Qed.

Lemma single_city_outliers : handle_outliers single_city = (Ok tt, single_city).
Proof.
  rewrite (handle_outliers_pass _ single_city_unique_labels).
  unfold single_city. cbn [columns index map_cols is_number outliers_column].
  destruct single_city_quartiles as (Hq1 & Hq3 & Hmed).
  unfold outliers_values. rewrite Hq1, Hq3, Hmed.
  cbn [py_round fsub fadd fmul lift2 map fltb].
  rewrite round_half_even_IZR. decide_R. reflexivity.
Qed.

Lemma single_city_scaling :
  scale_numerical_features single_city = (Ok tt, single_city_scaled).
Proof. rewrite scale_outcome. reflexivity. Qed.

Lemma single_city_encoding :
  encode_categorical_variables single_city_scaled =
  (Ok (New single_city_encoded), single_city_encoded).
Proof. reflexivity. Qed.

(** The standardized values of 0, 1, 3: the first lies strictly between -2
    and -1. *)
Lemma sqrt_14_9_bounds : (1 < sqrt (14 / 9) < 4 / 3)%R.
Proof.
  split.
  - rewrite <- sqrt_1 at 1. apply sqrt_lt_1; lra.
  - replace (4 / 3)%R with (sqrt (16 / 9)).
    + apply sqrt_lt_1; lra.
    + apply sqrt_lem_1; lra.
Qed.

Lemma single_city_mean : mean [Some 0; Some 1; Some 3]%R = Some (4 / 3)%R.
Proof.
  unfold mean. cbn [dropna]. f_equal. cbn [Rsum fold_right length]. simpl INR. lra.
Qed.

Lemma single_city_pstd : pstd [Some 0; Some 1; Some 3]%R = Some (sqrt (14 / 9)).
Proof.
  unfold pstd, pvar. rewrite single_city_mean. cbn [dropna map Rsum fold_right length fsqrt option_map].
  do 2 f_equal. simpl INR. lra.
Qed.

Lemma single_city_standardized :
  standard_scale [Some 0; Some 1; Some 3]%R =
  [Some ((0 - 4 / 3) / sqrt (14 / 9)); Some ((1 - 4 / 3) / sqrt (14 / 9));
   Some ((3 - 4 / 3) / sqrt (14 / 9))]%R.
Proof.
  rewrite (standard_scale_eq _ (4 / 3) (sqrt (14 / 9))).
  - reflexivity.
  - exact single_city_mean.
  - rewrite single_city_pstd. simpl.
    pose proof sqrt_14_9_bounds as [H _].
    rewrite (proj2 (Reqb_neq _ _)); [reflexivity | lra].
Qed.

Lemma single_city_not_integral :
  is_integer ((0 - 4 / 3) / sqrt (14 / 9)) = false.
Proof.
  pose proof sqrt_14_9_bounds as [Hlo Hhi].
  assert (Hinv : (3 / 4 < / sqrt (14 / 9) < 1)%R).
  { split.
    - replace (3 / 4)%R with (/ (4 / 3))%R by lra.
      apply Rinv_lt_contravar; [|exact Hhi].
      apply Rmult_lt_0_compat; lra.
    - assert (H : (/ sqrt (14 / 9) < / 1)%R) by (apply Rinv_lt_contravar; lra).
      now rewrite Rinv_1 in H. }
  assert (Hz : (-2 < (0 - 4 / 3) / sqrt (14 / 9) < -1)%R).
  { unfold Rdiv at 1 3. lra. }
  unfold is_integer. rewrite (Zfloor_eq (-2)) by lra.
  apply Reqb_neq. lra.
Qed.

Lemma single_city_restoring :
  restore_integer_columns single_city_encoded = (Ok tt, single_city_encoded).
Proof.
  unfold restore_integer_columns. rewrite for_each_unique_labels.
  - unfold single_city_encoded.
    cbn [columns index map_cols is_float restore_column].
    rewrite single_city_standardized. cbn [dropna forallb].
    rewrite single_city_not_integral. reflexivity.
  - unfold unique_labels, labels. simpl. constructor; [simpl; tauto | constructor].
Qed.

Lemma single_city_run :
  stages_to_encoder single_city = (Ok (New single_city_encoded), single_city_encoded) /\
  preprocess_data single_city = (Ok single_city_encoded, single_city_encoded).
Proof.
  unfold stages_to_encoder, preprocess_data, bind.
  rewrite single_city_imputation, single_city_deduplication, single_city_outliers,
    single_city_scaling, single_city_encoding, single_city_restoring.
  split; reflexivity.
Qed.

(** ** The stages applied to their own result *)

Lemma fillna_full {A : Type} (fill : option A) (vs : list (option A)) :
  filter isNaN vs = [] -> fillna fill vs = vs.
Proof.
  induction vs as [|[x|] vs IH]; simpl; intros H; [reflexivity | | discriminate].
  now rewrite <- (IH H) at 2.
Qed.

Lemma dropna_full {A : Type} (vs : list (option A)) :
  filter isNaN vs = [] -> vs <> [] -> dropna vs <> [].
Proof. destruct vs as [|[x|] vs]; simpl; intros H Hne; congruence. Qed.

Lemma impute_column_fixed (c c' : column) :
  impute_column c = Ok c' -> impute_column c' = Ok c'.
Proof.
  destruct c as [vs|t vs]; simpl.
  - destruct (first_mode vs) as [m|e] eqn:Hm; [|discriminate].
    intros H. injection H as <-. simpl.
    pose proof (fillna_no_missing m vs) as Hfull.
    destruct (first_mode_spec _ _ Hm) as [Hin _].
    assert (Hne : fillna (Some m) vs <> []).
    { destruct vs; [destruct Hin | discriminate]. }
    destruct (first_mode_ok _ (dropna_full _ Hfull Hne)) as [m' ->].
    now rewrite (fillna_full _ _ Hfull).
  - intros H. injection H as <-. simpl. f_equal. f_equal.
    destruct (np_round (mean vs)) as [r|] eqn:Hr.
    + apply fillna_full. apply fillna_no_missing.
    + rewrite !fillna_NaN. now rewrite Hr, fillna_NaN.
Qed.

Lemma map_cols_fixed (p : column -> bool) (f : column -> result column)
    (cs : list (string * column)) :
  (forall nc, In nc cs -> p (snd nc) = true -> f (snd nc) = Ok (snd nc)) ->
  map_cols p f cs = (Ok tt, cs).
Proof.
  induction cs as [|[n c] cs IH]; intros H; simpl; [reflexivity|].
  rewrite IH by (intros nc Hin; apply H; now right).
  destruct (p c) eqn:Hp; [|reflexivity].
  pose proof (H (n, c) (or_introl eq_refl) Hp) as Hc. cbn [snd] in Hc.
  now rewrite Hc.
Qed.

Lemma Forall2_stepped_fixed (p : column -> bool) (f : column -> result column)
    (cs cs' : list (string * column)) :
  (forall c c', f c = Ok c' -> p c' = true -> f c' = Ok c') ->
  Forall2 (stepped p f) cs cs' ->
  forall nc, In nc cs' -> p (snd nc) = true -> f (snd nc) = Ok (snd nc).
Proof.
  intros Hf H. induction H as [|a b cs cs' [_ Hab] _ IH]; intros nc Hin Hp; [destruct Hin|].
  destruct Hin as [<-|Hin]; [|now apply IH].
  destruct (p (snd a)) eqn:Hpa.
  - exact (Hf _ _ Hab Hp).
  - rewrite Hab in Hp. congruence.
Qed.

(** The scaler is an affine map of positive slope on each column. *)
Lemma standard_scale_affine (vs : list float) :
  dropna vs <> [] ->
  exists mu sd v,
    mean vs = Some mu /\ pvar vs = Some v /\ (0 < sd)%R /\
    (sd = if Reqb v 0 then 1 else sqrt v)%R /\
    standard_scale vs = map (option_map (fun x => (x - mu) / sd)%R) vs.
Proof.
  intros Hne. destruct (pvar_some _ Hne) as [v Hv].
  destruct (pvar_spec _ _ Hv) as (mu & Hm & _ & _ & Hpos).
  exists mu, (if Reqb v 0 then 1 else sqrt v)%R, v.
  assert (Hsd : (0 < (if Reqb v 0 then 1 else sqrt v))%R).
  { destruct (Reqb v 0) eqn:E; [lra|].
    apply Reqb_neq in E. apply sqrt_lt_R0. lra. }
  repeat split; try assumption.
  apply standard_scale_eq; [exact Hm|].
  unfold pstd. rewrite Hv. simpl.
  destruct (Reqb v 0) eqn:E.
  - apply Reqb_eq in E. subst v. rewrite sqrt_0.
    now rewrite (proj2 (Reqb_eq 0 0) eq_refl).
  - apply Reqb_neq in E.
    assert (Hs : sqrt v <> 0%R) by (intros E'; apply E; now apply sqrt_eq_0).
    now rewrite (proj2 (Reqb_neq _ _) Hs).
Qed.








Lemma standard_scale_monotone (vs : list float) :
  exists a b : R,
    (0 < a)%R /\ standard_scale vs = map (option_map (fun x => a * x + b)%R) vs.
Proof.
  destruct (dropna vs) as [|x0 xs] eqn:Hd.
  - exists 1%R, 0%R. split; [lra|].
    rewrite (standard_scale_all_missing _ Hd).
    rewrite <- (map_id vs) at 1. apply map_ext.
    intros [x|]; simpl; [f_equal; ring | reflexivity].
  - assert (Hne : dropna vs <> []) by congruence.
    destruct (standard_scale_affine _ Hne) as (mu & sd & v & _ & _ & Hsd & _ & ->).
    exists (/ sd)%R, (- mu / sd)%R. split; [now apply Rinv_0_lt_compat|].
    apply map_ext. intros [x|]; simpl; [f_equal; field; lra | reflexivity].
Qed.

(** ** The closing loop *)



(** ** The fences of [handle_outliers] *)













(** ** Indicator columns, row by row *)

Lemma category_eqb_eq (a b : option string) : category_eqb a b = true <-> a = b.
Proof.
  destruct a as [s|], b as [s'|]; simpl; split; try congruence; try reflexivity.
  - intros H. apply String.eqb_eq in H. now subst.
  - intros H. injection H as ->. apply String.eqb_refl.
Qed.

Lemma indicator_nth (c : option string) (vs : list (option string)) (i : nat) :
  i < length vs ->
  nth i (indicator c vs) None =
  Some (if category_eqb (nth i vs None) c then 1%R else 0%R).
Proof.
  intros Hi. unfold indicator.
  rewrite (nth_indep _ None (Some (if category_eqb None c then 1%R else 0%R)))
    by (now rewrite length_map).
  now rewrite (map_nth (fun v => Some (if category_eqb v c then 1%R else 0%R))).
Qed.

Lemma one_hot_In (n : string) (vs : list (option string)) (ic : string * column) :
  In ic (one_hot (n, ObjCol vs)) <->
  exists c, In c (tl (categories vs)) /\
            ic = (feature_name n c, NumCol float64 (indicator c vs)).
Proof.
  unfold one_hot. cbn [fst snd]. rewrite in_map_iff. split.
  - intros (c & <- & Hc). now exists c.
  - intros (c & Hc & ->). now exists c.
Qed.

Lemma indicator_set (n : string) (vs : list (option string)) (c : option string) (i : nat) :
  i < length vs ->
  (cell_at i (NumCol float64 (indicator c vs)) = NumCell (Some 1%R) <->
   nth i vs None = c).
Proof.
  intros Hi. simpl. rewrite (indicator_nth _ _ _ Hi). split.
  - destruct (category_eqb (nth i vs None) c) eqn:E.
    + intros _. now apply category_eqb_eq.
    + intros H. injection H as H. lra.
  - intros H. apply category_eqb_eq in H. now rewrite H.
Qed.

Lemma encode_aligned_columns (df out : DataFrame) :
  encode df = Ok out -> index df = seq 0 (nrows df) ->
  columns out = numeric_columns df ++ flat_map one_hot (object_columns df).
Proof.
  rewrite encode_outcome. intros H Hidx.
  destruct (object_columns df) as [|oc ocs] eqn:Ho.
  - injection H as <-. simpl. rewrite app_nil_r.
    symmetry. exact (proj1 (no_object_columns _ Ho)).
  - destruct (nrows df =? 0); [discriminate|].
    unfold concat_axis1 in H. cbn [index drop_object_columns columns] in H.
    rewrite (proj2 (index_eqb_eq _ _) Hidx) in H. now injection H as <-.
Qed.


(** ** The row labels that [concat] makes *)

Lemma existsb_eqb_In (j : nat) (l : list nat) : existsb (Nat.eqb j) l = true <-> In j l.
Proof.
  rewrite existsb_exists. split.
  - intros (x & Hx & E). apply Nat.eqb_eq in E. now subst.
  - intros H. exists j. split; [exact H | apply Nat.eqb_refl].
Qed.

Lemma filter_none {A : Type} (p : A -> bool) (l : list A) :
  filter p l = [] <-> forall x, In x l -> p x = false.
Proof.
  induction l as [|x l IH]; simpl; [tauto|].
  destruct (p x) eqn:E; split.
  - discriminate.
  - intros H. specialize (H x (or_introl eq_refl)). congruence.
  - intros H y [<-|Hy]; [exact E | now apply IH].
  - intros H. apply IH. intros y Hy. apply H. now right.
Qed.

Lemma union_index_self (a : list nat) : union_index a a = a.
Proof.
  unfold union_index. rewrite <- (app_nil_r a) at 3. f_equal.
  apply filter_none. intros x Hx.
  apply negb_false_iff. now apply existsb_eqb_In.
Qed.

Lemma encode_index (df out : DataFrame) :
  encode df = Ok out -> object_columns df <> [] ->
  index out = union_index (index df) (seq 0 (nrows df)).
Proof.
  rewrite encode_outcome. intros H Hne.
  destruct (object_columns df) as [|oc ocs]; [congruence|].
  destruct (nrows df =? 0); [discriminate|].
  destruct (concat_columns _ _ _ H) as (_ & _ & _ & _ & _ & Hi).
  cbn [index drop_object_columns] in Hi. rewrite Hi.
  destruct (index_eqb (index df) (seq 0 (nrows df))) eqn:E; [|reflexivity].
  apply index_eqb_eq in E. rewrite <- E. now rewrite union_index_self.
Qed.


(** ** Loops whose body cannot fail on a column *)

Lemma update_col_total (f : column -> result column) (n : string) (df : DataFrame) :
  (forall c, exists c', f c = Ok c') -> In n (labels df) ->
  (exists df', update_col f n df = (Ok tt, df') /\ labels df' = labels df) \/
  update_col f n df = (Raise AttributeError, df).
Proof.
  intros Hf Hin. unfold update_col. pose proof (getitem_count n df) as Hc.
  destruct (getitem n df) as [|c [|c2 cs]].
  - exfalso. simpl in Hc. symmetry in Hc.
    now apply (count_occ_not_In string_dec) in Hc.
  - destruct (Hf c) as [c' ->]. left. eexists. split; [reflexivity|].
    apply setitem_labels.
  - now right.
Qed.

Lemma for_each_total (f : column -> result column) (L : list string) (df : DataFrame) :
  (forall c, exists c', f c = Ok c') -> (forall n, In n L -> In n (labels df)) ->
  (exists df', for_each L (update_col f) df = (Ok tt, df')) \/
  (exists s, for_each L (update_col f) df = (Raise AttributeError, s)).
Proof.
  intros Hf. revert df. induction L as [|n L IH]; intros df HL.
  - left. now exists df.
  - simpl. unfold bind.
    destruct (update_col_total f n df Hf (HL n (or_introl eq_refl)))
      as [(df' & Heq & Hl) | Heq]; rewrite Heq.
    + apply IH. intros m Hm. rewrite Hl. apply HL. now right.
    + right. now exists df.
Qed.

Lemma select_dtypes_labels (p : column -> bool) (df : DataFrame) (n : string) :
  In n (select_dtypes p df) -> In n (labels df).
Proof.
  unfold select_dtypes, labels. rewrite !in_map_iff.
  intros (nc & <- & Hin). apply filter_In in Hin. exists nc. tauto.
Qed.

(** The closing loop stops with [AttributeError] as soon as a float64 column
    shares its label with another column. *)
Lemma restore_raises_on_shared_label (d : DataFrame) (n : string) :
  In n (select_dtypes is_float d) -> count_occ string_dec (labels d) n <> 1 ->
  exists s, restore_integer_columns d = (Raise AttributeError, s).
Proof.
  intros Hin Hc. unfold restore_integer_columns.
  destruct (for_each_total restore_column (select_dtypes is_float d) d
              restore_column_total (select_dtypes_labels is_float d))
    as [(df' & H)|H]; [|exact H].
  exfalso. apply Hc. exact (for_each_ok_unique _ _ _ _ _ H n Hin).
Qed.

Lemma stages_to_encoder_ok (df s : DataFrame) (r : returned) :
  stages_to_encoder df = (Ok r, s) ->
  exists s1 s2 s3 s4,
    handle_missing_values df = (Ok tt, s1) /\
    remove_duplicates s1 = (Ok tt, s2) /\
    handle_outliers s2 = (Ok tt, s3) /\
    scale_numerical_features s3 = (Ok tt, s4) /\
    encode_categorical_variables s4 = (Ok r, s).
Proof.
  unfold stages_to_encoder, bind.
  destruct (handle_missing_values df) as [[[]|e] s1] eqn:H1; [|discriminate].
  destruct (remove_duplicates s1) as [[[]|e] s2] eqn:H2; [|discriminate].
  destruct (handle_outliers s2) as [[[]|e] s3] eqn:H3; [|discriminate].
  destruct (scale_numerical_features s3) as [[[]|e] s4] eqn:H4; [|discriminate].
  intros He. now exists s1, s2, s3, s4.
Qed.

(** [preprocess_data] is the stages up to the encoder, then the closing
    loop. *)
Lemma preprocess_data_stages (df : DataFrame) :
  preprocess_data df =
  match stages_to_encoder df with
  | (Ok Self, s) =>
      match restore_integer_columns s with
      | (Ok _, s') => (Ok s', s')
      | (Raise e, s') => (Raise e, s')
      end
  | (Ok (New d), s) =>
      match restore_integer_columns d with
      | (Ok _, d') => (Ok d', s)
      | (Raise e, _) => (Raise e, s)
      end
  | (Raise e, s) => (Raise e, s)
  end.
Proof.
  unfold preprocess_data, stages_to_encoder, bind.
  destruct (handle_missing_values df) as [[[]|e] s1]; [|reflexivity].
  destruct (remove_duplicates s1) as [[[]|e] s2]; [|reflexivity].
  destruct (handle_outliers s2) as [[[]|e] s3]; [|reflexivity].
  destruct (scale_numerical_features s3) as [[[]|e] s4]; [|reflexivity].
  now destruct (encode_categorical_variables s4) as [[[|d]|e] s5].
Qed.

Lemma NoDup_count_occ_le (l : list string) :
  (forall n, In n l -> count_occ string_dec l n = 1) -> NoDup l.
Proof.
  intros H. apply (NoDup_count_occ string_dec). intros n.
  destruct (in_dec string_dec n l) as [Hin|Hout].
  - rewrite (H n Hin). lia.
  - apply (count_occ_not_In string_dec) in Hout. lia.
Qed.

Lemma aligned_indicator_is_float (g : column -> column) (cs : list (string * column)) :
  aligns g ->
  Forall (fun ic => is_float (snd ic) = true)
    (map (fun nc => (fst nc, g (snd nc))) (flat_map one_hot cs)).
Proof.
  intros Hg. apply Forall_map.
  eapply Forall_impl; [|apply flat_map_one_hot_indicator].
  intros ic Hic. cbn [snd].
  now destruct (aligns_indicator _ _ Hg Hic) as (vs & -> & _).
Qed.

Lemma collision_unique_labels : unique_labels collision.
Proof.
  unfold unique_labels, labels. simpl.
  constructor; [simpl; intros [H|[]]; discriminate|].
  constructor; [simpl; tauto | constructor].
Qed.

Lemma pair_quartiles :
  quantile (1 / 4) [Some 1; Some 3]%R = Some (3 / 2)%R /\
  quantile (3 / 4) [Some 1; Some 3]%R = Some (5 / 2)%R /\
  median [Some 1; Some 3]%R = Some 2%R.
Proof.
  split; [eval_quantile 0%Z|]. split; [eval_quantile 0%Z | eval_median].
Qed.

Lemma collision_stages :
  stages_to_encoder collision = (Ok (New collision_encoded), collision_numeric).
Proof.
  unfold stages_to_encoder, bind.
  assert (H1 : handle_missing_values collision = (Ok tt, collision)).
  { rewrite (handle_missing_values_pass _ collision_unique_labels). reflexivity. }
  assert (H2 : remove_duplicates collision = (Ok tt, collision)).
  { unfold remove_duplicates, collision. simpl. decide_R. reflexivity. }
  assert (H3 : handle_outliers collision = (Ok tt, collision)).
  { rewrite (handle_outliers_pass _ collision_unique_labels).
    unfold collision. cbn [columns index map_cols is_number outliers_column].
    destruct pair_quartiles as (Hq1 & Hq3 & Hmed).
    unfold outliers_values. rewrite Hq1, Hq3, Hmed.
    cbn [py_round fsub fadd fmul lift2 map fltb].
    rewrite round_half_even_IZR. decide_R. reflexivity. }
  assert (H4 : scale_numerical_features collision = (Ok tt, collision_scaled)).
  { rewrite scale_outcome. reflexivity. }
  rewrite H1, H2, H3, H4. reflexivity.
Qed.


(** ** What [preprocess_data] asks of its input *)

Lemma kinds_has_numeric (df df' : DataFrame) :
  kinds df' = kinds df ->
  existsb (fun nc => is_number (snd nc)) (columns df') =
  existsb (fun nc => is_number (snd nc)) (columns df).
Proof.
  unfold kinds. generalize (columns df). generalize (columns df').
  induction l as [|[n c] l IH]; intros [|[n' c'] l'] H; simpl in *; try discriminate;
    [reflexivity|].
  injection H as _ Hc Hl. rewrite (IH _ Hl). f_equal.
  rewrite !is_number_not_object. now rewrite Hc.
Qed.

Lemma remove_duplicates_nrows (df : DataFrame) :
  nrows (snd (remove_duplicates df)) <= nrows df.
Proof.
  unfold remove_duplicates. destruct (empty df); simpl; [lia | apply select_length].
Qed.

Lemma preprocess_data_requires (df out s : DataFrame) :
  preprocess_data df = (Ok out, s) ->
  unique_labels df /\
  nrows df <> 0 /\
  existsb (fun nc => is_number (snd nc)) (columns df) = true /\
  (forall nc, In nc (columns df) -> has_value (snd nc) = true).
Proof.
  intros H. pose proof H as H0. apply preprocess_data_ok in H.
  destruct H as (s1 & s2 & s3 & s4 & H1 & H2 & H3 & H4 & _).
  pose proof (imputer_ok_unique_labels _ _ _ H1) as Hu.
  assert (Hs : scalable s3 = true).
  { rewrite scale_outcome in H4. destruct (scalable s3); [reflexivity | discriminate]. }
  apply andb_true_iff in Hs. destruct Hs as [Hnum Hrows].
  destruct (imputer_kinds _ _ _ H1) as [K1 I1].
  destruct (remove_duplicates_kinds s1) as [_ K2]. rewrite H2 in K2. cbn [snd] in K2.
  destruct (outliers_kinds _ _ _ H3) as (K3 & I3 & _).
  split; [exact Hu|]. split; [|split].
  - apply negb_true_iff, Nat.eqb_neq in Hrows.
    pose proof (remove_duplicates_nrows s1) as Hle. rewrite H2 in Hle. cbn [snd] in Hle.
    unfold nrows in *. rewrite I3 in Hrows. rewrite I1 in Hle. lia.
  - rewrite <- (kinds_has_numeric df s1 K1), <- (kinds_has_numeric s1 s2 K2),
      <- (kinds_has_numeric s2 s3 K3). exact Hnum.
  - intros [n c] Hin. cbn [snd].
    destruct (has_value c) eqn:Hv; [reflexivity|]. exfalso.
    destruct c as [vs|t vs].
    + pose proof (imputer_outcome _ Hu) as Ho. rewrite H1 in Ho. cbn [fst] in Ho.
      destruct (existsb (fun nc => empty_object (snd nc)) (columns df)) eqn:E;
        [discriminate|].
      assert (E' : existsb (fun nc => empty_object (snd nc)) (columns df) = true).
      { apply existsb_exists. exists (n, ObjCol vs). split; [exact Hin|].
        unfold empty_object. cbn [snd is_object]. now rewrite Hv. }
      congruence.
    + apply In_nth_error in Hin. destruct Hin as [k Hk].
      destruct (pipeline_aborts_on_empty_numeric _ _ _ _ _ Hu Hk Hv) as (e & s' & He).
      congruence.
Qed.

(** ** Missing cells through the stages *)

Lemma select_no_missing {A : Type} (mask : list bool) (vs : list (option A)) :
  filter isNaN vs = [] -> filter isNaN (select mask vs) = [].
Proof.
  revert vs. induction mask as [|[] mask IH]; intros [|[x|] vs] H; simpl in *;
    try reflexivity; try discriminate; now apply IH.
Qed.

Lemma map_no_missing {A : Type} (g : option A -> option A) (vs : list (option A)) :
  (forall x, exists y, g (Some x) = Some y) ->
  filter isNaN vs = [] -> filter isNaN (map g vs) = [].
Proof.
  intros Hg. induction vs as [|[x|] vs IH]; simpl; intros H;
    [reflexivity | | discriminate].
  destruct (Hg x) as [y ->]. simpl. now apply IH.
Qed.

Lemma imputer_fills (df s1 : DataFrame) :
  handle_missing_values df = (Ok tt, s1) ->
  (forall nc, In nc (columns df) -> has_value (snd nc) = true) ->
  forall nc, In nc (columns s1) -> missing_cells (snd nc) = 0.
Proof.
  intros H Hv. pose proof (imputer_ok_unique_labels _ _ _ H) as Hu.
  rewrite (handle_missing_values_pass _ Hu) in H. injection H as Hfst <-.
  pose proof (map_cols_ok _ _ _ Hfst) as Hsteps. cbn [columns].
  revert Hsteps Hv. generalize (snd (map_cols (fun _ => true) impute_column (columns df))).
  generalize (columns df). intros cs cs' Hsteps.
  induction Hsteps as [|a b cs cs' [_ Hab] _ IH]; intros Hv nc Hin; [destruct Hin|].
  destruct Hin as [<-|Hin]; [|apply IH; [|exact Hin]; intros; apply Hv; now right].
  destruct (impute_column_ok _ (Hv a (or_introl eq_refl))) as (c' & Hc & Hm).
  cbv beta in Hab. congruence.
Qed.

Lemma remove_duplicates_no_missing (df : DataFrame) :
  (forall nc, In nc (columns df) -> missing_cells (snd nc) = 0) ->
  forall nc, In nc (columns (snd (remove_duplicates df))) -> missing_cells (snd nc) = 0.
Proof.
  intros Hm nc. unfold remove_duplicates. destruct (empty df); cbn [snd columns]; [apply Hm|].
  intros Hin. apply in_map_iff in Hin. destruct Hin as ([n c] & <- & Hin).
  specialize (Hm _ Hin). cbn [snd] in *.
  destruct c as [vs|t vs]; cbn [missing_cells select_col] in *;
    apply length_zero_iff_nil in Hm; now rewrite (select_no_missing _ _ Hm).
Qed.

Lemma Forall2_stepped_no_missing (p : column -> bool) (f : column -> result column)
    (cs cs' : list (string * column)) :
  (forall c c', f c = Ok c' -> missing_cells c = 0 -> missing_cells c' = 0) ->
  Forall2 (stepped p f) cs cs' ->
  (forall nc, In nc cs -> missing_cells (snd nc) = 0) ->
  forall nc, In nc cs' -> missing_cells (snd nc) = 0.
Proof.
  intros Hf H. induction H as [|a b cs cs' [_ Hab] _ IH]; intros Hm nc Hin; [destruct Hin|].
  destruct Hin as [<-|Hin]; [|apply IH; [|exact Hin]; intros; apply Hm; now right].
  pose proof (Hm a (or_introl eq_refl)) as Ha.
  destruct (p (snd a)); [exact (Hf _ _ Hab Ha) | now rewrite Hab].
Qed.

Lemma outliers_column_no_missing (c c' : column) :
  outliers_column c = Ok c' -> missing_cells c = 0 -> missing_cells c' = 0.
Proof.
  destruct c as [vs|t vs]; cbn [outliers_column]; [now intros H; injection H as <-|].
  destruct (outliers_values vs) as [s'|e] eqn:Hv; [|discriminate].
  intros H. injection H as <-.
  destruct (outliers_values_ok _ _ Hv) as (q1 & q3 & med & _ & _ & _ & ->).
  cbn [missing_cells]. intros Hm. apply length_zero_iff_nil in Hm.
  apply length_zero_iff_nil, (map_no_missing (A:=R)); [|exact Hm].
  intros x. unfold suppressed. destruct (_ || _); eexists; reflexivity.
Qed.

Lemma scale_column_no_missing (c : column) :
  missing_cells c = 0 -> missing_cells (scale_column c) = 0.
Proof.
  destruct c as [vs|t vs]; cbn [scale_column missing_cells]; [tauto|].
  destruct (standard_scale_monotone vs) as (a & b & _ & ->).
  intros Hm. apply length_zero_iff_nil in Hm.
  apply length_zero_iff_nil, (map_no_missing (A:=R)); [|exact Hm].
  intros x. eexists. reflexivity.
Qed.

Lemma restore_column_no_missing (c c' : column) :
  restore_column c = Ok c' -> missing_cells c = 0 -> missing_cells c' = 0.
Proof.
  destruct c as [vs|[] vs]; simpl; try (now intros H; injection H as <-).
  destruct (forallb is_integer (dropna vs)); now intros H; injection H as <-.
Qed.

Lemma one_hot_no_missing (cs : list (string * column)) :
  forall ic, In ic (flat_map one_hot cs) -> missing_cells (snd ic) = 0.
Proof.
  intros ic Hin. apply in_flat_map in Hin. destruct Hin as ([n c] & _ & Hin).
  destruct c as [vs|t vs]; [|destruct Hin].
  apply one_hot_In in Hin. destruct Hin as (c & _ & ->). simpl.
  unfold indicator. induction vs as [|v vs IH]; simpl; [reflexivity | exact IH].
Qed.


(** ** Reindexing *)

Lemma get_loc_nth (idx : list nat) (k : nat) :
  NoDup idx -> k < length idx -> get_loc (nth k idx 0) idx = Some k.
Proof.
  revert k. induction idx as [|l idx IH]; intros k Hnd Hk; simpl in Hk; [lia|].
  inversion Hnd as [|? ? Hnotin Hnd']; subst.
  destruct k as [|k]; simpl.
  - now rewrite Nat.eqb_refl.
  - destruct (Nat.eqb (nth k idx 0) l) eqn:E.
    + apply Nat.eqb_eq in E. exfalso. apply Hnotin. rewrite <- E. apply nth_In. lia.
    + rewrite IH by (assumption || lia). reflexivity.
Qed.

Lemma get_loc_absent (idx : list nat) (l : nat) : ~ In l idx -> get_loc l idx = None.
Proof.
  induction idx as [|m idx IH]; simpl; intros H; [reflexivity|].
  destruct (Nat.eqb l m) eqn:E.
  - apply Nat.eqb_eq in E. exfalso. apply H. now left.
  - rewrite IH; [reflexivity|]. intros Hin. apply H. now right.
Qed.

Lemma get_loc_seq (n s l : nat) :
  get_loc l (seq s n) = if (s <=? l) && (l <? s + n) then Some (l - s) else None.
Proof.
  revert s. induction n as [|n IH]; intros s; simpl.
  - destruct (s <=? l) eqn:E1; [|reflexivity].
    destruct (l <? s + 0) eqn:E2; [|reflexivity].
    apply Nat.leb_le in E1. apply Nat.ltb_lt in E2. lia.
  - destruct (Nat.eqb l s) eqn:E.
    + apply Nat.eqb_eq in E. subst. rewrite Nat.leb_refl.
      rewrite (proj2 (Nat.ltb_lt s (s + S n))) by lia. now rewrite Nat.sub_diag.
    + apply Nat.eqb_neq in E. rewrite IH.
      destruct (S s <=? l) eqn:E1.
      * apply Nat.leb_le in E1. rewrite (proj2 (Nat.leb_le s l)) by lia.
        replace (S s + n) with (s + S n) by lia.
        destruct (l <? s + S n); simpl; [|reflexivity].
        f_equal. lia.
      * apply Nat.leb_gt in E1. simpl.
        destruct (s <=? l) eqn:E2; [|reflexivity].
        apply Nat.leb_le in E2. lia.
Qed.

Lemma get_loc_range (n l : nat) :
  get_loc l (seq 0 n) = if l <? n then Some l else None.
Proof. rewrite get_loc_seq. simpl. now rewrite Nat.sub_0_r. Qed.

Lemma reindex_nth {A : Type} (old new : list nat) (vs : list (option A)) (k l : nat) :
  nth_error new k = Some l ->
  nth k (reindex old new vs) None =
  match get_loc l old with Some j => nth j vs None | None => None end.
Proof.
  intros Hk. unfold reindex.
  assert (Hlt : k < length new) by (apply nth_error_Some; congruence).
  rewrite (nth_indep _ None
             (match get_loc 0 old with Some j => nth j vs None | None => None end))
    by (now rewrite length_map).
  rewrite (map_nth (fun lbl => match get_loc lbl old with
                               | Some j => nth j vs None | None => None end)).
  now rewrite (nth_error_nth _ _ _ Hk).
Qed.

Lemma cell_at_reindex (old new : list nat) (c : column) (k l : nat) :
  nth_error new k = Some l ->
  cell_at k (reindex_col old new c) =
  match get_loc l old with
  | Some j => cell_at j c
  | None => match c with ObjCol _ => StrCell None | NumCol _ _ => NumCell None end
  end.
Proof.
  intros Hk. destruct c as [vs|t vs]; simpl.
  - rewrite (reindex_nth _ _ _ _ _ Hk). now destruct (get_loc l old).
  - rewrite (reindex_nth (A:=R) _ _ _ _ _ Hk). now destruct (get_loc l old).
Qed.

Lemma encode_misaligned (df out : DataFrame) :
  encode df = Ok out -> object_columns df <> [] -> index df <> seq 0 (nrows df) ->
  NoDup (index df) /\
  columns out =
    map (fun nc => (fst nc, reindex_col (index df) (index out) (snd nc)))
      (numeric_columns df) ++
    map (fun nc => (fst nc, reindex_col (seq 0 (nrows df)) (index out) (snd nc)))
      (flat_map one_hot (object_columns df)).
Proof.
  intros H Hne Hidx. pose proof (encode_index _ _ H Hne) as Hi.
  rewrite encode_outcome in H.
  destruct (object_columns df) as [|oc ocs]; [congruence|].
  destruct (nrows df =? 0); [discriminate|].
  unfold concat_axis1 in H. cbn [index drop_object_columns columns] in H.
  destruct (index_eqb (index df) (seq 0 (nrows df))) eqn:E.
  - apply index_eqb_eq in E. congruence.
  - destruct (is_unique (index df)) eqn:U; [|discriminate].
    destruct (is_unique (seq 0 (nrows df))); [|discriminate].
    cbn [andb] in H. injection H as <-. cbn [columns index].
    split; [now apply is_unique_NoDup | reflexivity].
Qed.


(** ** File names *)

Lemma json_is_not_supported (s : string) :
  endswith s ".json" = true -> supported s = false.
Proof.
  unfold supported. induction s as [|a s IH]; [discriminate|].
  cbn [endswith].
  destruct (String.eqb (String a s) ".json") eqn:E.
  - apply String.eqb_eq in E. injection E as -> ->. reflexivity.
  - intros H. specialize (IH H). apply orb_false_iff in IH. destruct IH as [I1 I2].
    rewrite I1, I2.
    destruct (String.eqb (String a s) ".csv") eqn:E1.
    { apply String.eqb_eq in E1. injection E1 as _ ->. discriminate H. }
    destruct (String.eqb (String a s) ".xlsx") eqn:E2.
    { apply String.eqb_eq in E2. injection E2 as _ ->. discriminate H. }
    reflexivity.
Qed.

(** ** Slices *)

Lemma slice_stop_all (stop : Z) (n : nat) : (Z.of_nat n <= stop)%Z -> slice_stop stop n = n.
Proof.
  intros H. unfold slice_stop.
  destruct (stop <? 0)%Z eqn:E; [apply Z.ltb_lt in E; lia|]. lia.
Qed.

Lemma iloc_all_columns (rows cols : Z) (df : DataFrame) :
  (Z.of_nat (length (columns df)) <= cols)%Z -> iloc rows cols df = head rows df.
Proof.
  intros H. unfold iloc, head. now rewrite (slice_stop_all _ _ H), firstn_all.
Qed.

(** ** The handlers *)

Section ServiceFacts.

Variable contents : Type.
Variable read_csv read_excel : contents -> option DataFrame.
Variable to_csv : DataFrame -> option string.
Variable na_encodable : bool.

Lemma upload_unsupported (filename : string) (file : contents) (dataset : option DataFrame) :
  supported (strip filename) = false ->
  upload_file contents read_csv read_excel na_encodable filename file dataset =
  (Failure 500 (ErrorProcessingFile (HTTPException 400 OnlyCsvXlsx)), dataset).
Proof.
  intros H. unfold upload_file, try_except, upload_file_body. now rewrite H.
Qed.

Lemma upload_status (filename : string) (file : contents) (dataset : option DataFrame) :
  status (fst (upload_file contents read_csv read_excel na_encodable filename file dataset)) = 200 \/
  status (fst (upload_file contents read_csv read_excel na_encodable filename file dataset)) = 500.
Proof.
  unfold upload_file, try_except, upload_file_body.
  destruct (negb (supported (strip filename))); [now right|].
  destruct (if endswith (strip filename) ".csv" then read_csv file else read_excel file)
    as [df|]; [|now right].
  destruct (preprocess_data df) as [[out|e] s]; [|now right].
  destruct (jsonable_encoder na_encodable (to_dict_records (head 5 out))) as [p|e];
    [|now right].
  destruct (render p) as [p'|e]; [now left | now right].
Qed.

Lemma upload_dataset (filename : string) (file : contents) (dataset : option DataFrame) :
  snd (upload_file contents read_csv read_excel na_encodable filename file dataset) =
  match loaded contents read_csv read_excel (PostUpload filename file) with
  | Some df => Some (stored df)
  | None => dataset
  end.
Proof.
  unfold upload_file, try_except, upload_file_body, loaded, stored.
  destruct (supported (strip filename)); [|reflexivity]. cbn [negb].
  destruct (if endswith (strip filename) ".csv" then read_csv file else read_excel file)
    as [df|]; [|reflexivity].
  destruct (preprocess_data df) as [[out|e] s]; [|reflexivity].
  destruct (jsonable_encoder na_encodable (to_dict_records (head 5 out))) as [p|e];
    [|reflexivity].
  now destruct (render p) as [p'|e].
Qed.

Lemma serve_dataset (r : request contents) (dataset : option DataFrame) :
  snd (serve contents read_csv read_excel to_csv na_encodable r dataset) =
  match loaded contents read_csv read_excel r with
  | Some df => Some (stored df)
  | None => dataset
  end.
Proof.
  destruct r as [|filename file|rows cols| |]; cbn [serve].
  - reflexivity.
  - apply upload_dataset.
  - cbn [loaded]. unfold show_columns, with_dataset, rendered, try_except.
    destruct dataset as [df|]; [|reflexivity].
    destruct (jsonable_encoder na_encodable (to_dict_records (iloc rows cols df))) as [rs|e];
      [|reflexivity].
    now destruct (render rs).
  - cbn [loaded]. unfold get_shape, with_dataset. now destruct dataset.
  - cbn [loaded]. unfold download_cleaned, with_dataset, try_except.
    destruct dataset as [df|]; [|reflexivity]. now destruct (to_csv df).
Qed.

Lemma serve_all_dataset (rs : list (request contents)) (dataset : option DataFrame) :
  snd (serve_all contents read_csv read_excel to_csv na_encodable rs dataset) = None <->
  dataset = None /\ Forall (fun r => loaded contents read_csv read_excel r = None) rs.
Proof.
  revert dataset. induction rs as [|r rs IH]; intros dataset; simpl.
  - split; [intros H; split; [exact H | constructor] | tauto].
  - pose proof (serve_dataset r dataset) as Hs.
    destruct (serve contents read_csv read_excel to_csv na_encodable r dataset) as [a d'].
    cbn [snd] in Hs. specialize (IH d').
    destruct (serve_all contents read_csv read_excel to_csv na_encodable rs d') as [answers d''].
    cbn [snd] in *. rewrite IH. subst d'.
    destruct (loaded contents read_csv read_excel r) as [df|] eqn:El.
    + split; [intros [H _]; discriminate|].
      intros [_ H]. inversion H; subst. congruence.
    + split.
      * intros [H1 H2]. split; [exact H1 | now constructor].
      * intros [H1 H2]. inversion H2; subst. now split.
Qed.

Lemma upload_success (filename : string) (file : contents) (dataset dataset' : option DataFrame)
    (b : body) :
  upload_file contents read_csv read_excel na_encodable filename file dataset =
    (Success b, dataset') ->
  exists df out s,
    loaded contents read_csv read_excel (PostUpload filename file) = Some df /\
    preprocess_data df = (Ok out, s) /\
    dataset' = Some out /\
    b = Uploaded (nrows out) (length (columns out)) (to_dict_records (head 5 out)) /\
    jsonable_encoder na_encodable (to_dict_records (head 5 out)) =
      Ok (to_dict_records (head 5 out)) /\
    holds is_NaNValue (to_dict_records (head 5 out)) = false.
Proof.
  unfold upload_file, try_except, upload_file_body, loaded.
  destruct (supported (strip filename)); [|discriminate]. cbn [negb].
  destruct (if endswith (strip filename) ".csv" then read_csv file else read_excel file)
    as [df|]; [|discriminate].
  destruct (preprocess_data df) as [[out|e] s] eqn:Hp; [|discriminate].
  destruct (jsonable_encoder na_encodable (to_dict_records (head 5 out))) as [p|e] eqn:Hj;
    [|discriminate].
  assert (p = to_dict_records (head 5 out)).
  { unfold jsonable_encoder in Hj. destruct (_ && _); [discriminate | now injection Hj]. }
  subst p. unfold render.
  destruct (holds is_NaNValue (to_dict_records (head 5 out))) eqn:Hn; [discriminate|].
  intros H. injection H as <- <-. exists df, out, s. repeat split; assumption.
Qed.

End ServiceFacts.

(** ** An upload that is answered with 200 *)

Lemma single_city_upload :
  upload_file unit (fun _ => Some single_city) (fun _ => None) true " data.csv" tt None =
  (Success (Uploaded 3 1 (to_dict_records (head 5 single_city_encoded))),
   Some single_city_encoded).
Proof.
  unfold upload_file, try_except, upload_file_body.
  replace (strip " data.csv") with "data.csv"%string by reflexivity.
  replace (supported "data.csv") with true by reflexivity.
  replace (endswith "data.csv" ".csv") with true by reflexivity.
  cbn [negb]. rewrite (proj2 single_city_run).
  unfold single_city_encoded. rewrite single_city_standardized.
  reflexivity.
Qed.

(** ** Records *)

Lemma dict_get_set {V : Type} (k k' : string) (v : V) (d : list (string * V)) :
  dict_get k (dict_set k' v d) = if String.eqb k k' then Some v else dict_get k d.
Proof.
  induction d as [|[k0 v0] d IH]; simpl.
  - reflexivity.
  - destruct (String.eqb k' k0) eqn:E; simpl.
    + apply String.eqb_eq in E. subst k0. now destruct (String.eqb k k').
    + rewrite IH. destruct (String.eqb k k0) eqn:E0; [|reflexivity].
      apply String.eqb_eq in E0. subst k0.
      destruct (String.eqb k k') eqn:E1; [|reflexivity].
      apply String.eqb_eq in E1. subst k'. rewrite String.eqb_refl in E. discriminate.
Qed.

Lemma dict_get_In {V : Type} (k : string) (v : V) (d : list (string * V)) :
  dict_get k d = Some v -> In (k, v) d.
Proof.
  induction d as [|[k0 v0] d IH]; simpl; [discriminate|].
  destruct (String.eqb k k0) eqn:E.
  - apply String.eqb_eq in E. subst k0. intros H. injection H as ->. now left.
  - intros H. right. now apply IH.
Qed.

Lemma dict_get_fold_absent {A V : Type} (key : A -> string) (val : A -> V) (k : string)
    (l : list A) (d : list (string * V)) :
  ~ In k (map key l) ->
  dict_get k (fold_left (fun d a => dict_set (key a) (val a) d) l d) = dict_get k d.
Proof.
  revert d. induction l as [|a l IH]; intros d H; simpl; [reflexivity|].
  rewrite IH by (intros Hin; apply H; now right).
  rewrite dict_get_set. destruct (String.eqb k (key a)) eqn:E; [|reflexivity].
  apply String.eqb_eq in E. exfalso. apply H. now left.
Qed.

Lemma dict_get_fold {A V : Type} (key : A -> string) (val : A -> V) (k : string)
    (l : list A) (d : list (string * V)) (p : nat) (a : A) :
  nth_error l p = Some a -> key a = k ->
  count_occ string_dec (map key l) k = 1 ->
  dict_get k (fold_left (fun d a => dict_set (key a) (val a) d) l d) = Some (val a).
Proof.
  revert d p. induction l as [|a0 l IH]; intros d p Hp Hk Hc; [now destruct p|].
  simpl in Hc |- *. destruct (string_dec (key a0) k) as [E|E].
  - assert (Hnot : ~ In k (map key l)).
    { apply (count_occ_not_In string_dec). lia. }
    rewrite (dict_get_fold_absent _ _ _ _ _ Hnot), dict_get_set.
    destruct p as [|p]; simpl in Hp.
    + injection Hp as ->. rewrite <- E. now rewrite String.eqb_refl.
    + exfalso. apply Hnot. rewrite <- Hk. apply in_map. eapply nth_error_In. exact Hp.
  - destruct p as [|p]; simpl in Hp; [injection Hp as ->; congruence|].
    now apply (IH _ p).
Qed.

Lemma nth_firstn {B : Type} (i r : nat) (l : list B) (d : B) :
  i < r -> nth i (firstn r l) d = nth i l d.
Proof.
  revert i r. induction l as [|v l IH]; intros i r Hi.
  - now rewrite firstn_nil.
  - destruct r as [|r]; [lia|]. destruct i as [|i]; [reflexivity|].
    simpl. apply IH. lia.
Qed.

Lemma take_col_value (r i : nat) (c : column) :
  i < r -> value_at i (take_col r c) = value_at i c.
Proof.
  intros Hi. destruct c as [vs|[] vs]; cbn [take_col value_at];
    now rewrite (nth_firstn i r vs None Hi).
Qed.

Lemma record_at_head (n : Z) (df : DataFrame) (i : nat) :
  i < slice_stop n (nrows df) -> record_at (head n df) i = record_at df i.
Proof.
  intros Hi. unfold record_at, head. cbn [columns].
  generalize (@nil (string * value)).
  induction (columns df) as [|[m c] cs IH]; intros d; simpl; [reflexivity|].
  rewrite IH. now rewrite (take_col_value _ _ _ Hi).
Qed.

Lemma record_at_value (df : DataFrame) (i p : nat) (n : string) (c : column) :
  nth_error (columns df) p = Some (n, c) ->
  count_occ string_dec (labels df) n = 1 ->
  In (n, value_at i c) (record_at df i).
Proof.
  intros Hp Hc. apply dict_get_In. unfold record_at.
  exact (dict_get_fold fst (fun nc => value_at i (snd nc)) n (columns df) [] p (n, c)
           Hp eq_refl Hc).
Qed.

(** The closing loop has found every float64 column of its result under a
    label of its own. *)
Lemma restored_float_label (d out : DataFrame) (p : nat) (n : string) (vs : list float) :
  restore_integer_columns d = (Ok tt, out) ->
  nth_error (columns out) p = Some (n, NumCol float64 vs) ->
  count_occ string_dec (labels out) n = 1.
Proof.
  intros Hr Hp. destruct (restore_pass _ _ _ Hr) as [_ Hsteps].
  pose proof (Forall2_stepped_labels _ _ _ _ Hsteps) as Hl.
  unfold labels. rewrite Hl. fold (labels d).
  apply (for_each_ok_unique _ _ _ _ _ Hr).
  assert (Hd : exists c, nth_error (columns d) p = Some (n, c) /\ is_float c = true).
  { clear - Hsteps Hp. revert p Hp.
    induction Hsteps as [|a b cs cs' [Hn Hab] _ IH]; intros p Hp; [now destruct p|].
    destruct p as [|p]; simpl in Hp |- *.
    - injection Hp as Hb. destruct a as [na ca]. rewrite Hb in *. cbn [fst snd] in *.
      subst na. exists ca. split; [reflexivity|].
      destruct (is_float ca) eqn:E; [reflexivity|]. subst ca. discriminate E.
    - now apply IH. }
  destruct Hd as (c & Hd & Hf). unfold select_dtypes.
  apply in_map_iff. exists (n, c). split; [reflexivity|].
  apply filter_In. split; [eapply nth_error_In; exact Hd | exact Hf].
Qed.

Lemma preprocess_data_restored (df out s : DataFrame) :
  preprocess_data df = (Ok out, s) ->
  exists d, restore_integer_columns d = (Ok tt, out).
Proof.
  intros H. apply preprocess_data_ok in H.
  destruct H as (s1 & s2 & s3 & s4 & _ & _ & _ & _ & [[_ Hr]|(d & _ & Hr)]);
    eexists; exact Hr.
Qed.

Lemma holds_NaN_in_head (out : DataFrame) (p k : nat) (n : string) (vs : list float) :
  nth_error (columns out) p = Some (n, NumCol float64 vs) ->
  count_occ string_dec (labels out) n = 1 ->
  nth_error vs k = Some None -> k < 5 -> k < nrows out ->
  holds is_NaNValue (to_dict_records (head 5 out)) = true.
Proof.
  intros Hp Hc Hk H5 Hrows. unfold holds. apply existsb_exists.
  assert (Hs : k < slice_stop 5 (nrows out)).
  { unfold slice_stop. change (5 <? 0)%Z with false. cbv iota.
    change (Z.to_nat 5) with 5. lia. }
  exists (record_at out k). split.
  - unfold to_dict_records. apply in_map_iff. exists k. split.
    + now apply record_at_head.
    + apply in_seq. unfold nrows at 1, head. cbn [index]. rewrite length_firstn.
      fold (nrows out). lia.
  - apply existsb_exists. exists (n, NaNValue). split; [|reflexivity].
    pose proof (record_at_value out k p n _ Hp Hc) as Hin.
    assert (Hv : value_at k (NumCol float64 vs) = NaNValue).
    { cbn [value_at]. unfold float in *. now rewrite (nth_error_nth _ _ None Hk). }
    now rewrite Hv in Hin.
Qed.

(** ** The scenario, to the end *)

Lemma sqrt_350_bounds : (18 < sqrt 350 < 19)%R.
Proof.
  split.
  - replace 18%R with (sqrt 324).
    + apply sqrt_lt_1; lra.
    + apply sqrt_lem_1; lra.
  - replace 19%R with (sqrt 361).
    + apply sqrt_lt_1; lra.
    + apply sqrt_lem_1; lra.
Qed.

Lemma scenario_mean : mean [Some 25; Some 40; Some 70]%R = Some 45%R.
Proof.
  unfold mean. cbn [dropna]. f_equal. cbn [Rsum fold_right length]. simpl INR. lra.
Qed.

Lemma scenario_pstd : pstd [Some 25; Some 40; Some 70]%R = Some (sqrt 350).
Proof.
  unfold pstd, pvar. rewrite scenario_mean.
  cbn [dropna map Rsum fold_right length fsqrt option_map].
  do 2 f_equal. simpl INR. lra.
Qed.

Lemma scenario_standardized :
  standard_scale [Some 25; Some 40; Some 70]%R =
  [Some ((25 - 45) / sqrt 350); Some ((40 - 45) / sqrt 350);
   Some ((70 - 45) / sqrt 350)]%R.
Proof.
  rewrite (standard_scale_eq _ 45 (sqrt 350)).
  - reflexivity.
  - exact scenario_mean.
  - rewrite scenario_pstd. simpl.
    pose proof sqrt_350_bounds as [H _].
    rewrite (proj2 (Reqb_neq _ _)); [reflexivity | lra].
Qed.

Lemma scenario_not_integral : is_integer ((25 - 45) / sqrt 350) = false.
Proof.
  pose proof sqrt_350_bounds as [Hlo Hhi].
  assert (Hinv : (/ 19 < / sqrt 350 < / 18)%R).
  { split; apply Rinv_lt_contravar; try assumption; apply Rmult_lt_0_compat; lra. }
  assert (Hz : (-2 < (25 - 45) / sqrt 350 < -1)%R).
  { unfold Rdiv at 1 2. lra. }
  unfold is_integer. rewrite (Zfloor_eq (-2)) by lra.
  apply Reqb_neq. lra.
Qed.

Lemma scenario_restoring :
  restore_integer_columns scenario_encoded = (Ok tt, scenario_restored).
Proof.
  unfold restore_integer_columns.
  rewrite (for_each_unique_labels _ _ _ scenario_encoded_unique_labels).
  unfold scenario_encoded, scenario_restored.
  cbn [columns index map_cols is_float restore_column].
  rewrite scenario_standardized. cbn [reindex map get_loc Nat.eqb option_map nth dropna forallb].
  rewrite scenario_not_integral.
  change 1%R with (IZR 1). change 0%R with (IZR 0). rewrite !is_integer_IZR.
  reflexivity.
Qed.

Lemma scenario_result : preprocess_data scenario = (Ok scenario_restored, scenario_numeric).
Proof.
  unfold preprocess_data, bind.
  rewrite scenario_imputation, scenario_deduplication, scenario_outliers,
    scenario_scaling, scenario_encoding, scenario_restoring. reflexivity.
Qed.

(** ** The figures of the summary *)

Lemma select_negb_length {A : Type} (dup : list bool) (l : list A) :
  length l = length dup ->
  length (select (map negb dup) l) + length (filter (fun b : bool => b) dup) = length l.
Proof.
  revert l. induction dup as [|b dup IH]; intros [|x l] H; simpl in *;
    try discriminate; [reflexivity|].
  injection H as H. specialize (IH l H). destruct b; simpl; lia.
Qed.

Lemma no_true_all_false (l : list bool) :
  length (filter (fun b : bool => b) l) = 0 -> l = repeat false (length l).
Proof.
  induction l as [|[] l IH]; simpl; intros H; [reflexivity | discriminate|].
  now rewrite <- IH.
Qed.

Lemma np_where_idle (r : R) (s : list float) (mask : list bool) :
  mask = repeat false (length s) -> np_where mask r s = s.
Proof.
  intros ->. induction s as [|x s IH]; simpl; [reflexivity | now rewrite IH].
Qed.

Lemma outlier_mask_length (s : list float) : length (outlier_mask s) = length s.
Proof. unfold outlier_mask. apply length_map. Qed.

Lemma outliers_values_mask (s : list float) :
  outliers_values s =
  match py_round (median s) with
  | Ok r => Ok (np_where (outlier_mask s) (IZR r) s)
  | Raise e => Raise e
  end.
Proof. reflexivity. Qed.

Lemma impute_column_full (c : column) :
  isnull_sum c = 0 -> column_length c <> 0 -> impute_column c = Ok c.
Proof.
  destruct c as [vs|t vs]; cbn [isnull_sum column_length impute_column]; intros Hm Hl.
  - apply length_zero_iff_nil in Hm.
    assert (Hne : vs <> []) by (intros ->; now apply Hl).
    destruct (first_mode_ok _ (dropna_full _ Hm Hne)) as [m ->].
    now rewrite (fillna_full _ _ Hm).
  - apply length_zero_iff_nil in Hm. now rewrite (fillna_full _ _ Hm).
Qed.

Lemma outliers_column_idle (c : column) :
  isnull_sum c = 0 -> column_length c <> 0 ->
  (forall t s, c = NumCol t s -> outlier_count s = 0) ->
  outliers_column c = Ok c.
Proof.
  destruct c as [vs|t vs]; cbn [isnull_sum column_length outliers_column];
    intros Hm Hl Ho; [reflexivity|].
  apply length_zero_iff_nil in Hm.
  assert (Hne : vs <> []) by (intros ->; now apply Hl).
  rewrite outliers_values_mask.
  destruct (median_some _ (dropna_full _ Hm Hne)) as [med ->]. cbn [py_round].
  rewrite np_where_idle; [reflexivity|].
  rewrite <- outlier_mask_length. apply no_true_all_false. exact (Ho _ _ eq_refl).
Qed.

Lemma remove_duplicates_idle (df : DataFrame) :
  rectangular df -> duplicate_count df = 0 -> remove_duplicates df = (Ok tt, df).
Proof.
  intros Hrect Hd. destruct (empty df) eqn:E; [now apply remove_duplicates_empty|].
  rewrite (remove_duplicates_kept _ Hrect). unfold kept. rewrite E.
  unfold duplicate_count in Hd. rewrite E in Hd.
  rewrite (no_true_all_false _ Hd), duplicated_length, rows_length, map_negb_repeat_false.
  destruct df as [idx cs]. unfold nrows in *. cbn [index columns] in *. f_equal.
  rewrite select_all_true by reflexivity. f_equal.
  erewrite map_ext_in; [apply map_id|].
  intros [n c] Hin. cbn [fst snd]. f_equal.
  pose proof (Hrect _ Hin) as Hc. cbn [snd index] in Hc.
  destruct c as [vs|t vs]; simpl in *; now rewrite select_all_true.
Qed.

(** ** Dicts built in a loop *)

Lemma dict_get_loop_absent {A V : Type} (key : A -> string) (upd : A -> option V)
    (k : string) (l : list A) (d : list (string * V)) :
  ~ In k (map key l) ->
  dict_get k (fold_left (fun d a => match upd a with
                                    | Some v => dict_set (key a) v d
                                    | None => d
                                    end) l d) = dict_get k d.
Proof.
  revert d. induction l as [|a l IH]; intros d H; simpl; [reflexivity|].
  rewrite IH by (intros Hin; apply H; now right).
  destruct (upd a) as [v|]; [|reflexivity].
  rewrite dict_get_set. destruct (String.eqb k (key a)) eqn:E; [|reflexivity].
  apply String.eqb_eq in E. exfalso. apply H. now left.
Qed.

Lemma dict_get_loop {A V : Type} (key : A -> string) (upd : A -> option V)
    (k : string) (l : list A) (d : list (string * V)) (a : A) :
  In a l -> key a = k -> NoDup (map key l) ->
  dict_get k (fold_left (fun d a => match upd a with
                                    | Some v => dict_set (key a) v d
                                    | None => d
                                    end) l d) =
  match upd a with Some v => Some v | None => dict_get k d end.
Proof.
  revert d. induction l as [|a0 l IH]; intros d Hin Hk Hnd; [destruct Hin|].
  inversion Hnd as [|? ? Hnotin Hnd']; subst. simpl.
  destruct Hin as [->|Hin].
  - rewrite (dict_get_loop_absent _ _ _ _ _ Hnotin).
    destruct (upd a) as [v|]; [|reflexivity].
    now rewrite dict_get_set, String.eqb_refl.
  - rewrite (IH _ Hin eq_refl Hnd').
    destruct (upd a) as [v|]; [reflexivity|].
    destruct (upd a0) as [v0|]; [|reflexivity].
    rewrite dict_get_set. destruct (String.eqb (key a) (key a0)) eqn:E; [|reflexivity].
    apply String.eqb_eq in E. exfalso. apply Hnotin. rewrite <- E. now apply in_map.
Qed.

Lemma NoDup_filter_labels (p : string * column -> bool) (cs : list (string * column)) :
  NoDup (map fst cs) -> NoDup (map fst (filter p cs)).
Proof.
  induction cs as [|nc cs IH]; simpl; intros H; [constructor|].
  inversion H as [|? ? Hnotin Hnd]; subst.
  destruct (p nc); [|now apply IH]. simpl. constructor; [|now apply IH].
  intros Hin. apply Hnotin. apply in_map_iff in Hin. destruct Hin as (x & <- & Hx).
  apply filter_In in Hx. apply in_map. tauto.
Qed.

Lemma fold_left_same {A B : Type} (f g : A -> B -> A) (l : list B) (a : A) :
  (forall a b, f a b = g a b) -> fold_left f l a = fold_left g l a.
Proof.
  intros H. revert a. induction l as [|b l IH]; intros a; simpl; [reflexivity|].
  now rewrite H, IH.
Qed.

Lemma outlier_counts_get (df : DataFrame) (n : string) (t : numeric_dtype) (s : list float) :
  unique_labels df -> In (n, NumCol t s) (columns df) ->
  dict_get n (outlier_counts df) = Some (outlier_count s).
Proof.
  intros Hu Hin. unfold outlier_counts.
  rewrite (fold_left_same _
             (fun d nc => match (match snd nc with
                                 | NumCol _ s => Some (outlier_count s)
                                 | ObjCol _ => None
                                 end) with
                          | Some v => dict_set (fst nc) v d
                          | None => d
                          end)).
  - rewrite (dict_get_loop fst _ n _ [] (n, NumCol t s)); [reflexivity | | reflexivity |].
    + apply filter_In. now split.
    + now apply NoDup_filter_labels.
  - intros d [m [vs|t' vs]]; reflexivity.
Qed.

(** ** Values that differ by case *)









(** ** The summary of a table of the examples *)

Lemma single_city_outlier_count : outlier_count [Some 0; Some 1; Some 3]%R = 0.
Proof.
  unfold outlier_count, outlier_mask.
  destruct single_city_quartiles as (Hq1 & Hq3 & _). rewrite Hq1, Hq3.
  cbn [fsub fadd fmul lift2 map fltb]. decide_R. reflexivity.
Qed.

Lemma single_city_duplicate_count : duplicate_count single_city = 0.
Proof. unfold duplicate_count, single_city. simpl. decide_R. reflexivity. Qed.

Lemma single_city_rectangular : rectangular single_city.
Proof. intros nc [<-|[<-|[]]]; reflexivity. Qed.

(** ** Rows that are equal *)

Lemma cell_eqb_eq (a b : cell) : cell_eqb a b = true <-> a = b.
Proof.
  destruct a as [[s|]|[x|]], b as [[s'|]|[y|]]; simpl;
    split; intros H; try discriminate H; try reflexivity.
  - apply String.eqb_eq in H. now subst.
  - injection H as ->. apply String.eqb_refl.
  - apply Reqb_eq in H. now subst.
  - injection H as ->. now apply Reqb_eq.
Qed.

Lemma row_eqb_eq (r r' : list cell) : row_eqb r r' = true <-> r = r'.
Proof.
  revert r'. induction r as [|a r IH]; intros [|b r']; simpl;
    split; intros H; try discriminate H; try reflexivity.
  - apply andb_true_iff in H. destruct H as [Ha Hr].
    apply cell_eqb_eq in Ha. apply IH in Hr. now subst.
  - injection H as -> ->. apply andb_true_iff. split;
      [now apply cell_eqb_eq | now apply IH].
Qed.

(** Every row of a table is equal to a row that the deduplicator keeps. *)
Lemma kept_representative (df : DataFrame) (i : nat) :
  i < nrows df ->
  exists j, j <= i /\ nth j (kept df) false = true /\ row df j = row df i.
Proof.
  destruct (empty df) eqn:E.
  - intros Hi. exists i. split; [lia|]. split; [|reflexivity].
    unfold kept. rewrite E. now rewrite nth_repeat_lt.
  - induction i as [i IH] using lt_wf_ind. intros Hi.
    pose proof (kept_spec df i E Hi) as Hk.
    rewrite (nth_indep _ true false) in Hk by (now rewrite kept_length).
    destruct (existsb (row_eqb (row df i)) (firstn i (rows df))) eqn:Ex.
    + apply existsb_exists in Ex. destruct Ex as (r & Hr & Heq).
      apply row_eqb_eq in Heq.
      apply In_nth_error in Hr. destruct Hr as [j Hj].
      assert (Hji : j < i).
      { assert (H : j < length (firstn i (rows df))) by (apply nth_error_Some; congruence).
        rewrite length_firstn in H. lia. }
      rewrite nth_error_firstn in Hj.
      rewrite (proj2 (Nat.ltb_lt j i) Hji) in Hj.
      apply (nth_error_nth _ _ []) in Hj. rewrite rows_nth in Hj by lia.
      destruct (IH j Hji ltac:(lia)) as (j' & Hle & Hkept & Hrow).
      exists j'. split; [lia|]. split; [exact Hkept | congruence].
    + exists i. split; [lia|]. split; [now rewrite Hk | reflexivity].
Qed.

Lemma row_cell (df : DataFrame) (i j : nat) (nc : string * column) :
  row df j = row df i -> In nc (columns df) -> cell_at j (snd nc) = cell_at i (snd nc).
Proof.
  unfold row. intros H Hin.
  exact (proj1 map_ext_in_iff H nc Hin).
Qed.

Lemma select_In_kept {A : Type} (mask : list bool) (l : list A) (j : nat) (d : A) :
  nth j mask false = true -> j < length l -> In (nth j l d) (select mask l).
Proof.
  revert l j. induction mask as [|b mask IH]; intros l j Hm Hj.
  - now destruct j.
  - destruct l as [|x l]; [simpl in Hj; lia|].
    destruct j as [|j]; simpl in Hm.
    + subst b. now left.
    + simpl in Hj. destruct b; simpl; [right|]; apply IH; (assumption || lia).
Qed.

Lemma select_incl {A : Type} (mask : list bool) (l : list A) (x : A) :
  In x (select mask l) -> In x l.
Proof.
  revert l. induction mask as [|b mask IH]; intros l H.
  - destruct l; destruct H.
  - destruct l as [|y l]; [destruct b; destruct H|].
    destruct b; simpl in H.
    + destruct H as [->|H]; [now left | right; now apply IH].
    + right. now apply IH.
Qed.

(** The deduplicator keeps every value of every column. *)
Lemma kept_values {A : Type} (df : DataFrame) (nc : string * column)
    (vs : list (option A)) (x : A) (wrap : option A -> cell) :
  (forall a b, wrap a = wrap b -> a = b) ->
  (forall i, cell_at i (snd nc) = wrap (nth i vs None)) ->
  In nc (columns df) -> length vs = nrows df ->
  (In (Some x) (select (kept df) vs) <-> In (Some x) vs).
Proof.
  intros Hw Hc Hin Hlen. split; [apply select_incl|].
  intros Hx. apply (In_nth _ _ None) in Hx. destruct Hx as (i & Hi & Hx).
  destruct (kept_representative df i ltac:(lia)) as (j & Hle & Hkept & Hrow).
  pose proof (row_cell _ _ _ _ Hrow Hin) as Hcell. rewrite !Hc in Hcell.
  apply Hw in Hcell. rewrite <- Hx, <- Hcell.
  apply select_In_kept; [exact Hkept | lia].
Qed.

Lemma kept_strings (df : DataFrame) (n : string) (vs : list (option string)) (x : string) :
  rectangular df -> In (n, ObjCol vs) (columns df) ->
  (In (Some x) (select (kept df) vs) <-> In (Some x) vs).
Proof.
  intros Hrect Hin.
  apply (kept_values df (n, ObjCol vs) vs x StrCell); [congruence | reflexivity | exact Hin|].
  exact (Hrect _ Hin).
Qed.

Lemma kept_numbers (df : DataFrame) (n : string) (t : numeric_dtype) (vs : list float) (x : R) :
  rectangular df -> In (n, NumCol t vs) (columns df) ->
  (In (Some x) (select (kept df) vs) <-> In (Some x) vs).
Proof.
  intros Hrect Hin.
  apply (kept_values (A:=R) df (n, NumCol t vs) vs x NumCell);
    [congruence | reflexivity | exact Hin|].
  exact (Hrect _ Hin).
Qed.

Lemma has_value_In (c : column) :
  has_value c = true <->
  match c with
  | ObjCol vs => exists x, In (Some x) vs
  | NumCol _ vs => exists x, In (Some x) vs
  end.
Proof.
  assert (H : forall (A : Type) (vs : list (option A)),
             negb (forallb isNaN vs) = true <-> exists x, In (Some x) vs).
  { intros A vs. induction vs as [|[x|] vs IH]; simpl.
    - split; [discriminate | intros [x []]].
    - split; [intros _; exists x; now left | reflexivity].
    - rewrite IH. split; intros [x Hx]; exists x; [now right|].
      destruct Hx as [Hx|Hx]; [discriminate | exact Hx]. }
  destruct c as [vs|t vs]; apply H.
Qed.

Lemma remove_duplicates_has_value (df : DataFrame) :
  rectangular df ->
  (forall nc, In nc (columns df) -> has_value (snd nc) = true) ->
  forall nc, In nc (columns (snd (remove_duplicates df))) -> has_value (snd nc) = true.
Proof.
  intros Hrect Hv nc Hin. rewrite (remove_duplicates_kept _ Hrect) in Hin.
  cbn [snd columns] in Hin. apply in_map_iff in Hin. destruct Hin as ([n c] & <- & Hin).
  specialize (Hv _ Hin). cbn [snd] in *. apply has_value_In in Hv. apply has_value_In.
  destruct c as [vs|t vs]; cbn [select_col]; destruct Hv as [x Hx]; exists x.
  - now apply (kept_strings df n).
  - now apply (kept_numbers df n t).
Qed.

(** ** Sorted lists without repetition *)

Lemma string_leb_antisym (a b : string) :
  String.leb a b = true -> String.leb b a = true -> a = b.
Proof.
  intros H1 H2. apply string_leb_iff in H1. apply string_leb_iff in H2.
  destruct H1 as [H1|H1]; [exact H1|]. destruct H2 as [H2|H2]; [now symmetry|].
  rewrite String.compare_antisym in H2. rewrite H1 in H2. discriminate.
Qed.

Lemma sorted_same (l l' : list string) :
  StronglySorted (fun a b => String.leb a b = true) l ->
  StronglySorted (fun a b => String.leb a b = true) l' ->
  NoDup l -> NoDup l' -> (forall x, In x l <-> In x l') -> l = l'.
Proof.
  revert l'. induction l as [|x l IH]; intros [|y l'] Hs Hs' Hn Hn' Hin.
  - reflexivity.
  - exfalso. apply (proj2 (Hin y)). now left.
  - exfalso. apply (proj1 (Hin x)). now left.
  - inversion Hs as [|? ? Hsl Hx]; subst. inversion Hs' as [|? ? Hsl' Hy]; subst.
    inversion Hn as [|? ? Hxl Hnl]; subst. inversion Hn' as [|? ? Hyl Hnl']; subst.
    rewrite Forall_forall in Hx, Hy.
    assert (x = y).
    { destruct (proj1 (Hin x) (or_introl eq_refl)) as [E|Hx']; [now symmetry|].
      destruct (proj2 (Hin y) (or_introl eq_refl)) as [E|Hy']; [exact E|].
      apply string_leb_antisym; [now apply Hx | now apply Hy]. }
    subst y. f_equal. apply IH; try assumption.
    intros z. split; intros Hz.
    + destruct (proj1 (Hin z) (or_intror Hz)) as [E|H]; [subst z; contradiction | exact H].
    + destruct (proj2 (Hin z) (or_intror Hz)) as [E|H]; [subst z; contradiction | exact H].
Qed.

Lemma uniques_same (xs ys : list string) :
  (forall x, In x xs <-> In x ys) -> uniques xs = uniques ys.
Proof.
  intros H. apply sorted_same; try apply uniques_sorted; try apply uniques_NoDup.
  intros x. now rewrite !uniques_In.
Qed.

Lemma categories_full (vs : list (option string)) :
  filter isNaN vs = [] -> categories vs = map Some (uniques (dropna vs)).
Proof.
  intros H. unfold categories.
  assert (E : existsb isNaN vs = false).
  { clear - H. induction vs as [|[x|] vs IH]; simpl in *; [reflexivity | now apply IH | discriminate]. }
  rewrite E. apply app_nil_r.
Qed.

Lemma indicator_labels_names (n : string) (vs vs' : list (option string)) :
  filter isNaN vs' = [] -> (forall x, In (Some x) vs' <-> In (Some x) vs) ->
  indicator_labels (n, ObjCol vs') = indicator_names (n, ObjCol vs).
Proof.
  intros Hfull Hsame. unfold indicator_labels, indicator_names. cbn [fst snd].
  rewrite (categories_full _ Hfull).
  rewrite (uniques_same (dropna vs') (dropna vs)) by (intros x; now rewrite !In_dropna).
  destruct (uniques (dropna vs)) as [|u us]; [reflexivity|]. cbn [map tl].
  now rewrite map_map.
Qed.

(** ** Columns before and after the first two stages *)

Lemma cleaned_labels (cs cs' : list (string * column)) :
  Forall2 cleaned cs cs' ->
  map fst (filter (fun nc => negb (is_object (snd nc))) cs') =
    map fst (filter (fun nc => negb (is_object (snd nc))) cs) /\
  flat_map indicator_labels (filter (fun nc => is_object (snd nc)) cs') =
    flat_map indicator_names (filter (fun nc => is_object (snd nc)) cs).
Proof.
  induction 1 as [|[n c] [n' c'] cs cs' [Hn Hc] _ [IH1 IH2]]; [now split|].
  cbn [fst snd] in *. subst n'.
  destruct c as [vs|t vs], c' as [vs'|t' vs']; try contradiction; cbn [filter is_object negb snd].
  - split; [exact IH1|]. cbn [flat_map]. rewrite IH2. f_equal.
    destruct Hc as [Hfull Hsame]. now apply indicator_labels_names.
  - split; [|exact IH2]. cbn [map fst]. now rewrite IH1.
Qed.

Lemma imputed_cleaned (a b : string * column) :
  fst a = fst b -> impute_column (snd a) = Ok (snd b) ->
  fst b = fst a /\
  match snd a, snd b with
  | ObjCol vs, ObjCol vs' =>
      filter isNaN vs' = [] /\ forall x, In (Some x) vs' <-> In (Some x) vs
  | NumCol _ _, NumCol _ _ => True
  | _, _ => False
  end.
Proof.
  intros Hn Hi. split; [now symmetry|].
  destruct (snd a) as [vs|t vs]; simpl in Hi.
  - destruct (first_mode vs) as [m|e] eqn:Hm; [|discriminate].
    injection Hi as <-. split; [apply fillna_no_missing|].
    destruct (first_mode_spec _ _ Hm) as [Hin _]. apply In_dropna in Hin.
    intros x. unfold fillna. rewrite in_map_iff. split.
    + intros ([y|] & E & Hy); injection E as <-; [exact Hy | exact Hin].
    + intros Hx. now exists (Some x).
  - now injection Hi as <-.
Qed.

(** ** The first two stages, column by column *)

Lemma impute_column_length (c c' : column) :
  impute_column c = Ok c' -> column_length c' = column_length c.
Proof.
  destruct c as [vs|t vs]; simpl.
  - destruct (first_mode vs); [|discriminate]. intros H. injection H as <-.
    apply fillna_length.
  - intros H. injection H as <-. apply fillna_length.
Qed.

Lemma impute_column_has_value (c c' : column) :
  impute_column c = Ok c' -> has_value c = true -> has_value c' = true.
Proof.
  intros Hi Hv. apply has_value_In in Hv. apply has_value_In.
  destruct c as [vs|t vs]; simpl in Hi.
  - destruct (first_mode vs); [|discriminate]. injection Hi as <-.
    destruct Hv as [x Hx]. exists x. unfold fillna. apply in_map_iff. now exists (Some x).
  - injection Hi as <-. destruct Hv as [x Hx]. exists x.
    unfold fillna. apply in_map_iff. now exists (Some x).
Qed.

Lemma imputer_steps (df s1 : DataFrame) :
  handle_missing_values df = (Ok tt, s1) ->
  index s1 = index df /\
  Forall2 (fun a b => fst a = fst b /\ impute_column (snd a) = Ok (snd b))
    (columns df) (columns s1).
Proof.
  intros H. pose proof (imputer_ok_unique_labels _ _ _ H) as Hu.
  rewrite (handle_missing_values_pass _ Hu) in H. injection H as Hfst <-.
  split; [reflexivity|]. exact (map_cols_ok _ _ _ Hfst).
Qed.

Lemma imputer_rectangular (df s1 : DataFrame) :
  handle_missing_values df = (Ok tt, s1) -> rectangular df -> rectangular s1.
Proof.
  intros H Hrect. destruct (imputer_steps _ _ H) as [Hi Hsteps].
  unfold rectangular, nrows in *. rewrite Hi. revert Hrect Hsteps.
  generalize (columns s1). generalize (columns df). intros cs cs1 Hrect Hsteps.
  induction Hsteps as [|a b cs cs1 [_ Hab] _ IH]; intros nc Hin; [destruct Hin|].
  destruct Hin as [<-|Hin].
  - rewrite (impute_column_length _ _ Hab). apply Hrect. now left.
  - apply IH; [|exact Hin]. intros x Hx. apply Hrect. now right.
Qed.

Lemma imputer_has_value (df s1 : DataFrame) :
  handle_missing_values df = (Ok tt, s1) ->
  (forall nc, In nc (columns df) -> has_value (snd nc) = true) ->
  forall nc, In nc (columns s1) -> has_value (snd nc) = true.
Proof.
  intros H. destruct (imputer_steps _ _ H) as [_ Hsteps].
  revert Hsteps. generalize (columns s1). generalize (columns df). intros cs cs1 Hsteps.
  induction Hsteps as [|a b cs cs1 [_ Hab] _ IH]; intros Hv nc Hin; [destruct Hin|].
  destruct Hin as [<-|Hin].
  - apply (impute_column_has_value _ _ Hab). apply Hv. now left.
  - apply IH; [|exact Hin]. intros x Hx. apply Hv. now right.
Qed.

Lemma first_stages_cleaned (df s1 : DataFrame) :
  handle_missing_values df = (Ok tt, s1) -> rectangular df ->
  Forall2 cleaned (columns df) (columns (snd (remove_duplicates s1))).
Proof.
  intros H Hrect. pose proof (imputer_rectangular _ _ H Hrect) as Hrect1.
  destruct (imputer_steps _ _ H) as [_ Hsteps].
  rewrite (remove_duplicates_kept _ Hrect1). cbn [snd columns].
  assert (Hsub : forall b, In b (columns s1) -> In b (columns s1)) by auto.
  revert Hsteps Hsub. generalize (columns s1) at 1 2 4. generalize (columns df).
  intros cs cs1 Hsteps.
  induction Hsteps as [|a b cs cs1 [Hn Hab] _ IH]; intros Hsub; [constructor|].
  cbn [map]. constructor; [|apply IH; intros x Hx; apply Hsub; now right].
  destruct (imputed_cleaned a b Hn Hab) as [Hl Hc]. split; [exact Hl|]. cbn [snd].
  pose proof (Hsub b (or_introl eq_refl)) as Hin.
  destruct (snd a) as [vs|t vs], b as [n [vs'|t' vs']]; cbn [snd select_col] in *;
    try contradiction; [|exact I].
  destruct Hc as [Hfull Hsame]. split; [now apply select_no_missing|].
  intros x. rewrite <- Hsame. now apply (kept_strings s1 n).
Qed.

Lemma select_NoDup {A : Type} (mask : list bool) (l : list A) :
  NoDup l -> NoDup (select mask l).
Proof.
  revert l. induction mask as [|b mask IH]; intros l H.
  - destruct l; constructor.
  - destruct l as [|x l]; [destruct b; constructor|].
    inversion H as [|? ? Hx Hl]; subst. destruct b; simpl; [|now apply IH].
    constructor; [|now apply IH]. intros Hin. apply Hx. eapply select_incl. exact Hin.
Qed.

Lemma remove_duplicates_index_unique (df : DataFrame) :
  NoDup (index df) -> NoDup (index (snd (remove_duplicates df))).
Proof.
  intros H. unfold remove_duplicates. destruct (empty df); cbn [snd index]; [exact H|].
  now apply select_NoDup.
Qed.

(** ** The labels of the encoder's result *)

Lemma encode_labels (df out : DataFrame) :
  encode df = Ok out ->
  labels out = map fst (numeric_columns df) ++ flat_map indicator_labels (object_columns df).
Proof.
  intros H. destruct (encode_columns _ _ H) as (g1 & g2 & _ & _ & Hc).
  unfold labels. rewrite Hc, map_app, !map_fst_relabel. now rewrite flat_map_one_hot_labels.
Qed.

Lemma numeric_labels_same (df df' : DataFrame) :
  kinds df' = kinds df -> map fst (numeric_columns df') = map fst (numeric_columns df).
Proof.
  intros K. rewrite <- !select_numeric_columns, !numeric_labels_kinds. now rewrite K.
Qed.

Lemma encode_result_labels (df s1 s2 s3 s4 d : DataFrame) :
  rectangular df ->
  handle_missing_values df = (Ok tt, s1) ->
  remove_duplicates s1 = (Ok tt, s2) ->
  handle_outliers s2 = (Ok tt, s3) ->
  scale_numerical_features s3 = (Ok tt, s4) ->
  encode s4 = Ok d ->
  labels d = result_labels df.
Proof.
  intros Hrect H1 H2 H3 H4 He.
  pose proof (first_stages_cleaned _ _ H1 Hrect) as Hc. rewrite H2 in Hc. cbn [snd] in Hc.
  destruct (cleaned_labels _ _ Hc) as [Hnum Hind].
  destruct (outliers_kinds _ _ _ H3) as (K3 & _ & O3).
  destruct (scale_kinds _ _ _ H4) as (K4 & _ & O4).
  rewrite (encode_labels _ _ He). unfold result_labels.
  rewrite (numeric_labels_same s3 s4 K4), (numeric_labels_same s2 s3 K3), O4, O3.
  unfold numeric_columns, object_columns. now rewrite Hnum, Hind.
Qed.

(** Two columns of the encoder's result under one label: one of them is a
    float64 column. *)
Lemma shared_label_is_float (s4 d s : DataFrame) :
  encode_categorical_variables s4 = (Ok (New d), s) -> NoDup (labels s4) ->
  ~ NoDup (labels d) ->
  exists n, In n (select_dtypes is_float d) /\ count_occ string_dec (labels d) n <> 1.
Proof.
  intros He Hu4 Hdup.
  destruct (encoder_new_frame _ _ _ He) as (g1 & g2 & _ & Hg2 & Hcols).
  assert (Hnum : NoDup (map fst (map (fun nc => (fst nc, g1 (snd nc))) (numeric_columns s4)))).
  { rewrite map_fst_relabel. unfold numeric_columns. now apply NoDup_filter_labels. }
  pose proof (aligned_indicator_is_float g2 (object_columns s4) Hg2) as Hfl.
  unfold labels in *. rewrite Hcols in *. rewrite map_app in *.
  set (A := map (fun nc => (fst nc, g1 (snd nc))) (numeric_columns s4)) in *.
  set (B := map (fun nc => (fst nc, g2 (snd nc))) (flat_map one_hot (object_columns s4))) in *.
  assert (HB : forall n, In n (map fst B) -> In n (select_dtypes is_float d)).
  { intros n Hn. unfold select_dtypes. rewrite Hcols. fold A B.
    apply in_map_iff in Hn. destruct Hn as (ic & <- & Hic).
    apply in_map. apply filter_In. split; [apply in_or_app; now right|].
    rewrite Forall_forall in Hfl. now apply Hfl. }
  destruct (Forall_Exists_dec (fun n => count_occ string_dec (map fst A ++ map fst B) n = 1)
              (fun n => Nat.eq_dec _ 1) (map fst B)) as [Hall|Hsome].
  - exfalso. apply Hdup. rewrite Forall_forall in Hall.
    apply NoDup_count_occ_le. intros n Hn. apply in_app_or in Hn.
    destruct Hn as [Hn|Hn]; [|now apply Hall].
    destruct (in_dec string_dec n (map fst B)) as [HnB|HnB]; [now apply Hall|].
    rewrite count_occ_app.
    apply (count_occ_not_In string_dec) in HnB. rewrite HnB, Nat.add_0_r.
    apply (NoDup_count_occ' string_dec); assumption.
  - apply Exists_exists in Hsome. destruct Hsome as (n & Hn & Hc).
    exists n. split; [now apply HB | exact Hc].
Qed.

Lemma restored_labels_unique (s4 d s out : DataFrame) :
  encode_categorical_variables s4 = (Ok (New d), s) -> NoDup (labels s4) ->
  restore_integer_columns d = (Ok tt, out) -> NoDup (labels d).
Proof.
  intros He Hu4 Hr.
  destruct (ListDec.NoDup_dec string_dec (labels d)) as [H|H]; [exact H|].
  destruct (shared_label_is_float _ _ _ He Hu4 H) as (n & Hn & Hc).
  destruct (restore_raises_on_shared_label d n Hn Hc) as [s' Hs']. congruence.
Qed.

(** ** When [preprocess_data] returns *)

Lemma preprocess_data_labels (df out s : DataFrame) :
  rectangular df -> preprocess_data df = (Ok out, s) ->
  labels out = result_labels df /\ NoDup (result_labels df).
Proof.
  intros Hrect H. apply preprocess_data_ok in H.
  destruct H as (s1 & s2 & s3 & s4 & H1 & H2 & H3 & H4 & Henc).
  pose proof (kinds_through_scaling _ _ _ _ _ H1 H2 H3 H4) as K.
  assert (Hu4 : NoDup (labels s4)).
  { rewrite (kinds_labels _ _ K). exact (imputer_ok_unique_labels _ _ _ H1). }
  assert (Hd : exists d, encode s4 = Ok d /\ restore_integer_columns d = (Ok tt, out) /\
                         NoDup (labels d)).
  { destruct Henc as [[He Hr]|(d & He & Hr)].
    - exists s4. unfold encode. rewrite He. now repeat split.
    - exists d. unfold encode. rewrite He. split; [reflexivity|]. split; [exact Hr|].
      exact (restored_labels_unique _ _ _ _ He Hu4 Hr). }
  destruct Hd as (d & He & Hr & Hnd).
  pose proof (encode_result_labels _ _ _ _ _ _ Hrect H1 H2 H3 H4 He) as Hl.
  destruct (restore_pass _ _ _ Hr) as [_ Hsteps].
  split; [|now rewrite <- Hl].
  unfold labels at 1. rewrite (Forall2_stepped_labels _ _ _ _ Hsteps). exact Hl.
Qed.

Lemma encode_returned (df d : DataFrame) :
  encode df = Ok d ->
  exists r s, encode_categorical_variables df = (Ok r, s) /\
              match r with Self => d = s | New d' => d = d' end.
Proof.
  unfold encode. destruct (encode_categorical_variables df) as [[[|d']|e] s]; intros H.
  - injection H as <-. now exists Self, s.
  - injection H as <-. now exists (New d'), s.
  - discriminate.
Qed.

Lemma preprocess_data_returns (df : DataFrame) :
  well_formed df -> is_unique (index df) = true ->
  (exists nc, In nc (columns df) /\ is_number (snd nc) = true) ->
  (forall nc, In nc (columns df) -> has_value (snd nc) = true) ->
  NoDup (result_labels df) ->
  exists out s, preprocess_data df = (Ok out, s).
Proof.
  intros [Hu Hrect] Hidx (nc0 & Hin0 & Hnum0) Hv Hnd.
  (* the imputer *)
  destruct (imputer_succeeds df Hu) as [s1 H1].
  { apply not_true_is_false. intros E. apply existsb_exists in E.
    destruct E as (nc & Hin & E). unfold empty_object in E.
    rewrite (Hv _ Hin) in E. now rewrite andb_false_r in E. }
  destruct (imputer_kinds _ _ _ H1) as [K1 I1].
  pose proof (imputer_rectangular _ _ H1 Hrect) as Hrect1.
  pose proof (imputer_has_value _ _ H1 Hv) as Hv1.
  (* the deduplicator *)
  destruct (remove_duplicates_kinds s1) as [F2 K2].
  destruct (remove_duplicates s1) as [r2 s2] eqn:H2. cbn [fst snd] in F2, K2. subst r2.
  pose proof (remove_duplicates_rectangular _ Hrect1) as Hrect2.
  pose proof (remove_duplicates_has_value _ Hrect1 Hv1) as Hv2.
  pose proof (remove_duplicates_index_unique s1) as Hi2.
  rewrite H2 in Hrect2, Hv2, Hi2. cbn [snd] in Hrect2, Hv2, Hi2.
  assert (Hu2 : unique_labels s2).
  { unfold unique_labels. rewrite (kinds_labels _ _ K2), (kinds_labels _ _ K1). exact Hu. }
  (* the outlier suppressor *)
  destruct (handle_outliers_succeeds s2 Hu2) as [s3 H3].
  { unfold numeric_columns_have_values. apply forallb_forall. intros nc Hin.
    rewrite (Hv2 _ Hin). apply orb_true_r. }
  destruct (outliers_kinds _ _ _ H3) as (K3 & I3 & _).
  (* the standardizer *)
  assert (Hs : scalable s3 = true).
  { unfold scalable. apply andb_true_iff. split.
    - rewrite (kinds_has_numeric s2 s3 K3), (kinds_has_numeric s1 s2 K2),
        (kinds_has_numeric df s1 K1).
      apply existsb_exists. now exists nc0.
    - apply negb_true_iff, Nat.eqb_neq. unfold nrows. rewrite I3. fold (nrows s2).
      assert (Hex : existsb (fun nc => is_number (snd nc)) (columns s2) = true).
      { rewrite (kinds_has_numeric s1 s2 K2), (kinds_has_numeric df s1 K1).
        apply existsb_exists. now exists nc0. }
      apply existsb_exists in Hex. destruct Hex as (nc & Hin & _).
      rewrite <- (Hrect2 _ Hin). pose proof (Hv2 _ Hin) as Hval.
      destruct (snd nc) as [vs|t vs]; simpl in *; destruct vs; (discriminate || easy). }
  pose proof (scale_outcome s3) as H4. rewrite Hs in H4.
  set (s4 := mkDataFrame (index s3)
               (map (fun nc => (fst nc, scale_column (snd nc))) (columns s3))) in *.
  destruct (scale_kinds _ _ _ H4) as (K4 & I4 & _).
  (* the encoder *)
  assert (Hrows4 : nrows s4 <> 0).
  { apply andb_true_iff in Hs. destruct Hs as [_ Hs].
    apply negb_true_iff, Nat.eqb_neq in Hs. unfold nrows in *. now rewrite I4. }
  assert (Hidx4 : is_unique (index s4) = true).
  { apply is_unique_NoDup. rewrite I4, I3. apply Hi2. rewrite I1.
    now apply is_unique_NoDup. }
  destruct (encode_spec s4 Hrows4 Hidx4) as (d & _ & _ & He & _).
  pose proof (encode_result_labels _ _ _ _ _ _ Hrect H1 H2 H3 H4 He) as Hl.
  assert (Hud : unique_labels d) by (unfold unique_labels; now rewrite Hl).
  destruct (restore_succeeds d Hud) as (out & Hr & _).
  destruct (encode_returned _ _ He) as (r & s & Hr4 & Hrd).
  exists out. rewrite preprocess_data_stages.
  assert (Hst : stages_to_encoder df = (Ok r, s)).
  { unfold stages_to_encoder, bind. now rewrite H1, H2, H3, H4. }
  rewrite Hst. destruct r as [|d']; subst d.
  - rewrite Hr. now exists out.
  - rewrite Hr. now exists s.
Qed.

(** ** The caller's table *)

Lemma encoder_new_state (df d s : DataFrame) :
  encode_categorical_variables df = (Ok (New d), s) ->
  select_dtypes is_object df <> [] /\ s = drop_object_columns df.
Proof.
  unfold encode_categorical_variables.
  destruct (select_dtypes is_object df); [discriminate|].
  destruct (encoded_frame df); [|discriminate].
  destruct (concat_axis1 _ _); [|discriminate].
  intros H. injection H as _ <-. split; [discriminate | reflexivity].
Qed.

Lemma encoder_self_state (df s : DataFrame) :
  encode_categorical_variables df = (Ok Self, s) -> s = df.
Proof.
  unfold encode_categorical_variables.
  destruct (select_dtypes is_object df); [now intros H; injection H as <-|].
  destruct (encoded_frame df); [|discriminate].
  destruct (concat_axis1 _ _); discriminate.
Qed.

(** ** Records of a slice *)









(** ** Whole numbers through the stages *)






(** ** The outlier suppressor on a column without value *)

Lemma outliers_column_raises (c : column) (e : exn) :
  outliers_column c = Raise e ->
  e = ValueError /\ exists t vs, c = NumCol t vs /\ has_value c = false.
Proof.
  destruct c as [vs|t vs]; simpl; [discriminate|].
  destruct (outliers_values vs) as [s'|e'] eqn:Hv; [discriminate|].
  intros H. injection H as <-. destruct (outliers_values_raises _ _ Hv) as [Hd ->].
  split; [reflexivity|]. exists t, vs. split; [reflexivity|].
  apply not_true_is_false. intros Hh.
  apply (has_value_dropna_num t) in Hh. contradiction.
Qed.

Lemma handle_outliers_outcome (df : DataFrame) :
  unique_labels df ->
  fst (handle_outliers df) =
  if numeric_columns_have_values df then Ok tt else Raise ValueError.
Proof.
  intros Hu. destruct (numeric_columns_have_values df) eqn:E.
  - destruct (handle_outliers_succeeds _ Hu E) as [df' ->]. reflexivity.
  - rewrite (handle_outliers_pass _ Hu). cbn [fst].
    destruct (fst (map_cols is_number outliers_column (columns df))) as [[]|e] eqn:Hr.
    + exfalso. unfold numeric_columns_have_values in E.
      assert (E' : forallb (fun nc => is_object (snd nc) || has_value (snd nc)) (columns df) = true);
        [|congruence].
      apply forallb_forall. intros [n c] Hin. cbn [snd].
      destruct c as [vs|t vs]; [reflexivity|]. cbn [is_object orb].
      apply In_nth_error in Hin. destruct Hin as [k Hk].
      destruct (Forall2_stepped_nth _ _ _ _ k n _ (map_cols_ok _ _ _ Hr) Hk) as [c' [_ Hc']].
      cbn [is_number] in Hc'. simpl in Hc'.
      destruct (outliers_values vs) as [s'|e] eqn:Hv; [|discriminate].
      destruct (outliers_values_ok _ _ Hv) as (q1 & _ & _ & Hq & _).
      apply (has_value_dropna_num t). intros Hd. unfold quantile in Hq.
      now rewrite Hd in Hq.
    + apply map_cols_raise in Hr.
      destruct Hr as (pre & pre' & n & c & post & _ & _ & Hf & _).
      apply outliers_column_raises in Hf. now destruct Hf as [-> _].
Qed.

Lemma hollow_unique_labels : unique_labels hollow.
Proof.
  unfold unique_labels, labels. simpl.
  constructor; [simpl; intros [H|[]]; discriminate|].
  constructor; [simpl; tauto | constructor].
Qed.

(** ** Units *)






(** * The claims *)

(** ** The imputer *)

(** C5. For every table (with unique column labels) in which every column
    has at least one non-missing value, [handle_missing_values] returns, and
    no cell of the table it returns holds the missing sentinel. *)
Theorem imputer_leaves_no_missing_cell (df : DataFrame) :
  unique_labels df ->
  (forall nc, In nc (columns df) -> has_value (snd nc) = true) ->
  exists df',
    handle_missing_values df = (Ok tt, df') /\
    forall nc, In nc (columns df') -> missing_cells (snd nc) = 0.
Proof.
  intros Hu Hv. rewrite (handle_missing_values_pass _ Hu).
  assert (Hok : fst (map_cols (fun _ => true) impute_column (columns df)) = Ok tt).
  { apply map_cols_total. intros [n c] Hin _.
    destruct (impute_column_ok c (Hv _ Hin)) as [c' [Hc' _]]. now exists c'. }
  pose proof (map_cols_ok _ _ _ Hok) as Hstep.
  destruct (map_cols (fun _ => true) impute_column (columns df)) as [r cs'].
  simpl in *. subst r. exists (mkDataFrame (index df) cs'). split; [reflexivity|].
  simpl. clear Hu. revert Hv. induction Hstep as [|a b cs cs'' [_ Hab] _ IH]; intros Hv nc Hin.
  - contradiction.
  - destruct Hin as [<-|Hin].
    + destruct (impute_column_ok (snd a) (Hv a (or_introl eq_refl))) as [c' [Hc' Hm]].
      simpl in Hab. congruence.
    + apply IH; [|exact Hin]. intros nc' Hin'. apply Hv. now right.
Qed.

Lemma imputer_leaves_no_missing_cell_witness :
  exists df',
    handle_missing_values scenario = (Ok tt, df') /\
    forall nc, In nc (columns df') -> missing_cells (snd nc) = 0.
Proof.
  apply (imputer_leaves_no_missing_cell scenario).
  - exact scenario_unique_labels.
  - intros nc [<-|[<-|[]]]; reflexivity.
Defined.



(** C6, as the code has it.  In a table with unique column labels on which
    [handle_missing_values] returns, every categorical column has its missing
    cells filled with a value of highest count among its non-missing values
    and keeps its other cells; when several values share the highest count
    the fill is the least of them in the order of strings, wherever they
    first occur. *)
Theorem imputer_fills_categorical_with_least_mode
    (df df' : DataFrame) (k : nat) (n : string) (vs : list (option string)) :
  unique_labels df ->
  handle_missing_values df = (Ok tt, df') ->
  nth_error (columns df) k = Some (n, ObjCol vs) ->
  exists m : string,
    In (Some m) vs /\
    (forall s, count s (dropna vs) <= count m (dropna vs)) /\
    (forall s, count s (dropna vs) = count m (dropna vs) -> String.leb m s = true) /\
    nth_error (columns df') k = Some (n, ObjCol (filled m vs)).
Proof.
  intros Hu Hrun Hk. rewrite (handle_missing_values_pass _ Hu) in Hrun.
  injection Hrun as Hok <-. simpl.
  destruct (Forall2_stepped_nth _ _ _ _ k n _ (map_cols_ok _ _ _ Hok) Hk) as [c' [Hk' Hc']].
  simpl in Hc'. destruct (first_mode vs) as [m|e] eqn:Hm; [|discriminate].
  destruct (first_mode_spec _ _ Hm) as (Hin & Hmax & Hleast).
  exists m. split; [now apply In_dropna|]. split; [exact Hmax|]. split; [exact Hleast|].
  rewrite Hk'. injection Hc' as <-. now rewrite fillna_filled.
Qed.

Lemma imputer_fills_categorical_with_least_mode_witness :
  exists m : string,
    In (Some m) tie /\
    (forall s, count s (dropna tie) <= count m (dropna tie)) /\
    (forall s, count s (dropna tie) = count m (dropna tie) -> String.leb m s = true) /\
    nth_error (columns tie_frame_imputed) 0 = Some ("c"%string, ObjCol (filled m tie)).
Proof.
  apply (imputer_fills_categorical_with_least_mode tie_frame tie_frame_imputed 0).
  - exact tie_frame_unique_labels.
  - exact tie_frame_imputation.
  - reflexivity.
Defined.

(** C6 as stated fails: in the column b, NA, a the two values occur once
    each and b occurs first, yet the missing cell is filled with a. *)
Lemma mode_tie_not_broken_by_first_occurrence :
  count "a" (dropna tie) = count "b" (dropna tie) /\
  mode_by_first_occurrence tie = Some "b"%string /\
  handle_missing_values tie_frame = (Ok tt, tie_frame_imputed).
Proof. repeat split; reflexivity. Qed.




(** ** The outlier suppressor *)



(** ** The standardizer *)






(** ** The categorical encoder *)

(** C3, as the code has it.  On a table with a row and uniquely valued row
    labels the encoder returns.  For every categorical column it enumerates
    the distinct values in ascending order (the order of strings, NaN last),
    whatever their order of occurrence, and leaves the first of that order,
    the least, out of the indicator set; each other category gives one
    column, labelled with the column label, an underscore and the category.
    The categorical columns are removed and the indicator columns come after
    all surviving columns, column by column and in category order; on a
    table with [RangeIndex] their cells are 1 where the original cell equals
    the category and 0 elsewhere. *)
Theorem encoder_enumerates_categories_in_ascending_order (df : DataFrame) :
  nrows df <> 0 -> is_unique (index df) = true ->
  exists out,
    encode df = Ok out /\
    labels out =
      map fst (numeric_columns df) ++ flat_map indicator_labels (object_columns df) /\
    (forall nc, In nc (columns out) -> is_object (snd nc) = false) /\
    (index df = seq 0 (nrows df) ->
     columns out = numeric_columns df ++ flat_map one_hot (object_columns df)) /\
    (forall n vs,
       In (n, ObjCol vs) (columns df) ->
       indicator_labels (n, ObjCol vs) = map (feature_name n) (tl (categories vs)) /\
       StronglySorted category_le (categories vs) /\
       NoDup (categories vs) /\
       forall c, In c (categories vs) <-> In c vs).
Proof.
  intros Hrows Hu.
  destruct (encode_spec df Hrows Hu) as (out & g1 & g2 & Hout & Hg1 & Hg2 & Hcols & Hal).
  exists out. split; [exact Hout|]. split; [|split; [|split; [exact Hal|]]].
  - unfold labels. rewrite Hcols, map_app, !map_fst_relabel.
    now rewrite flat_map_one_hot_labels.
  - intros nc Hin. rewrite Hcols in Hin. apply in_app_or in Hin.
    destruct Hin as [Hin|Hin]; apply in_map_iff in Hin; destruct Hin as [[n c] [<- Hin]]; simpl.
    + rewrite (aligns_kind _ _ Hg1). unfold numeric_columns in Hin.
      apply filter_In in Hin. destruct Hin as [_ Hin]. simpl in Hin.
      now apply negb_true_iff.
    + rewrite (aligns_kind _ _ Hg2).
      pose proof (one_hot_not_object (object_columns df)) as Hall.
      rewrite Forall_forall in Hall. exact (Hall _ Hin).
  - intros n vs _. split; [reflexivity|]. split; [apply categories_sorted|].
    split; [apply categories_NoDup | intros c; apply categories_In].
Qed.

Lemma encoder_enumerates_categories_in_ascending_order_witness :
  exists out,
    encode city_frame = Ok out /\
    labels out =
      map fst (numeric_columns city_frame) ++
      flat_map indicator_labels (object_columns city_frame) /\
    (forall nc, In nc (columns out) -> is_object (snd nc) = false) /\
    (index city_frame = seq 0 (nrows city_frame) ->
     columns out =
       numeric_columns city_frame ++ flat_map one_hot (object_columns city_frame)) /\
    (forall n vs,
       In (n, ObjCol vs) (columns city_frame) ->
       indicator_labels (n, ObjCol vs) = map (feature_name n) (tl (categories vs)) /\
       StronglySorted category_le (categories vs) /\
       NoDup (categories vs) /\
       forall c, In c (categories vs) <-> In c vs).
Proof.
  apply (encoder_enumerates_categories_in_ascending_order city_frame).
  - discriminate.
  - reflexivity.
Defined.

(** C3 as stated fails: in the column NY, LA, NY, NY the first value to occur
    is NY, so the claim has NY left out and one indicator column for LA; the
    encoder leaves LA out and returns the indicator column of NY. *)
Lemma encoder_counterexample :
  distinct_in_order [] [Some "NY"; Some "LA"; Some "NY"; Some "NY"]%string =
    [Some "NY"; Some "LA"]%string /\
  categories [Some "NY"; Some "LA"; Some "NY"; Some "NY"]%string =
    [Some "LA"; Some "NY"]%string /\
  encode city_frame = Ok city_frame_encoded.
Proof. repeat split; reflexivity. Qed.

(** ** The pipeline *)

(** C10, as the code has it.  Whenever [preprocess_data] returns, its result
    is the table [d] that the encoder handed on, after the closing loop.  The
    columns of the result are the numeric columns of the input, under their
    labels, followed by the indicator columns, and every indicator column,
    float64 in [d] with cells that are 0 or 1 (or missing where [concat]
    reindexed), is tagged Int64 in the result, the integrality test being
    exact.  So the closing loop changes [d] as soon as the encoder made one
    indicator column; it need not when it made none. *)
Theorem indicator_columns_are_tagged_Int64 (df out s : DataFrame) :
  preprocess_data df = (Ok out, s) ->
  exists d,
    (fst (stages_to_encoder df) = Ok (New d) \/ stages_to_encoder df = (Ok Self, d)) /\
    restore_integer_columns d = (Ok tt, out) /\
    map fst (firstn (length (select_dtypes is_number df)) (columns out)) =
      select_dtypes is_number df /\
    Forall2 retagged
      (skipn (length (select_dtypes is_number df)) (columns d))
      (skipn (length (select_dtypes is_number df)) (columns out)) /\
    (skipn (length (select_dtypes is_number df)) (columns out) <> [] -> out <> d).
Proof.
  intros H. apply preprocess_data_ok in H.
  destruct H as (s1 & s2 & s3 & s4 & H1 & H2 & H3 & H4 & Henc).
  pose proof (kinds_through_scaling _ _ _ _ _ H1 H2 H3 H4) as K.
  assert (Hnum : select_dtypes is_number s4 = select_dtypes is_number df)
    by (now rewrite !numeric_labels_kinds, K).
  rewrite <- Hnum.
  assert (Hgoal : exists d,
    (fst (stages_to_encoder df) = Ok (New d) \/ stages_to_encoder df = (Ok Self, d)) /\
    restore_integer_columns d = (Ok tt, out) /\
    map fst (firstn (length (select_dtypes is_number s4)) (columns out)) =
      select_dtypes is_number s4 /\
    Forall2 retagged
      (skipn (length (select_dtypes is_number s4)) (columns d))
      (skipn (length (select_dtypes is_number s4)) (columns out))).
  { destruct Henc as [[He Hr]|[d [He Hr]]].
    - exists s4. split.
      { right. unfold stages_to_encoder, bind. now rewrite H1, H2, H3, H4, He. }
      split; [exact Hr|].
      apply encoder_self, all_numeric_labels in He.
      destruct (restore_pass _ _ _ Hr) as [_ Hstep].
      pose proof (Forall2_stepped_labels _ _ _ _ Hstep) as Hl.
      rewrite He. unfold labels in *.
      assert (Hlen : length (columns out) <= length (map fst (columns s4))).
      { rewrite <- Hl. now rewrite !length_map. }
      assert (Hlen' : length (columns s4) <= length (map fst (columns s4))).
      { now rewrite length_map. }
      rewrite (firstn_all2 _ Hlen), (skipn_all2 _ Hlen), (skipn_all2 _ Hlen').
      split; [exact Hl | constructor].
    - exists d. split.
      { left. unfold stages_to_encoder, bind. now rewrite H1, H2, H3, H4, He. }
      split; [exact Hr|].
      destruct (encoder_new_frame _ _ _ He) as (g1 & g2 & Hg1 & Hg2 & Hcols).
      destruct (restore_pass _ _ _ Hr) as [_ Hstep]. rewrite Hcols in Hstep |- *.
      apply Forall2_app_inv_l in Hstep.
      destruct Hstep as (l1 & l2 & Hs1 & Hs2 & ->).
      assert (Hlen : length (select_dtypes is_number s4) = length l1).
      { rewrite <- (Forall2_length Hs1), select_numeric_columns. now rewrite !length_map. }
      assert (Hlen' : length (select_dtypes is_number s4) =
                      length (map (fun nc => (fst nc, g1 (snd nc))) (numeric_columns s4))).
      { rewrite select_numeric_columns. now rewrite !length_map. }
      rewrite Hlen at 1 3. rewrite Hlen'.
      rewrite firstn_app, firstn_all, Nat.sub_diag, !skipn_app, !skipn_all, !Nat.sub_diag.
      simpl. rewrite app_nil_r. split.
      + rewrite (Forall2_stepped_labels _ _ _ _ Hs1), map_fst_relabel.
        symmetry. apply select_numeric_columns.
      + clear - Hs2 Hg2.
        pose proof (flat_map_one_hot_indicator (object_columns s4)) as Hind.
        revert l2 Hs2. induction Hind as [|a cs Ha _ IH]; intros l2 Hs2; simpl in Hs2.
        * inversion Hs2. constructor.
        * inversion Hs2 as [|? b ? l2' [Hn Hab] Hrest]; subst.
          constructor; [|now apply IH].
          simpl in Hab, Hn.
          pose proof (aligns_indicator _ _ Hg2 Ha) as Hga.
          assert (Hf : is_float (g2 (snd a)) = true) by (now destruct Hga as [vs [-> _]]).
          rewrite Hf in Hab.
          split; [exact Hn|]. split; [exact Hga | exact (restore_indicator _ _ Hga Hab)]. }
  destruct Hgoal as (d & Hd & Hr & Hl & Hre).
  exists d. repeat split; auto.
  intros Hne Heq. subst d.
  destruct (skipn (length (select_dtypes is_number s4)) (columns out)) as [|a l];
    [now apply Hne|].
  inversion Hre as [|? ? ? ? [_ [[vs [E1 _]] [vs' [E2 _]]]] _]; subst.
  rewrite E1 in E2. discriminate.
Qed.

Lemma indicator_columns_are_tagged_Int64_witness :
  exists out s d,
    preprocess_data scenario = (Ok out, s) /\
    (fst (stages_to_encoder scenario) = Ok (New d) \/
     stages_to_encoder scenario = (Ok Self, d)) /\
    restore_integer_columns d = (Ok tt, out) /\
    map fst (firstn (length (select_dtypes is_number scenario)) (columns out)) =
      select_dtypes is_number scenario /\
    Forall2 retagged
      (skipn (length (select_dtypes is_number scenario)) (columns d))
      (skipn (length (select_dtypes is_number scenario)) (columns out)) /\
    (skipn (length (select_dtypes is_number scenario)) (columns out) <> [] -> out <> d).
Proof.
  destruct scenario_run as (out & s & H & _).
  destruct (indicator_columns_are_tagged_Int64 scenario out s H) as [d Hd].
  exists out, s, d. split; [exact H | exact Hd].
Defined.

(** C10 as stated fails in its last part: the categorical column of this
    table has one value only, so the encoder drops it and makes no indicator
    column; the standardized values of the numeric column are not integers,
    and the closing loop hands back the table it was given. *)
Lemma single_valued_column_leaves_restorer_idle :
  select_dtypes is_object single_city = ["city"%string] /\
  stages_to_encoder single_city =
    (Ok (New single_city_encoded), single_city_encoded) /\
  restore_integer_columns single_city_encoded = (Ok tt, single_city_encoded) /\
  preprocess_data single_city = (Ok single_city_encoded, single_city_encoded).
Proof.
  destruct single_city_run as [H1 H2].
  split; [reflexivity|]. split; [exact H1|]. split; [exact single_city_restoring | exact H2].
Qed.

(** C1 fails on the scenario of the specification.  After imputation and the
    removal of the duplicate row the table has three rows, labelled 0, 1, 3.
    The encoder builds the indicator columns on a fresh index 0, 1, 2 and
    [concat] aligns the two tables on their labels: the table it returns has
    four rows, and so has the result of the pipeline. *)
Theorem scenario_gains_a_row_in_the_encoder :
  (handle_missing_values ;;; remove_duplicates) scenario = (Ok tt, scenario_deduplicated) /\
  nrows scenario_deduplicated = 3 /\
  nrows scenario_scaled = 3 /\
  encode scenario_scaled = Ok scenario_encoded /\
  nrows scenario_encoded = 4 /\
  exists out s, preprocess_data scenario = (Ok out, s) /\ nrows out = 4.
Proof.
  split.
  { unfold bind. now rewrite scenario_imputation, scenario_deduplication. }
  split; [reflexivity|]. split; [reflexivity|]. split.
  { unfold encode. now rewrite scenario_encoding. }
  split; [reflexivity|].
  destruct scenario_run as (out & s & H & Hi).
  exists out, s. split; [exact H|]. unfold nrows. now rewrite Hi.
Qed.

(** ** Row counts, stage by stage *)

(** X1. The imputer, the outlier suppressor, the standardizer and the closing
    loop return a table with the row count of their input; the deduplicator
    never returns more rows than it was given; and the encoder keeps the row
    count of a table whose row labels are a [RangeIndex]. *)
Theorem row_count_through_the_stages (df : DataFrame) :
  (forall df', handle_missing_values df = (Ok tt, df') -> nrows df' = nrows df) /\
  nrows (snd (remove_duplicates df)) <= nrows df /\
  (forall df', handle_outliers df = (Ok tt, df') -> nrows df' = nrows df) /\
  (forall df', scale_numerical_features df = (Ok tt, df') -> nrows df' = nrows df) /\
  (forall df', restore_integer_columns df = (Ok tt, df') -> nrows df' = nrows df) /\
  (forall out, index df = seq 0 (nrows df) -> encode df = Ok out -> nrows out = nrows df).
Proof.
  unfold nrows. repeat split.
  - intros df' H. now destruct (imputer_kinds _ _ _ H) as [_ ->].
  - unfold remove_duplicates. destruct (empty df); simpl; [lia | apply select_length].
  - intros df' H. now destruct (outliers_kinds _ _ _ H) as (_ & -> & _).
  - intros df' H. now destruct (scale_kinds _ _ _ H) as (_ & -> & _).
  - intros df' H. now destruct (restore_pass _ _ _ H) as [-> _].
  - intros out Hidx H. now rewrite (encode_aligned_index _ _ Hidx H).
Qed.

(** X2. The encoder leaves no categorical column, so that the encoder applied
    to its own result returns that result as it is. *)
Theorem encoder_twice (df out : DataFrame) :
  encode df = Ok out -> object_columns out = [] /\ encode out = Ok out.
Proof.
  intros H. pose proof (encode_no_object_column _ _ H) as Hno.
  split; [exact Hno|]. rewrite encode_outcome. now rewrite Hno.
Qed.

Lemma encoder_twice_witness :
  object_columns city_frame_encoded = [] /\
  encode city_frame_encoded = Ok city_frame_encoded.
Proof. apply (encoder_twice city_frame). reflexivity. Defined.

(** X3. The column count changes at the encoder only: the other stages return
    the column count of their input, and the encoder returns the number of
    columns that are not categorical plus, for every categorical column, the
    number of its distinct values less one. *)
Theorem column_count_through_the_stages (df : DataFrame) :
  (forall df', handle_missing_values df = (Ok tt, df') ->
               length (columns df') = length (columns df)) /\
  length (columns (snd (remove_duplicates df))) = length (columns df) /\
  (forall df', handle_outliers df = (Ok tt, df') ->
               length (columns df') = length (columns df)) /\
  (forall df', scale_numerical_features df = (Ok tt, df') ->
               length (columns df') = length (columns df)) /\
  (forall df', restore_integer_columns df = (Ok tt, df') ->
               length (columns df') = length (columns df)) /\
  (forall out, encode df = Ok out ->
               length (columns out) =
               length (numeric_columns df) +
               list_sum (map indicator_count (object_columns df))).
Proof.
  repeat split.
  - intros df' H. apply kinds_length. now destruct (imputer_kinds _ _ _ H).
  - apply kinds_length. now destruct (remove_duplicates_kinds df).
  - intros df' H. apply kinds_length. now destruct (outliers_kinds _ _ _ H).
  - intros df' H. apply kinds_length. now destruct (scale_kinds _ _ _ H).
  - intros df' H. destruct (restore_pass _ _ _ H) as [_ Hs].
    symmetry. exact (Forall2_length Hs).
  - intros out H. destruct (encode_columns _ _ H) as (g1 & g2 & _ & _ & ->).
    now rewrite length_app, !length_map, flat_map_one_hot_count.
Qed.

(** X4. On a rectangular table the deduplicator returns the rows that are
    equal to no row before them (a missing cell being equal to a missing
    cell), in the order and with the row labels they had; applied to its own
    result it returns that result as it is. *)
Theorem deduplicator_keeps_first_occurrences (df : DataFrame) :
  rectangular df ->
  rows (snd (remove_duplicates df)) = select (kept df) (rows df) /\
  index (snd (remove_duplicates df)) = select (kept df) (index df) /\
  (empty df = false ->
   forall i, i < nrows df ->
     nth i (kept df) true =
     negb (existsb (row_eqb (row df i)) (firstn i (rows df)))) /\
  remove_duplicates (snd (remove_duplicates df)) =
    (Ok tt, snd (remove_duplicates df)).
Proof.
  intros Hrect. repeat split.
  - exact (remove_duplicates_rows _ Hrect).
  - now rewrite (remove_duplicates_kept _ Hrect).
  - intros E i Hi. exact (kept_spec _ _ E Hi).
  - exact (remove_duplicates_idempotent _ Hrect).
Qed.

Lemma deduplicator_keeps_first_occurrences_witness :
  rows (snd (remove_duplicates scenario_imputed)) =
    select (kept scenario_imputed) (rows scenario_imputed) /\
  index (snd (remove_duplicates scenario_imputed)) =
    select (kept scenario_imputed) (index scenario_imputed) /\
  (empty scenario_imputed = false ->
   forall i, i < nrows scenario_imputed ->
     nth i (kept scenario_imputed) true =
     negb (existsb (row_eqb (row scenario_imputed i))
             (firstn i (rows scenario_imputed)))) /\
  remove_duplicates (snd (remove_duplicates scenario_imputed)) =
    (Ok tt, snd (remove_duplicates scenario_imputed)).
Proof.
  apply (deduplicator_keeps_first_occurrences scenario_imputed).
  intros nc [<-|[<-|[]]]; reflexivity.
Defined.

(** ** The stages applied twice *)

(** X5. The imputer applied to a table that it has imputed returns that
    table as it is. *)
Theorem imputer_twice (df df' : DataFrame) :
  handle_missing_values df = (Ok tt, df') ->
  handle_missing_values df' = (Ok tt, df').
Proof.
  intros H. pose proof (imputer_ok_unique_labels _ _ _ H) as Hu.
  destruct (imputer_kinds _ _ _ H) as [Hk _].
  assert (Hu' : unique_labels df').
  { unfold unique_labels. now rewrite (kinds_labels _ _ Hk). }
  rewrite (handle_missing_values_pass _ Hu) in H.
  injection H as Hfst Hdf.
  pose proof (map_cols_ok _ _ _ Hfst) as Hsteps.
  assert (Hcols : snd (map_cols (fun _ => true) impute_column (columns df)) = columns df')
    by now rewrite <- Hdf.
  rewrite Hcols in Hsteps.
  rewrite (handle_missing_values_pass _ Hu').
  rewrite (map_cols_fixed (fun _ => true) impute_column (columns df')).
  - cbn [fst snd]. now destruct df'.
  - apply (Forall2_stepped_fixed (fun _ => true) impute_column (columns df));
      [|exact Hsteps].
    intros c c' Hc _. exact (impute_column_fixed _ _ Hc).
Qed.

Lemma imputer_twice_witness :
  handle_missing_values scenario_imputed = (Ok tt, scenario_imputed).
Proof. apply (imputer_twice scenario). exact scenario_imputation. Defined.





(** ** The closing loop *)



(** ** Columns that the outlier suppressor never changes *)





(** X28. On a table with unique column labels the outlier suppressor raises
    [ValueError] exactly when a numeric column holds no value (Python's
    [round] refuses the NaN median), and then the table is left half done:
    the numeric columns before the first such column have been through the
    stage, that column and the columns after it are as they were. *)
Theorem suppressor_raises_on_a_column_without_value (df : DataFrame) :
  unique_labels df ->
  fst (handle_outliers df) =
    (if numeric_columns_have_values df then Ok tt else Raise ValueError) /\
  (numeric_columns_have_values df = false ->
   exists pre pre' n t vs post,
     columns df = pre ++ (n, NumCol t vs) :: post /\
     has_value (NumCol t vs) = false /\
     Forall2 (stepped is_number outliers_column) pre pre' /\
     snd (handle_outliers df) =
       mkDataFrame (index df) (pre' ++ (n, NumCol t vs) :: post)).
Proof.
  intros Hu. pose proof (handle_outliers_outcome _ Hu) as Ho.
  split; [exact Ho|]. intros E. rewrite E in Ho.
  rewrite (handle_outliers_pass _ Hu) in Ho |- *. cbn [fst snd] in *.
  apply map_cols_raise in Ho.
  destruct Ho as (pre & pre' & n & c & post & Hc & _ & Hf & Hpre & Hs).
  destruct (outliers_column_raises _ _ Hf) as (_ & t & vs & -> & Hv).
  exists pre, pre', n, t, vs, post. rewrite Hs. now repeat split.
Qed.

Lemma suppressor_raises_on_a_column_without_value_witness :
  fst (handle_outliers hollow) =
    (if numeric_columns_have_values hollow then Ok tt else Raise ValueError) /\
  (numeric_columns_have_values hollow = false ->
   exists pre pre' n t vs post,
     columns hollow = pre ++ (n, NumCol t vs) :: post /\
     has_value (NumCol t vs) = false /\
     Forall2 (stepped is_number outliers_column) pre pre' /\
     snd (handle_outliers hollow) =
       mkDataFrame (index hollow) (pre' ++ (n, NumCol t vs) :: post)).
Proof.
  apply (suppressor_raises_on_a_column_without_value hollow).
  exact hollow_unique_labels.
Defined.



(** ** What the indicator columns say *)

(** X10. On a table whose row labels are 0..n-1 the encoder puts the
    indicator columns of every categorical column in its result, and the
    indicators of one column determine its value in each row: at most one of
    them is 1 in a row, all of them are 0 exactly in the rows that hold the
    least category (the one dropped), and two rows agree on all of them
    exactly when they hold the same value. *)
Theorem indicators_determine_the_category
    (df out : DataFrame) (n : string) (vs : list (option string)) (i j : nat) :
  encode df = Ok out -> index df = seq 0 (nrows df) ->
  In (n, ObjCol vs) (columns df) -> i < length vs -> j < length vs ->
  (forall ic, In ic (one_hot (n, ObjCol vs)) -> In ic (columns out)) /\
  (forall ic ic',
     In ic (one_hot (n, ObjCol vs)) -> In ic' (one_hot (n, ObjCol vs)) ->
     cell_at i (snd ic) = NumCell (Some 1%R) ->
     cell_at i (snd ic') = NumCell (Some 1%R) -> ic = ic') /\
  ((forall ic, In ic (one_hot (n, ObjCol vs)) ->
               cell_at i (snd ic) = NumCell (Some 0%R)) <->
   Some (nth i vs None) = hd_error (categories vs)) /\
  ((forall ic, In ic (one_hot (n, ObjCol vs)) ->
               cell_at i (snd ic) = cell_at j (snd ic)) <->
   nth i vs None = nth j vs None).
Proof.
  intros H Hidx Hin Hi Hj.
  assert (Ha : In (nth i vs None) (categories vs)) by (apply categories_In; now apply nth_In).
  assert (Hb : In (nth j vs None) (categories vs)) by (apply categories_In; now apply nth_In).
  split; [|split; [|split]].
  - intros ic Hic. rewrite (encode_aligned_columns _ _ H Hidx).
    apply in_or_app. right. apply in_flat_map. exists (n, ObjCol vs). split; [|exact Hic].
    apply filter_In. now split.
  - intros ic ic' Hic Hic' H1 H1'.
    apply one_hot_In in Hic. destruct Hic as (c & _ & ->).
    apply one_hot_In in Hic'. destruct Hic' as (c' & _ & ->).
    apply (indicator_set n) in H1; [|exact Hi].
    apply (indicator_set n) in H1'; [|exact Hi]. congruence.
  - pose proof (categories_NoDup vs) as Hnd.
    destruct (categories vs) as [|h cats] eqn:Hc; [destruct Ha|]. cbn [hd_error].
    split.
    + intros H0. destruct Ha as [->|Ha]; [reflexivity|].
      assert (Hic : In (feature_name n (nth i vs None),
                        NumCol float64 (indicator (nth i vs None) vs))
                       (one_hot (n, ObjCol vs))).
      { apply one_hot_In. exists (nth i vs None). rewrite Hc. now split. }
      specialize (H0 _ Hic). cbn [snd] in H0.
      rewrite (proj2 (indicator_set n vs _ i Hi) eq_refl) in H0.
      injection H0 as H0. lra.
    + intros Hh ic Hic. injection Hh as Hh.
      apply one_hot_In in Hic. destruct Hic as (c & Hcin & ->). rewrite Hc in Hcin.
      cbn [snd cell_at tl] in *. rewrite (indicator_nth _ _ _ Hi).
      destruct (category_eqb (nth i vs None) c) eqn:E; [|reflexivity].
      apply category_eqb_eq in E. inversion Hnd; subst. congruence.
  - split.
    + intros Hall.
      assert (Hkey : forall a b k l, k < length vs -> l < length vs ->
                 a = nth k vs None -> b = nth l vs None ->
                 (forall ic, In ic (one_hot (n, ObjCol vs)) ->
                             cell_at k (snd ic) = cell_at l (snd ic)) ->
                 In a (tl (categories vs)) -> a = b).
      { intros a b k l Hk Hl -> -> Hkl Hin'.
        assert (Hic : In (feature_name n (nth k vs None),
                          NumCol float64 (indicator (nth k vs None) vs))
                         (one_hot (n, ObjCol vs))).
        { apply one_hot_In. now exists (nth k vs None). }
        specialize (Hkl _ Hic). cbn [snd] in Hkl.
        rewrite (proj2 (indicator_set n vs _ k Hk) eq_refl) in Hkl.
        symmetry in Hkl. apply (indicator_set n vs _ l Hl) in Hkl. now symmetry. }
      destruct (categories vs) as [|h cats] eqn:Hc; [destruct Ha|]. cbn [tl] in Hkey.
      destruct Ha as [Ha|Ha], Hb as [Hb|Hb].
      * congruence.
      * symmetry. apply (Hkey _ _ j i Hj Hi eq_refl eq_refl); [|exact Hb].
        intros ic Hic. symmetry. now apply Hall.
      * now apply (Hkey _ _ i j Hi Hj eq_refl eq_refl).
      * now apply (Hkey _ _ i j Hi Hj eq_refl eq_refl).
    + intros Heq ic Hic. apply one_hot_In in Hic. destruct Hic as (c & _ & ->).
      cbn [snd cell_at]. now rewrite !indicator_nth, Heq.
Qed.

Lemma indicators_determine_the_category_witness :
  (forall ic, In ic (one_hot ("city"%string, ObjCol (map Some ["NY"; "LA"; "NY"; "NY"]%string))) ->
              In ic (columns city_frame_encoded)) /\
  (forall ic ic',
     In ic (one_hot ("city"%string, ObjCol (map Some ["NY"; "LA"; "NY"; "NY"]%string))) ->
     In ic' (one_hot ("city"%string, ObjCol (map Some ["NY"; "LA"; "NY"; "NY"]%string))) ->
     cell_at 0 (snd ic) = NumCell (Some 1%R) ->
     cell_at 0 (snd ic') = NumCell (Some 1%R) -> ic = ic') /\
  ((forall ic, In ic (one_hot ("city"%string, ObjCol (map Some ["NY"; "LA"; "NY"; "NY"]%string))) ->
               cell_at 0 (snd ic) = NumCell (Some 0%R)) <->
   Some (nth 0 (map Some ["NY"; "LA"; "NY"; "NY"]%string) None) =
   hd_error (categories (map Some ["NY"; "LA"; "NY"; "NY"]%string))) /\
  ((forall ic, In ic (one_hot ("city"%string, ObjCol (map Some ["NY"; "LA"; "NY"; "NY"]%string))) ->
               cell_at 0 (snd ic) = cell_at 1 (snd ic)) <->
   nth 0 (map Some ["NY"; "LA"; "NY"; "NY"]%string) None =
   nth 1 (map Some ["NY"; "LA"; "NY"; "NY"]%string) None).
Proof.
  apply (indicators_determine_the_category city_frame city_frame_encoded).
  - reflexivity.
  - reflexivity.
  - left. reflexivity.
  - simpl. lia.
  - simpl. lia.
Defined.

(** ** The rows that the encoder adds *)

(** X11. When the table has a categorical column, the encoder returns the
    rows of its input followed by one more row for every number below the
    row count that is not a row label of the input; so it returns as many
    rows as it was given exactly when every number below the row count is a
    row label. *)
Theorem encoder_adds_a_row_per_absent_label (df out : DataFrame) :
  encode df = Ok out -> object_columns df <> [] ->
  index out = index df ++ filter (fun j => negb (existsb (Nat.eqb j) (index df)))
                            (seq 0 (nrows df)) /\
  nrows out =
    nrows df + length (filter (fun j => negb (existsb (Nat.eqb j) (index df)))
                         (seq 0 (nrows df))) /\
  (nrows out = nrows df <-> forall j, j < nrows df -> In j (index df)).
Proof.
  intros H Hne. pose proof (encode_index _ _ H Hne) as Hi. unfold union_index in Hi.
  set (F := filter (fun j => negb (existsb (Nat.eqb j) (index df))) (seq 0 (nrows df))) in *.
  assert (Hn : nrows out = nrows df + length F).
  { unfold nrows at 1 2. now rewrite Hi, length_app. }
  split; [exact Hi|]. split; [exact Hn|]. rewrite Hn. split.
  - intros Hlen j Hj.
    assert (Hnil : F = []) by (apply length_zero_iff_nil; lia).
    assert (Hin : In j (seq 0 (nrows df))) by (apply in_seq; lia).
    pose proof (proj1 (filter_none _ _) Hnil j Hin) as E. cbv beta in E.
    apply negb_false_iff in E. now apply existsb_eqb_In.
  - intros Hall.
    assert (Hnil : F = []).
    { apply filter_none. intros j Hj. apply in_seq in Hj.
      apply negb_false_iff, existsb_eqb_In, Hall. lia. }
    rewrite Hnil. simpl. lia.
Qed.

Lemma encoder_adds_a_row_per_absent_label_witness :
  index scenario_encoded =
    index scenario_scaled ++
    filter (fun j => negb (existsb (Nat.eqb j) (index scenario_scaled)))
      (seq 0 (nrows scenario_scaled)) /\
  nrows scenario_encoded =
    nrows scenario_scaled +
    length (filter (fun j => negb (existsb (Nat.eqb j) (index scenario_scaled)))
              (seq 0 (nrows scenario_scaled))) /\
  (nrows scenario_encoded = nrows scenario_scaled <->
   forall j, j < nrows scenario_scaled -> In j (index scenario_scaled)).
Proof.
  apply (encoder_adds_a_row_per_absent_label scenario_scaled scenario_encoded).
  - unfold encode. now rewrite scenario_encoding.
  - discriminate.
Defined.

(** X15. When the table has a categorical column and its row labels are not
    0..n-1, the encoder joins the indicator columns to the rows by label,
    though it computed them by position: in the result a numeric column
    holds its own cells in the first n rows and missing cells in the rows
    added after them, and an indicator column holds, in the row labelled l,
    the indicator of the l-th row of the input, or a missing cell when l is
    n or more. *)
Theorem encoder_attaches_indicators_by_label (df out : DataFrame) :
  encode df = Ok out -> object_columns df <> [] -> index df <> seq 0 (nrows df) ->
  (forall p n c,
     nth_error (numeric_columns df) p = Some (n, c) ->
     exists c',
       nth_error (columns out) p = Some (n, c') /\
       forall k, k < nrows out ->
         cell_at k c' = if k <? nrows df then cell_at k c else NumCell None) /\
  (forall q n c,
     nth_error (flat_map one_hot (object_columns df)) q = Some (n, c) ->
     exists c',
       nth_error (columns out) (length (numeric_columns df) + q) = Some (n, c') /\
       forall k l, nth_error (index out) k = Some l ->
         cell_at k c' = if l <? nrows df then cell_at l c else NumCell None).
Proof.
  intros H Hne Hidx.
  destruct (encode_misaligned _ _ H Hne Hidx) as [Hnd Hcols].
  pose proof (encode_index _ _ H Hne) as Hi. unfold union_index in Hi.
  split.
  - intros p n c Hp. exists (reindex_col (index df) (index out) c). split.
    + rewrite Hcols, nth_error_app1.
      * now rewrite nth_error_map, Hp.
      * rewrite length_map. apply nth_error_Some. congruence.
    + intros k Hk.
      assert (Hnum : is_object c = false).
      { apply nth_error_In in Hp. unfold numeric_columns in Hp.
        apply filter_In in Hp. cbn [snd] in Hp. now apply negb_true_iff. }
      destruct (nth_error (index out) k) as [l|] eqn:Hl;
        [|apply nth_error_None in Hl; unfold nrows in Hk; lia].
      rewrite (cell_at_reindex _ _ _ _ _ Hl).
      rewrite Hi in Hl. destruct (k <? nrows df) eqn:E.
      * apply Nat.ltb_lt in E. unfold nrows in E.
        rewrite nth_error_app1 in Hl by exact E.
        rewrite <- (nth_error_nth _ _ 0 Hl).
        now rewrite (get_loc_nth _ _ Hnd E).
      * apply Nat.ltb_ge in E. unfold nrows in E.
        rewrite nth_error_app2 in Hl by exact E.
        apply nth_error_In, filter_In in Hl. destruct Hl as [_ Hl].
        rewrite get_loc_absent.
        -- destruct c; [discriminate | reflexivity].
        -- intros Hin. apply existsb_eqb_In in Hin. rewrite Hin in Hl. discriminate.
  - intros q n c Hq. exists (reindex_col (seq 0 (nrows df)) (index out) c). split.
    + rewrite Hcols, nth_error_app2 by (rewrite length_map; lia).
      rewrite length_map, Nat.add_comm, Nat.add_sub.
      now rewrite nth_error_map, Hq.
    + intros k l Hl. rewrite (cell_at_reindex _ _ _ _ _ Hl), get_loc_range.
      destruct (l <? nrows df); [reflexivity|].
      apply nth_error_In in Hq.
      pose proof (one_hot_not_object (object_columns df)) as Hno.
      rewrite Forall_forall in Hno. specialize (Hno _ Hq). cbn [snd] in Hno.
      destruct c; [discriminate | reflexivity].
Qed.

Lemma encoder_attaches_indicators_by_label_witness :
  (forall p n c,
     nth_error (numeric_columns scenario_scaled) p = Some (n, c) ->
     exists c',
       nth_error (columns scenario_encoded) p = Some (n, c') /\
       forall k, k < nrows scenario_encoded ->
         cell_at k c' = if k <? nrows scenario_scaled then cell_at k c else NumCell None) /\
  (forall q n c,
     nth_error (flat_map one_hot (object_columns scenario_scaled)) q = Some (n, c) ->
     exists c',
       nth_error (columns scenario_encoded)
         (length (numeric_columns scenario_scaled) + q) = Some (n, c') /\
       forall k l, nth_error (index scenario_encoded) k = Some l ->
         cell_at k c' = if l <? nrows scenario_scaled then cell_at l c else NumCell None).
Proof.
  apply (encoder_attaches_indicators_by_label scenario_scaled scenario_encoded).
  - unfold encode. now rewrite scenario_encoding.
  - discriminate.
  - discriminate.
Defined.

(** ** Column labels that meet *)

(** X12. When the table that the encoder builds has two columns under one
    label (the label of an indicator column is that of a numeric column or of
    another indicator column), [preprocess_data] raises [AttributeError] in
    its closing loop, and the caller's table is left as the encoder left it:
    processed, and without its categorical columns. *)
Theorem shared_labels_abort_the_closing_loop (df d s : DataFrame) :
  stages_to_encoder df = (Ok (New d), s) -> ~ NoDup (labels d) ->
  preprocess_data df = (Raise AttributeError, s).
Proof.
  intros H Hdup. rewrite preprocess_data_stages, H.
  destruct (stages_to_encoder_ok _ _ _ H) as (s1 & s2 & s3 & s4 & H1 & H2 & H3 & H4 & He).
  pose proof (kinds_through_scaling _ _ _ _ _ H1 H2 H3 H4) as K.
  assert (Hu4 : NoDup (labels s4)).
  { rewrite (kinds_labels _ _ K). exact (imputer_ok_unique_labels _ _ _ H1). }
  destruct (shared_label_is_float _ _ _ He Hu4 Hdup) as (n & Hn & Hc).
  destruct (restore_raises_on_shared_label d n Hn Hc) as [s' Hs'].
  now rewrite Hs'.
Qed.

Lemma shared_labels_abort_the_closing_loop_witness :
  preprocess_data collision = (Raise AttributeError, collision_numeric).
Proof.
  apply (shared_labels_abort_the_closing_loop collision collision_encoded).
  - exact collision_stages.
  - intros H. inversion H as [|? ? Hnotin _]; subst. apply Hnotin. now left.
Defined.

(** ** What the pipeline asks and what it gives *)

(** X13. [preprocess_data] returns a table only when its input has unique
    column labels, at least one row, at least one numeric column, and in
    every column at least one cell that is not missing. *)
Theorem pipeline_needs_values_everywhere (df out s : DataFrame) :
  preprocess_data df = (Ok out, s) ->
  unique_labels df /\
  nrows df <> 0 /\
  (exists nc, In nc (columns df) /\ is_number (snd nc) = true) /\
  (forall nc, In nc (columns df) -> has_value (snd nc) = true).
Proof.
  intros H. destruct (preprocess_data_requires _ _ _ H) as (Hu & Hr & Hn & Hv).
  split; [exact Hu|]. split; [exact Hr|]. split; [|exact Hv].
  apply existsb_exists in Hn. exact Hn.
Qed.


Lemma pipeline_needs_values_everywhere_witness :
  unique_labels single_city /\
  nrows single_city <> 0 /\
  (exists nc, In nc (columns single_city) /\ is_number (snd nc) = true) /\
  (forall nc, In nc (columns single_city) -> has_value (snd nc) = true).
Proof.
  apply (pipeline_needs_values_everywhere single_city single_city_encoded single_city_encoded).
  exact (proj2 single_city_run).
Defined.

(** X14. When the rows that the deduplicator keeps are labelled 0..m-1 (no
    row is dropped, or only rows at the end are), the table that
    [preprocess_data] returns has these row labels and no missing cell. *)
Theorem result_without_missing_cells (df s1 s2 out s : DataFrame) :
  preprocess_data df = (Ok out, s) ->
  handle_missing_values df = (Ok tt, s1) ->
  remove_duplicates s1 = (Ok tt, s2) ->
  index s2 = seq 0 (nrows s2) ->
  index out = index s2 /\
  forall nc, In nc (columns out) -> missing_cells (snd nc) = 0.
Proof.
  intros H H1 H2 Hidx.
  destruct (preprocess_data_requires _ _ _ H) as (_ & _ & _ & Hv).
  apply preprocess_data_ok in H.
  destruct H as (s1' & s2' & s3 & s4 & H1' & H2' & H3 & H4 & Henc).
  assert (s1' = s1) by congruence. subst s1'.
  assert (s2' = s2) by congruence. subst s2'.
  pose proof (imputer_fills _ _ H1 Hv) as M1.
  pose proof (remove_duplicates_no_missing _ M1) as M2. rewrite H2 in M2. cbn [snd] in M2.
  destruct (for_each_ok_pass _ _ _ _ _ H3) as [Hf3 E3].
  pose proof (Forall2_stepped_no_missing _ _ _ _ outliers_column_no_missing
                (map_cols_ok _ _ _ Hf3) M2) as M3.
  destruct (outliers_kinds _ _ _ H3) as (_ & I3 & _).
  destruct (scale_kinds _ _ _ H4) as (_ & I4 & _).
  assert (M4 : forall nc, In nc (columns s4) -> missing_cells (snd nc) = 0).
  { rewrite scale_outcome in H4. destruct (scalable s3); [|discriminate].
    injection H4 as <-. cbn [columns]. intros nc Hin.
    apply in_map_iff in Hin. destruct Hin as (nc' & <- & Hin). cbn [snd].
    apply scale_column_no_missing. apply M3. now rewrite E3 in Hin. }
  assert (Hidx4 : index s4 = seq 0 (nrows s4)).
  { unfold nrows. now rewrite I4, I3. }
  assert (Hd : exists d, encode s4 = Ok d /\ restore_integer_columns d = (Ok tt, out)).
  { destruct Henc as [[He Hr]|(d & He & Hr)].
    - exists s4. unfold encode. now rewrite He.
    - exists d. unfold encode. now rewrite He. }
  destruct Hd as (d & He & Hr).
  destruct (restore_pass _ _ _ Hr) as [Io Hsteps].
  split.
  - rewrite Io, (encode_aligned_index _ _ Hidx4 He). now rewrite I4, I3.
  - apply (Forall2_stepped_no_missing _ _ _ _ restore_column_no_missing Hsteps).
    rewrite (encode_aligned_columns _ _ He Hidx4). intros nc Hin.
    apply in_app_or in Hin. destruct Hin as [Hin|Hin].
    + apply M4. unfold numeric_columns in Hin. apply filter_In in Hin. tauto.
    + now apply (one_hot_no_missing (object_columns s4)).
Qed.

Lemma result_without_missing_cells_witness :
  index single_city_encoded = index single_city /\
  forall nc, In nc (columns single_city_encoded) -> missing_cells (snd nc) = 0.
Proof.
  apply (result_without_missing_cells single_city single_city single_city
           single_city_encoded single_city_encoded).
  - exact (proj2 single_city_run).
  - exact single_city_imputation.
  - exact single_city_deduplication.
  - reflexivity.
Defined.

(** X24. On a rectangular table with unique column labels and unique row
    labels, [preprocess_data] returns a table exactly when the input has a
    numeric column, a value in every column, and pairwise distinct labels
    for its result; these labels are the labels of the numeric columns
    followed, for every categorical column, by its label joined by an
    underscore to each of its values but the least. *)
Theorem pipeline_returns_exactly_when (df : DataFrame) :
  well_formed df -> is_unique (index df) = true ->
  ((exists out s, preprocess_data df = (Ok out, s)) <->
   (exists nc, In nc (columns df) /\ is_number (snd nc) = true) /\
   (forall nc, In nc (columns df) -> has_value (snd nc) = true) /\
   NoDup (result_labels df)) /\
  (forall out s, preprocess_data df = (Ok out, s) -> labels out = result_labels df).
Proof.
  intros Hwf Hidx. split; [split|].
  - intros (out & s & H).
    destruct (preprocess_data_requires _ _ _ H) as (_ & _ & Hnum & Hv).
    destruct (preprocess_data_labels _ _ _ (proj2 Hwf) H) as [_ Hnd].
    apply existsb_exists in Hnum. now repeat split.
  - intros (Hnum & Hv & Hnd). now apply preprocess_data_returns.
  - intros out s H. exact (proj1 (preprocess_data_labels _ _ _ (proj2 Hwf) H)).
Qed.

Lemma pipeline_returns_exactly_when_witness :
  ((exists out s, preprocess_data single_city = (Ok out, s)) <->
   (exists nc, In nc (columns single_city) /\ is_number (snd nc) = true) /\
   (forall nc, In nc (columns single_city) -> has_value (snd nc) = true) /\
   NoDup (result_labels single_city)) /\
  (forall out s, preprocess_data single_city = (Ok out, s) ->
                 labels out = result_labels single_city).
Proof.
  apply (pipeline_returns_exactly_when single_city).
  - split; [exact single_city_unique_labels | exact single_city_rectangular].
  - reflexivity.
Defined.

(** X25. When [preprocess_data] returns, the table it was given has been
    changed in place: it holds the numeric columns only.  Without a
    categorical column in the input it is the very table that is returned;
    with one, it is the standardized table less its categorical columns,
    without the indicator columns and without the Int64 tags of the closing
    loop, which are in the returned table only. *)
Theorem caller_table_after_the_run (df out s : DataFrame) :
  preprocess_data df = (Ok out, s) ->
  labels s = select_dtypes is_number df /\
  (select_dtypes is_object df = [] -> s = out) /\
  (select_dtypes is_object df <> [] ->
   exists s1 s2 s3 s4,
     handle_missing_values df = (Ok tt, s1) /\
     remove_duplicates s1 = (Ok tt, s2) /\
     handle_outliers s2 = (Ok tt, s3) /\
     scale_numerical_features s3 = (Ok tt, s4) /\
     s = drop_object_columns s4).
Proof.
  intros H. rewrite preprocess_data_stages in H.
  destruct (stages_to_encoder df) as [[r|e] s'] eqn:Hst; [|discriminate].
  destruct (stages_to_encoder_ok _ _ _ Hst) as (s1 & s2 & s3 & s4 & H1 & H2 & H3 & H4 & He).
  pose proof (kinds_through_scaling _ _ _ _ _ H1 H2 H3 H4) as K.
  assert (Hobj : select_dtypes is_object s4 = select_dtypes is_object df)
    by (now rewrite !object_labels_kinds, K).
  assert (Hnum : select_dtypes is_number s4 = select_dtypes is_number df)
    by (now rewrite !numeric_labels_kinds, K).
  destruct r as [|d].
  - pose proof (encoder_self _ _ He) as Hno. pose proof (encoder_self_state _ _ He) as ->.
    destruct (restore_integer_columns s4) as [[[]|e] s6] eqn:Hr; [|discriminate].
    injection H as <- <-. split; [|split].
    + destruct (restore_pass _ _ _ Hr) as [_ Hsteps].
      unfold labels. rewrite (Forall2_stepped_labels _ _ _ _ Hsteps). fold (labels s4).
      now rewrite <- Hnum, (all_numeric_labels _ Hno).
    + reflexivity.
    + intros Hne. rewrite <- Hobj in Hne. contradiction.
  - destruct (encoder_new_state _ _ _ He) as [Hne ->].
    destruct (restore_integer_columns d) as [[[]|e] d'] eqn:Hr; [|discriminate].
    injection H as <- <-. split; [|split].
    + rewrite <- Hnum. unfold labels, drop_object_columns, select_dtypes. cbn [columns].
      f_equal. apply filter_ext. intros nc. apply (eq_sym (is_number_not_object _)).
    + intros Hno. rewrite <- Hobj in Hno. contradiction.
    + intros _. now exists s1, s2, s3, s4.
Qed.

Lemma caller_table_after_the_run_witness :
  labels scenario_numeric = select_dtypes is_number scenario /\
  (select_dtypes is_object scenario = [] -> scenario_numeric = scenario_restored) /\
  (select_dtypes is_object scenario <> [] ->
   exists s1 s2 s3 s4,
     handle_missing_values scenario = (Ok tt, s1) /\
     remove_duplicates s1 = (Ok tt, s2) /\
     handle_outliers s2 = (Ok tt, s3) /\
     scale_numerical_features s3 = (Ok tt, s4) /\
     scenario_numeric = drop_object_columns s4).
Proof.
  apply (caller_table_after_the_run scenario scenario_restored scenario_numeric).
  exact scenario_result.
Defined.

(** ** The service *)

Section ServiceTheorems.

Variable contents : Type.
Variable read_csv read_excel : contents -> option DataFrame.
Variable to_csv : DataFrame -> option string.
Variable na_encodable : bool.

(** X16. [upload_file] answers with status 200 or 500 and never with 400:
    under a name that, once stripped, ends neither in .csv nor in .xlsx, the
    [HTTPException] of status 400 is raised inside the [try] block, caught by
    [except Exception] and sent as the detail of a status 500, and [dataset]
    is left as it was.  A name that ends in .json, which the page offers to
    upload, is such a name. *)
Theorem upload_never_answers_400
    (filename : string) (file : contents) (dataset : option DataFrame) :
  (status (fst (upload_file contents read_csv read_excel na_encodable filename file dataset)) = 200 \/
   status (fst (upload_file contents read_csv read_excel na_encodable filename file dataset)) = 500) /\
  (supported (strip filename) = false ->
   upload_file contents read_csv read_excel na_encodable filename file dataset =
   (Failure 500 (ErrorProcessingFile (HTTPException 400 OnlyCsvXlsx)), dataset)) /\
  (endswith (strip filename) ".json" = true -> supported (strip filename) = false).
Proof.
  split; [apply upload_status|]. split; [apply upload_unsupported|].
  apply json_is_not_supported.
Qed.

(** X17. Only an upload that gets past its loader changes [dataset], and it
    always does, whatever it answers: [dataset] becomes the result of
    [preprocess_data], or the uploaded frame as [preprocess_data] left it
    when it raised.  So, starting without a dataset, [get_shape] answers 400
    after a sequence of requests exactly when no upload of the sequence got
    past its loader. *)
Theorem dataset_is_what_the_last_loaded_upload_left
    (rs : list (request contents)) (r : request contents) (dataset : option DataFrame) :
  (loaded contents read_csv read_excel r = None ->
   snd (serve contents read_csv read_excel to_csv na_encodable r dataset) = dataset) /\
  (forall df, loaded contents read_csv read_excel r = Some df ->
     snd (serve contents read_csv read_excel to_csv na_encodable r dataset) = Some (stored df)) /\
  (snd (serve_all contents read_csv read_excel to_csv na_encodable rs None) = None <->
   Forall (fun r => loaded contents read_csv read_excel r = None) rs) /\
  (fst (get_shape (snd (serve_all contents read_csv read_excel to_csv na_encodable rs None))) =
     Failure 400 NoDataset <->
   Forall (fun r => loaded contents read_csv read_excel r = None) rs).
Proof.
  split; [|split; [|split]].
  - intros H. now rewrite serve_dataset, H.
  - intros df H. now rewrite serve_dataset, H.
  - rewrite serve_all_dataset. tauto.
  - pose proof (serve_all_dataset contents read_csv read_excel to_csv na_encodable rs None)
      as Hs.
    unfold get_shape, with_dataset.
    destruct (snd (serve_all contents read_csv read_excel to_csv na_encodable rs None))
      as [d|]; cbn [fst]; split; intros H.
    + discriminate H.
    + exfalso. assert (E : Some d = None) by (apply Hs; now split). discriminate E.
    + now apply Hs.
    + reflexivity.
Qed.

(** X18. When [upload_file] answers 200, the uploaded table has unique
    column labels, a row, a numeric column and a value in every column;
    [dataset] is the table that [preprocess_data] returned on it, the reply
    gives its shape, the same that [get_shape] then answers, and the records
    of its first five rows, in which no float cell is missing. *)
Theorem upload_answers_200_only_on_a_complete_table
    (filename : string) (file : contents) (dataset dataset' : option DataFrame) (b : body) :
  upload_file contents read_csv read_excel na_encodable filename file dataset =
    (Success b, dataset') ->
  exists df out,
    loaded contents read_csv read_excel (PostUpload filename file) = Some df /\
    fst (preprocess_data df) = Ok out /\
    dataset' = Some out /\
    b = Uploaded (nrows out) (length (columns out)) (to_dict_records (head 5 out)) /\
    get_shape dataset' = (Success (Shape (nrows out) (length (columns out))), dataset') /\
    unique_labels df /\ nrows df <> 0 /\
    (exists nc, In nc (columns df) /\ is_number (snd nc) = true) /\
    (forall nc, In nc (columns df) -> has_value (snd nc) = true) /\
    holds is_NaNValue (to_dict_records (head 5 out)) = false.
Proof.
  intros H. destruct (upload_success _ _ _ _ _ _ _ _ _ H)
    as (df & out & s & Hl & Hp & -> & -> & _ & Hn).
  destruct (preprocess_data_requires _ _ _ Hp) as (Hu & Hr & Hnum & Hv).
  exists df, out. split; [exact Hl|]. split; [now rewrite Hp|].
  repeat split; try assumption.
  apply existsb_exists in Hnum. exact Hnum.
Qed.

(** X19. The preview of an upload answered with 200 is what [show_columns]
    then answers for rows=5 and any cols that is at least the number of
    columns. *)
Theorem preview_is_the_first_five_rows
    (filename : string) (file : contents) (dataset dataset' : option DataFrame)
    (rows columns : nat) (preview : list record) (cols : Z) :
  upload_file contents read_csv read_excel na_encodable filename file dataset =
    (Success (Uploaded rows columns preview), dataset') ->
  (Z.of_nat columns <= cols)%Z ->
  show_columns na_encodable 5 cols dataset' = (Success (Records preview), dataset').
Proof.
  intros H Hc. destruct (upload_success _ _ _ _ _ _ _ _ _ H)
    as (df & out & s & _ & _ & -> & Hb & Hj & Hn).
  injection Hb as -> -> ->.
  unfold show_columns, with_dataset, rendered, try_except.
  rewrite (iloc_all_columns _ _ _ Hc), Hj. unfold render. now rewrite Hn.
Qed.

End ServiceTheorems.

Lemma upload_answers_200_only_on_a_complete_table_witness :
  exists df out,
    loaded unit (fun _ => Some single_city) (fun _ => None) (PostUpload " data.csv" tt) =
      Some df /\
    fst (preprocess_data df) = Ok out /\
    Some single_city_encoded = Some out /\
    Uploaded 3 1 (to_dict_records (head 5 single_city_encoded)) =
      Uploaded (nrows out) (length (columns out)) (to_dict_records (head 5 out)) /\
    get_shape (Some single_city_encoded) =
      (Success (Shape (nrows out) (length (columns out))), Some single_city_encoded) /\
    unique_labels df /\ nrows df <> 0 /\
    (exists nc, In nc (columns df) /\ is_number (snd nc) = true) /\
    (forall nc, In nc (columns df) -> has_value (snd nc) = true) /\
    holds is_NaNValue (to_dict_records (head 5 out)) = false.
Proof.
  apply (upload_answers_200_only_on_a_complete_table unit
           (fun _ => Some single_city) (fun _ => None) true " data.csv" tt None).
  exact single_city_upload.
Defined.

Lemma preview_is_the_first_five_rows_witness :
  show_columns true 5 1 (Some single_city_encoded) =
  (Success (Records (to_dict_records (head 5 single_city_encoded))),
   Some single_city_encoded).
Proof.
  apply (preview_is_the_first_five_rows unit
           (fun _ => Some single_city) (fun _ => None) true " data.csv" tt None
           (Some single_city_encoded) 3 1).
  - exact single_city_upload.
  - lia.
Defined.

Section PreviewTheorems.

Variable contents : Type.
Variable read_csv read_excel : contents -> option DataFrame.
Variable na_encodable : bool.

(** X20. When the table that [preprocess_data] returns has a missing cell in
    a float64 column among its first five rows (as in the rows that the
    encoder adds), [upload_file] answers 500, and the table is in [dataset]
    all the same. *)
Theorem missing_float_in_the_preview_is_answered_500
    (filename : string) (file : contents) (dataset : option DataFrame)
    (df out s : DataFrame) (p k : nat) (n : string) (vs : list float) :
  loaded contents read_csv read_excel (PostUpload filename file) = Some df ->
  preprocess_data df = (Ok out, s) ->
  nth_error (columns out) p = Some (n, NumCol float64 vs) ->
  nth_error vs k = Some None -> k < 5 -> k < nrows out ->
  upload_file contents read_csv read_excel na_encodable filename file dataset =
  (Failure 500 (ErrorProcessingFile (PythonError ValueError)), Some out).
Proof.
  intros Hl Hp Hcol Hk H5 Hrows.
  destruct (preprocess_data_restored _ _ _ Hp) as [d Hr].
  pose proof (restored_float_label _ _ _ _ _ Hr Hcol) as Hc.
  pose proof (holds_NaN_in_head _ _ _ _ _ Hcol Hc Hk H5 Hrows) as Hn.
  unfold upload_file, try_except, upload_file_body. unfold loaded in Hl.
  destruct (supported (strip filename)); [|discriminate]. cbn [negb].
  rewrite Hl, Hp. unfold jsonable_encoder.
  destruct (holds is_NA (to_dict_records (head 5 out)) && negb na_encodable);
    [reflexivity|].
  unfold render. now rewrite Hn.
Qed.

End PreviewTheorems.

Lemma missing_float_in_the_preview_is_answered_500_witness :
  upload_file unit (fun _ => Some scenario) (fun _ => None) true "data.csv" tt None =
  (Failure 500 (ErrorProcessingFile (PythonError ValueError)), Some scenario_restored).
Proof.
  apply (missing_float_in_the_preview_is_answered_500 unit
           (fun _ => Some scenario) (fun _ => None) true "data.csv" tt None
           scenario scenario_restored scenario_numeric 0 3 "age"%string
           (reindex [0; 1; 3] [0; 1; 3; 2]
              (standard_scale [Some 25%R; Some 40%R; Some 70%R]))).
  - reflexivity.
  - exact scenario_result.
  - reflexivity.
  - reflexivity.
  - lia.
  - unfold nrows, scenario_restored. cbn [index length]. lia.
Defined.



(** ** The summary of the page and the stages of the pipeline *)

(** X21. The number of duplicates that the summary shows for a table is the
    number of rows that [remove_duplicates] drops from that table. *)
Theorem duplicates_counted_are_the_rows_dropped (df : DataFrame) :
  nrows (snd (remove_duplicates df)) + duplicate_count df = nrows df.
Proof.
  unfold remove_duplicates, duplicate_count. destruct (empty df); cbn [snd]; [lia|].
  unfold nrows at 1. cbn [index]. apply select_negb_length.
  now rewrite duplicated_length, rows_length.
Qed.

(** X22. When the summary of a rectangular table with unique column labels
    and at least one row shows no missing value, no duplicate and no
    outlier, the imputer, the deduplicator and the outlier suppressor, run
    one after the other on that table, return it as it is. *)
Theorem clean_summary_means_idle_stages (df : DataFrame) :
  well_formed df -> nrows df <> 0 ->
  Forall (fun e => snd e = 0) (missing_values df) ->
  duplicate_count df = 0 ->
  Forall (fun e => snd e = 0) (outlier_counts df) ->
  (handle_missing_values ;;; remove_duplicates ;;; handle_outliers) df = (Ok tt, df).
Proof.
  intros [Hu Hrect] Hrows Hmiss Hdup Hout.
  assert (Hm : forall nc, In nc (columns df) -> isnull_sum (snd nc) = 0).
  { intros nc Hin. rewrite Forall_forall in Hmiss.
    apply (Hmiss (fst nc, isnull_sum (snd nc))). unfold missing_values.
    apply in_map_iff. now exists nc. }
  assert (Hl : forall nc, In nc (columns df) -> column_length (snd nc) <> 0).
  { intros nc Hin. now rewrite (Hrect _ Hin). }
  assert (Ho : forall nc, In nc (columns df) ->
                 forall t s, snd nc = NumCol t s -> outlier_count s = 0).
  { intros [n c] Hin t s Hc. cbn [snd] in Hc. subst c.
    pose proof (outlier_counts_get _ _ _ _ Hu Hin) as Hg.
    apply dict_get_In in Hg. rewrite Forall_forall in Hout.
    exact (Hout _ Hg). }
  unfold bind.
  rewrite (handle_missing_values_pass _ Hu).
  rewrite (map_cols_fixed (fun _ => true) impute_column (columns df))
    by (intros nc Hin _; apply impute_column_full; [now apply Hm | now apply Hl]).
  cbn [fst snd]. replace (mkDataFrame (index df) (columns df)) with df by now destruct df.
  rewrite (remove_duplicates_idle _ Hrect Hdup).
  rewrite (handle_outliers_pass _ Hu).
  rewrite (map_cols_fixed is_number outliers_column (columns df))
    by (intros nc Hin _; apply outliers_column_idle;
        [now apply Hm | now apply Hl | now apply Ho]).
  cbn [fst snd]. now destruct df.
Qed.

Lemma clean_summary_means_idle_stages_witness :
  (handle_missing_values ;;; remove_duplicates ;;; handle_outliers) single_city =
  (Ok tt, single_city).
Proof.
  apply (clean_summary_means_idle_stages single_city).
  - split; [exact single_city_unique_labels | exact single_city_rectangular].
  - discriminate.
  - repeat constructor.
  - exact single_city_duplicate_count.
  - unfold outlier_counts, single_city. cbn [columns filter snd is_number fold_left fst dict_set].
    constructor; [exact single_city_outlier_count | constructor].
Defined.


